(** * pyts.io.aerodyn: the TurbSim/AeroDyn full-field (.bts) writer and reader

    A shallow embedding of [write] and [read] of [pyts/io/aerodyn.py]:
    the 70-byte packed header, the per-component 16-bit quantisation done in
    numpy float32 arithmetic, and the axis reordering of the data block.

    - bytes are [Byte.byte], a file is a [list byte];
    - numpy's float32 is IEEE binary32, taken from the standard library's
      [SpecFloat] at precision 24 and exponent bound 128, so every operation
      rounds as the hardware does and every definition computes;
    - a numpy array is a shape with an index function, the views [a[:, ::-1]]
      and [rollaxis] being index remappings as they are in numpy;
    - Python exceptions are the [Err] side of [result]. *)

From Stdlib Require Import Strings.Byte Strings.String Strings.Ascii.
From Stdlib Require Import ZArith List Lia Bool Arith.
From Stdlib Require Import Floats.SpecFloat.
Import ListNotations.

Local Open Scope Z_scope.

(** ** Exceptions and results *)

(** The exceptions the two functions can raise: [struct.error] from
    [pack]/[unpack], numpy's [ValueError] (reduction of an empty array,
    [fromstring] on an odd number of bytes, [reshape] to another size),
    [IndexError] from [grid.z[0]], [OverflowError] from [pack] on a float too
    large for the ['f'] code and from [fl.read] on a count that is no C long,
    and [MemoryError] when a buffer is not granted. *)
Inductive exn : Type :=
  | struct_error
  | ValueError
  | IndexError
  | OverflowError
  | MemoryError.

Inductive result (A : Type) : Type :=
  | Ok (a : A)
  | Err (x : exn).

Arguments Ok {A} a.
Arguments Err {A} x.

Definition bind {A B : Type} (r : result A) (k : A -> result B) : result B :=
  match r with
  | Ok a => k a
  | Err x => Err x
  end.

Notation "'do' x <- r ; k" := (bind r (fun x => k))
  (at level 10, x pattern, r at level 100, k at level 200).

(** ** Bytes and fixed-width integers *)

Definition byte_of_Z (z : Z) : byte :=
  match Byte.of_N (Z.to_N (z mod 256)) with
  | Some b => b
  | None => x00
  end.

Definition Z_of_byte (b : byte) : Z := Z.of_N (Byte.to_N b).

(** The byte-order character [e] of [pyts.io.base] that prefixes the
    [struct] format.  The reader takes exactly 70 bytes for ['h4l12fl'], which
    is the size of the format in struct's standard mode only, so [e] selects
    one of the two orders and no alignment padding. *)
Inductive byte_order : Type :=
  | LittleEndian
  | BigEndian.

(** [w] bytes of [z], least significant first. *)
Fixpoint le_bytes (w : nat) (z : Z) : list byte :=
  match w with
  | O => []
  | S w' => byte_of_Z z :: le_bytes w' (z / 256)
  end.

Fixpoint le_int (bs : list byte) : Z :=
  match bs with
  | [] => 0
  | b :: bs' => Z_of_byte b + 256 * le_int bs'
  end.

Definition int_bytes (o : byte_order) (w : nat) (z : Z) : list byte :=
  match o with
  | LittleEndian => le_bytes w z
  | BigEndian => rev (le_bytes w z)
  end.

Definition bytes_uint (o : byte_order) (bs : list byte) : Z :=
  match o with
  | LittleEndian => le_int bs
  | BigEndian => le_int (rev bs)
  end.

(** Two's complement reading of an unsigned [8*w]-bit value. *)
Definition to_signed (w : nat) (u : Z) : Z :=
  if u <? 2 ^ (8 * Z.of_nat w - 1) then u else u - 2 ^ (8 * Z.of_nat w).

Definition bytes_int (o : byte_order) (bs : list byte) : Z :=
  to_signed (length bs) (bytes_uint o bs).

Definition in_int_range (w : nat) (z : Z) : bool :=
  (- 2 ^ (8 * Z.of_nat w - 1) <=? z) && (z <? 2 ^ (8 * Z.of_nat w - 1)).

(** ** float32 *)

Definition f32 : Type := spec_float.

Definition f32_valid (x : f32) : bool := valid_binary 24 128 x.

Definition f32_add : f32 -> f32 -> f32 := SFadd 24 128.
Definition f32_sub : f32 -> f32 -> f32 := SFsub 24 128.
Definition f32_mul : f32 -> f32 -> f32 := SFmul 24 128.
Definition f32_div : f32 -> f32 -> f32 := SFdiv 24 128.
Definition f32_eqb : f32 -> f32 -> bool := SFeqb.
Definition f32_leb : f32 -> f32 -> bool := SFleb.

Definition f32_isnan (x : f32) : bool :=
  match x with
  | S754_nan => true
  | _ => false
  end.

(** An integer converted to float32, rounding to nearest even. *)
Definition f32_of_Z (z : Z) : f32 := binary_normalize 24 128 z 0 false.

(** The integer part of a float, rounding toward zero; [None] for an
    infinity or a NaN. *)
Definition f32_trunc (x : f32) : option Z :=
  match x with
  | S754_zero _ => Some 0
  | S754_finite s m e =>
      let a := match e with
               | Zneg p => Z.pos m / 2 ^ Z.pos p
               | _ => Z.pos m * 2 ^ e
               end in
      Some (if s then - a else a)
  | _ => None
  end.

Definition wrap16 (z : Z) : Z := (z + 32768) mod 65536 - 32768.

(** [.astype(np.int16)] on a float32 value: the C conversion
    [(npy_short)x].  In range it truncates toward zero.  Out of range C leaves
    the result open; compiled for the usual 64-bit hardware the loop converts
    to a 32-bit integer and keeps the low 16 bits, so a value within the int32
    range wraps modulo 65536, and anything else (also an infinity or a NaN)
    becomes the 32-bit 'integer indefinite' pattern, whose low half is 0. *)
Definition astype_int16 (x : f32) : Z :=
  match f32_trunc x with
  | Some z => if in_int_range 4 z then wrap16 z else 0
  | None => 0
  end.

(** The IEEE binary32 interchange encoding, as a 32-bit unsigned value.
    [spec_float] has one NaN, without sign or payload, and it is given here
    the bits [0x7fc00000] of the quiet NaN.  The bits the hardware gives a NaN
    differ with the operation that made it (the sign bit may be set), so what
    is said below of written bytes is said of the floats other than NaN; of a
    NaN only that it is read back as a NaN. *)
Definition f32_bits (x : f32) : Z :=
  match x with
  | S754_zero s => if s then 2 ^ 31 else 0
  | S754_infinity s => (if s then 2 ^ 31 else 0) + 255 * 2 ^ 23
  | S754_nan => 255 * 2 ^ 23 + 2 ^ 22
  | S754_finite s m e =>
      (if s then 2 ^ 31 else 0) +
      (if Z.pos m <? 2 ^ 23 then Z.pos m
       else (e + 150) * 2 ^ 23 + (Z.pos m - 2 ^ 23))
  end.

(** A Python float is an IEEE binary64 value; [spec_float] holds those as
    well, and a numpy float32 scalar is one of them. *)
Definition f64 : Type := spec_float.

(** The C conversion [(float)x] of a binary64 value: rounded to binary32, to
    nearest with ties to even, an infinity when it is too large. *)
Definition f32_of_f64 (x : f64) : f32 :=
  match x with
  | S754_finite s m e => binary_round 24 128 s m e
  | _ => x
  end.

Definition f32_of_bits (u : Z) : f32 :=
  let s := 2 ^ 31 <=? u in
  let ex := (u / 2 ^ 23) mod 256 in
  let mant := u mod 2 ^ 23 in
  if ex =? 0 then
    match mant with
    | Z.pos m => S754_finite s m (-149)
    | _ => S754_zero s
    end
  else if ex =? 255 then
    (if mant =? 0 then S754_infinity s else S754_nan)
  else
    match mant + 2 ^ 23 with
    | Z.pos m => S754_finite s m (ex - 150)
    | _ => S754_nan
    end.

(** ** struct.pack and struct.unpack *)

(** The three format codes of ['h4l12fl'] in standard mode: a 2-byte and a
    4-byte signed integer and a 4-byte float. *)
Inductive code : Type :=
  | code_h
  | code_l
  | code_f.

(** A value tagged with the code it is packed under.  What [pack] is given
    under ['f'] is a Python float or a numpy scalar, which it takes as a
    binary64 value; what [unpack] gives is a binary32 value. *)
Inductive field : Type :=
  | H (z : Z)
  | L (z : Z)
  | F (x : f64).

Definition code_size (c : code) : nat :=
  match c with
  | code_h => 2%nat
  | code_l => 4%nat
  | code_f => 4%nat
  end.

Definition field_code (v : field) : code :=
  match v with
  | H _ => code_h
  | L _ => code_l
  | F _ => code_f
  end.

Fixpoint calcsize (fmt : list code) : nat :=
  match fmt with
  | [] => 0%nat
  | c :: fmt' => (code_size c + calcsize fmt')%nat
  end.

(** The float that [pack] stores under ['f'] for [x]: [x] converted to
    binary32.  A finite [x] that the conversion turns into an infinity raises
    [OverflowError] ("float too large to pack with f format"). *)
Definition pack_float (x : f64) : result f32 :=
  match x, f32_of_f64 x with
  | S754_finite _ _ _, S754_infinity _ => Err OverflowError
  | _, y => Ok y
  end.

(** An integer outside the range of its code raises [struct.error]. *)
Definition pack_field (o : byte_order) (v : field) : result (list byte) :=
  match v with
  | H z => if in_int_range 2 z then Ok (int_bytes o 2 z) else Err struct_error
  | L z => if in_int_range 4 z then Ok (int_bytes o 4 z) else Err struct_error
  | F x => do y <- pack_float x; Ok (int_bytes o 4 (f32_bits y))
  end.

Fixpoint pack (o : byte_order) (vs : list field) : result (list byte) :=
  match vs with
  | [] => Ok []
  | v :: vs' =>
      do b <- pack_field o v;
      do bs <- pack o vs';
      Ok (b ++ bs)
  end.

Definition unpack_field (o : byte_order) (c : code) (bs : list byte) : field :=
  match c with
  | code_h => H (bytes_int o bs)
  | code_l => L (bytes_int o bs)
  | code_f => F (f32_of_bits (bytes_uint o bs))
  end.

Fixpoint unpack_fields (o : byte_order) (fmt : list code) (bs : list byte)
  : list field :=
  match fmt with
  | [] => []
  | c :: fmt' =>
      unpack_field o c (firstn (code_size c) bs)
        :: unpack_fields o fmt' (skipn (code_size c) bs)
  end.

(** [unpack] wants a buffer of exactly [calcsize fmt] bytes. *)
Definition unpack (o : byte_order) (fmt : list code) (bs : list byte)
  : result (list field) :=
  if (length bs =? calcsize fmt)%nat then Ok (unpack_fields o fmt bs)
  else Err struct_error.

(** ['h4l12fl'] *)
Definition header_fmt : list code :=
  code_h :: repeat code_l 4 ++ repeat code_f 12 ++ [code_l].

(** ** The header *)

(** The eighteen values of the header, under the names [read] gives them:
    what [unpack] returns, and what [write] hands to [pack]. *)
Record header : Type := mk_header {
  junk : Z;
  n_z : Z;
  n_y : Z;
  n_tower : Z;
  n_t : Z;
  dz : f32;
  dy : f32;
  dt : f32;
  uhub : f32;
  zhub : f32;
  z0 : f32;
  u_scl : f32 * f32 * f32;
  u_off : f32 * f32 * f32;
  strlen : Z
}.

(** [v[ind]] for the three-element arrays [u_scl] and [u_off]. *)
Definition sel3 {A : Type} (v : A * A * A) (ind : nat) : A :=
  match v, ind with
  | (a, _, _), O => a
  | (_, b, _), S O => b
  | (_, _, c), _ => c
  end.

(** The argument list of [pack] in [write]. *)
Definition header_fields (h : header) : list field :=
  [ H (junk h); L (n_z h); L (n_y h); L (n_tower h); L (n_t h);
    F (dz h); F (dy h); F (dt h); F (uhub h); F (zhub h); F (z0 h);
    F (sel3 (u_scl h) 0); F (sel3 (u_off h) 0);
    F (sel3 (u_scl h) 1); F (sel3 (u_off h) 1);
    F (sel3 (u_scl h) 2); F (sel3 (u_off h) 2);
    L (strlen h) ].

(** The tuple assignment of [read]. *)
Definition header_of_fields (vs : list field) : result header :=
  match vs with
  | [ H tag; L nz; L ny; L ntw; L nt;
      F a; F b; F c; F d; F g; F z;
      F s0; F o0; F s1; F o1; F s2; F o2; L len ] =>
      Ok (mk_header tag nz ny ntw nt a b c d g z (s0, s1, s2) (o0, o1, o2) len)
  | _ => Err struct_error
  end.

Definition pack_header (e : byte_order) (h : header) : result (list byte) :=
  pack e (header_fields h).

Definition unpack_header (e : byte_order) (bs : list byte) : result header :=
  do vs <- unpack e header_fmt bs;
  header_of_fields vs.

(** ** Arrays *)

(** A four-dimensional numpy array (or view) whose first axis has extent 3:
    the extents of axes 1 to 3 and the element at an index.  Both functions
    fix the first extent ([for ind in range(3)], [reshape([3, ...])]).  An
    index outside the shape, which Python refuses, is never used below. *)
Record ndarray (A : Type) : Type := mk_ndarray {
  dim1 : nat;
  dim2 : nat;
  dim3 : nat;
  item : nat -> nat -> nat -> nat -> A
}.

Arguments mk_ndarray {A} dim1 dim2 dim3 item.
Arguments dim1 {A} n.
Arguments dim2 {A} n.
Arguments dim3 {A} n.
Arguments item {A} n c i j k.

(** [a[:, ::-1]]: axis 1 reversed. *)
Definition rev_axis1 {A : Type} (a : ndarray A) : ndarray A :=
  mk_ndarray (dim1 a) (dim2 a) (dim3 a)
    (fun c i j k => item a c (dim1 a - 1 - i)%nat j k).

(** [np.rollaxis(a, 2, 1)]: axis 2 moved in front of axis 1. *)
Definition rollaxis_2_1 {A : Type} (a : ndarray A) : ndarray A :=
  mk_ndarray (dim2 a) (dim1 a) (dim3 a)
    (fun c j i k => item a c i j k).

(** Elementwise map along the component axis: the broadcasting of
    [v[:, None, None, None]] and of [ts[ind] * u_scl[ind]]. *)
Definition map_comp {A B : Type} (f : nat -> A -> B) (a : ndarray A) : ndarray B :=
  mk_ndarray (dim1 a) (dim2 a) (dim3 a)
    (fun c i j k => f c (item a c i j k)).

(** The elements of [a[ind]] in C order. *)
Definition comp_items {A : Type} (a : ndarray A) (ind : nat) : list A :=
  flat_map (fun i =>
    flat_map (fun j =>
      map (fun k => item a ind i j k) (seq 0 (dim3 a)))
      (seq 0 (dim2 a)))
    (seq 0 (dim1 a)).

(** The elements in Fortran order, first index fastest: what
    [tostring(order='F')] walks through. *)
Definition items_F {A : Type} (a : ndarray A) : list A :=
  flat_map (fun k =>
    flat_map (fun j =>
      flat_map (fun i =>
        map (fun c => item a c i j k) (seq 0 3))
        (seq 0 (dim1 a)))
      (seq 0 (dim2 a)))
    (seq 0 (dim3 a)).

(** The Fortran-order view of a flat buffer under the shape [3, d1, d2, d3]. *)
Definition view_F {A : Type} (d : A) (l : list A) (d1 d2 d3 : nat) : ndarray A :=
  mk_ndarray d1 d2 d3
    (fun c i j k => nth (c + 3 * (i + d1 * (j + d2 * k)))%nat l d).

(** [a.reshape(dims)] on an array of [len] elements: the shape numpy settles
    on.  A negative entry is the unknown extent, at most one is allowed and it
    is inferred from the others; otherwise the product must be [len]. *)
Definition reshape_dims (len : Z) (dims : list Z) : result (list Z) :=
  let known := fold_right Z.mul 1 (filter (fun d => 0 <=? d) dims) in
  match length (filter (fun d => d <? 0) dims) with
  | O => if len =? known then Ok dims else Err ValueError
  | S O =>
      if (known =? 0) || negb (len mod known =? 0) then Err ValueError
      else Ok (map (fun d => if d <? 0 then len / known else d) dims)
  | _ => Err ValueError
  end.

(** [l.reshape([3, d1, d2, d3], order='F')] *)
Definition reshape_F {A : Type} (d : A) (l : list A) (d1 d2 d3 : Z)
  : result (ndarray A) :=
  do s <- reshape_dims (Z.of_nat (length l)) [3; d1; d2; d3];
  match s with
  | [_; a; b; c] => Ok (view_F d l (Z.to_nat a) (Z.to_nat b) (Z.to_nat c))
  | _ => Err ValueError
  end.

(** ** Sample bytes *)

Fixpoint chunk2 (bs : list byte) : list (list byte) :=
  match bs with
  | a :: b :: bs' => [a; b] :: chunk2 bs'
  | _ => []
  end.

(** [np.fromstring(s, dtype=np.int16)]: the machine's own byte order; a
    string that is no whole number of elements is a [ValueError]. *)
Definition fromstring_int16 (native : byte_order) (s : list byte)
  : result (list Z) :=
  if Nat.even (length s) then Ok (map (bytes_int native) (chunk2 s))
  else Err ValueError.

(** [a.tostring(order='F')] of an int16 array. *)
Definition tostring_F (native : byte_order) (a : ndarray Z) : list byte :=
  flat_map (int_bytes native 2) (items_F a).

(** [fl.read(n)] on the unread part of a file, when the read is granted: the
    bytes read and what is left.  A negative [n] reads to the end.  What the
    machine can refuse is in [file_read] below. *)
Definition fl_read (n : Z) (fl : list byte) : list byte * list byte :=
  if n <? 0 then (fl, [])
  else (firstn (Z.to_nat n) fl, skipn (Z.to_nat n) fl).

(** ** write *)

Definition intmin : Z := -32768.
Definition intrng : Z := 65536.

(** [minimum.reduce] and [maximum.reduce] on float32: a NaN met on the way
    stays; an empty array is a [ValueError]. *)
Definition min_step (acc x : f32) : f32 :=
  if f32_leb acc x || f32_isnan acc then acc else x.

Definition max_step (acc x : f32) : f32 :=
  if f32_leb x acc || f32_isnan acc then acc else x.

Definition np_min (l : list f32) : result f32 :=
  match l with
  | [] => Err ValueError
  | x :: l' => Ok (fold_left min_step l' x)
  end.

Definition np_max (l : list f32) : result f32 :=
  match l with
  | [] => Err ValueError
  | x :: l' => Ok (fold_left max_step l' x)
  end.

(** [u_scl[ind]] and [u_off[ind]] from the samples of one component.  The
    offset is computed by Python in double precision from two float32 values
    and stored in a float32 slot; with 53 >= 2 * 24 + 2 bits that is the
    float32 difference. *)
Definition quant_params (xs : list f32) : result (f32 * f32) :=
  do mn <- np_min xs;
  do mx <- np_max xs;
  let scl := if f32_eqb mn mx then f32_of_Z 1
             else f32_div (f32_of_Z intrng) (f32_sub mx mn) in
  let off := f32_sub (f32_of_Z intmin) (f32_mul scl mn) in
  Ok (scl, off).

(** [(x * u_scl[ind] + u_off[ind]).astype(np.int16)] for one sample. *)
Definition quantize (scl off : f32) (x : f32) : Z :=
  astype_int16 (f32_add (f32_mul x scl) off).

(** [tsdat.grid] and [tsdat], as far as [write] looks at them.  The float
    attributes are what [pack] takes them for, binary64 values (a float32
    attribute is one that is a binary32 value already); [utotal] is a float32
    array indexed (component, z, y, t) and [tsdat.shape] is its shape. *)
Module Grid.
Record t : Type := mk {
  n_z : Z;
  n_y : Z;
  n_tower : Z;
  dz : f64;
  dy : f64;
  zhub : f64;
  z : list f64
}.
End Grid.

Module Tsdata.
Record t : Type := mk {
  utotal : ndarray f32;
  grid : Grid.t;
  dt : f64;
  UHUB : f64
}.
End Tsdata.

(** ['generated by %s v%s, %s.' % (__prog_name__, __version__, time.strftime(...))] *)
Definition desc_str (prog_name version now : string) : string :=
  ("generated by " ++ prog_name ++ " v" ++ version ++ ", " ++ now ++ ".")%string.

(** The data block: [np.rollaxis(out[:, ::-1], 2, 1).tostring(order='F')]. *)
Definition data_block (native : byte_order) (out : ndarray Z) : list byte :=
  tostring_F native (rollaxis_2_1 (rev_axis1 out)).

(** The quantisation loop of [write]: the three parameter pairs and [out]. *)
Definition quantize_all (ts : ndarray f32)
  : result ((f32 * f32 * f32) * (f32 * f32 * f32) * ndarray Z) :=
  do p0 <- quant_params (comp_items ts 0);
  do p1 <- quant_params (comp_items ts 1);
  do p2 <- quant_params (comp_items ts 2);
  let scl := (fst p0, fst p1, fst p2) in
  let off := (snd p0, snd p1, snd p2) in
  Ok (scl, off, map_comp (fun ind x => quantize (sel3 scl ind) (sel3 off ind) x) ts).

(** [write]: the bytes put into the file.  [prog_name], [version] and [now]
    are the two module constants and the formatted local time that go into
    the description. *)
Definition write (e native : byte_order) (prog_name version now : string)
    (tsdat : Tsdata.t) : result (list byte) :=
  let ts := Tsdata.utotal tsdat in
  let g := Tsdata.grid tsdat in
  let desc := desc_str prog_name version now in
  do q <- quantize_all ts;
  let '(scl, off, out) := q in
  do z_0 <- match Grid.z g with
            | [] => Err IndexError
            | x :: _ => Ok x
            end;
  do hd <- pack_header e
    (mk_header 7 (Grid.n_z g) (Grid.n_y g) (Grid.n_tower g)
       (Z.of_nat (dim3 ts))
       (Grid.dz g) (Grid.dy g) (Tsdata.dt tsdat) (Tsdata.UHUB tsdat)
       (Grid.zhub g) z_0 scl off (Z.of_nat (String.length desc)));
  Ok (hd ++ list_byte_of_string desc ++ data_block native out).

(** ** read *)

(** Lines 120 to 122: [2 * nbt] bytes from the current file position, as
    int16, as float32, reshaped in Fortran order to [3, n_y, n_z, n_t], then
    the axis swap and the reversal of the z axis. *)
Definition read_block (native : byte_order) (ny nz nt : Z) (fl : list byte)
  : result (ndarray f32) :=
  let nbt := 3 * ny * nz * nt in
  let '(raw, _) := fl_read (2 * nbt) fl in
  do q <- fromstring_int16 native raw;
  do a <- reshape_F (S754_zero false) (map f32_of_Z q) ny nz nt;
  Ok (rev_axis1 (rollaxis_2_1 a)).

(** [out -= u_off[:, None, None, None]; out /= u_scl[:, None, None, None]] *)
Definition dequantize (scl off : f32 * f32 * f32) (out : ndarray f32)
  : ndarray f32 :=
  let out := map_comp (fun ind x => f32_sub x (sel3 off ind)) out in
  map_comp (fun ind x => f32_div x (sel3 scl ind)) out.

(** What [read] does once the header [h] is unpacked, on the rest [fl] of
    the file. *)
Definition read_data (native : byte_order) (h : header) (fl : list byte)
  : result (ndarray f32) :=
  do out <- read_block native (n_y h) (n_z h) (n_t h) fl;
  Ok (dequantize (u_scl h) (u_off h) out).

(** [read]: the array returned for a file, every buffer asked for being
    granted ([read_on] below has the limits of the machine).  The source has
    the line that reads the description, [desc_str = fl.read(strlen)],
    commented out, so the sample bytes are taken right after the 70 bytes of
    the header. *)
Definition read (e native : byte_order) (file : list byte)
  : result (ndarray f32) :=
  let '(hd, fl) := fl_read 70 file in
  do h <- unpack_header e hd;
  read_data native h fl.

(** ** read on a machine with limits *)

(** What [fl.read] and numpy depend on beyond the file: the largest C long
    (and string size) and the largest buffer the allocator grants. *)
Record platform : Type := mk_platform {
  long_max : Z;
  avail : Z
}.

(** [fl.read(n)] of the [file] object.  The count is converted to a C long,
    an [OverflowError] when it is none.  A negative count reads to the end of
    the file; for any other a string of [n] bytes is allocated before
    anything is read, a [MemoryError] when it is not granted. *)
Definition file_read (p : platform) (n : Z) (fl : list byte)
  : result (list byte * list byte) :=
  if (n <? - long_max p - 1) || (long_max p <? n) then Err OverflowError
  else if avail p <? (if n <? 0 then Z.of_nat (length fl) else n)
       then Err MemoryError
       else Ok (fl_read n fl).

(** [.astype(np.float32)]: a new array of four bytes for each sample. *)
Definition astype_float32 (p : platform) (q : list Z) : result (list f32) :=
  if avail p <? 4 * Z.of_nat (length q) then Err MemoryError
  else Ok (map f32_of_Z q).

Definition read_block_on (p : platform) (native : byte_order) (ny nz nt : Z)
    (fl : list byte) : result (ndarray f32) :=
  let nbt := 3 * ny * nz * nt in
  do r <- file_read p (2 * nbt) fl;
  do q <- fromstring_int16 native (fst r);
  do x <- astype_float32 p q;
  do a <- reshape_F (S754_zero false) x ny nz nt;
  Ok (rev_axis1 (rollaxis_2_1 a)).

(** [read] on the machine [p]. *)
Definition read_on (p : platform) (e native : byte_order) (file : list byte)
  : result (ndarray f32) :=
  do r <- file_read p 70 file;
  do h <- unpack_header e (fst r);
  do out <- read_block_on p native (n_y h) (n_z h) (n_t h) (snd r);
  Ok (dequantize (u_scl h) (u_off h) out).

(** The machine grants [fl.read(n)] on [fl] and the conversion of what was
    read: [n] is a C long, and the buffers fit. *)
Definition granted (p : platform) (n : Z) (fl : list byte) : bool :=
  (- long_max p - 1 <=? n) && (n <=? long_max p)
  && ((if n <? 0 then Z.of_nat (length fl) else n) <=? avail p)
  && (2 * Z.of_nat (length (fst (fl_read n fl))) <=? avail p).

(** A 64-bit machine that grants buffers up to 2^32 bytes. *)
Definition sample_machine : platform := mk_platform (2 ^ 63 - 1) (2 ^ 32).

(** An array spelled out: its shape and the elements of each component in
    C order. *)
Definition to_lists {A : Type} (a : ndarray A)
  : nat * nat * nat * (list A * list A * list A) :=
  (dim1 a, dim2 a, dim3 a, (comp_items a 0, comp_items a 1, comp_items a 2)).

(** The call returns a value, and the value satisfies [P]. *)
Definition returns {A : Type} (r : result A) (P : A -> Prop) : Prop :=
  match r with
  | Ok a => P a
  | Err _ => False
  end.

(** ** Well-formedness *)

(** A float field holds a binary32 value. *)
Definition field_valid (v : field) : bool :=
  match v with
  | F x => f32_valid x
  | _ => true
  end.

Definition header_valid (h : header) : bool :=
  forallb field_valid (header_fields h).

(** Every number of the list is an int16. *)
Definition int16_list (l : list Z) : Prop :=
  Forall (fun z => in_int_range 2 z = true) l.

(** Every sample of [a] within its shape is an int16. *)
Definition int16_array (a : ndarray Z) : Prop :=
  forall c i j k : nat,
    (c < 3)%nat -> (i < dim1 a)%nat -> (j < dim2 a)%nat -> (k < dim3 a)%nat ->
  in_int_range 2 (item a c i j k) = true.

(** ** The element-wise view of dequantisation, and the header with another tag *)

(** One sample through the two in-place passes of [read]. *)
Definition dequantize_sample (scl off : f32) (q : f32) : f32 :=
  f32_div (f32_sub q off) scl.

Definition set_junk (tag : Z) (h : header) : header :=
  mk_header tag (n_z h) (n_y h) (n_tower h) (n_t h)
    (dz h) (dy h) (dt h) (uhub h) (zhub h) (z0 h)
    (u_scl h) (u_off h) (strlen h).

(** ** The quantiser the specification describes *)

(** The nearest integer of a float, a tie going away from zero; [None] for
    an infinity or a NaN. *)
Definition f32_round (x : f32) : option Z :=
  match x with
  | S754_zero _ => Some 0
  | S754_finite s m e =>
      let a := match e with
               | Zneg p => (2 * Z.pos m + 2 ^ Z.pos p) / 2 ^ (Z.pos p + 1)
               | _ => Z.pos m * 2 ^ e
               end in
      Some (if s then - a else a)
  | _ => None
  end.

Definition clamp16 (z : Z) : Z := Z.max (-32768) (Z.min 32767 z).

(** Written after the specification, not after the source:
    [q = round(x*scale + offset)], out of range clamped. *)
Definition spec_quantize (scl off : f32) (x : f32) : option Z :=
  option_map clamp16 (f32_round (f32_add (f32_mul x scl) off)).

(** ** Sample inputs *)

Definition f32_one : f32 := f32_of_Z 1.
Definition f32_zero : f32 := S754_zero false.

(** A header for a grid of one point and one time step, scale 1 and offset 0
    for each component. *)
Definition one_point_header (tag len : Z) : header :=
  mk_header tag 1 1 0 1 f32_one f32_one f32_one f32_one f32_one f32_one
    (f32_one, f32_one, f32_one) (f32_zero, f32_zero, f32_zero) len.

(** A file laid out as the format has it: header, description, samples. *)
Definition bts_file (e native : byte_order) (h : header) (desc : string)
    (samples : list Z) : list byte :=
  match pack_header e h with
  | Ok hd => hd ++ list_byte_of_string desc ++ flat_map (int_bytes native 2) samples
  | Err _ => []
  end.

(** One grid point with the samples 1, 2, 3, after a description of two
    characters. *)
Definition described_file : list byte :=
  bts_file LittleEndian LittleEndian (one_point_header 7 2) "ab" [1; 2; 3].

(** The same with the last sample cut off. *)
Definition truncated_file : list byte :=
  bts_file LittleEndian LittleEndian (one_point_header 7 2) "ab" [1; 2].

(** No description, all three samples, and 8 for the format tag. *)
Definition wrong_tag_file : list byte :=
  bts_file LittleEndian LittleEndian (one_point_header 8 0) EmptyString [1; 2; 3].

(** A field on one grid point and one time step: the components are 1, 2, 3. *)
Definition one_point_field : Tsdata.t :=
  Tsdata.mk
    (mk_ndarray 1 1 1 (fun c _ _ _ => f32_of_Z (Z.of_nat c + 1)))
    (Grid.mk 1 1 0 f32_one f32_one f32_one [f32_one])
    f32_one f32_one.

(** 0.1 as a float32. *)
Definition f32_tenth : f32 := f32_div (f32_of_Z 1) (f32_of_Z 10).

(** 32768.75 as a float32. *)
Definition f32_32768_75 : f32 := f32_div (f32_of_Z 131075) (f32_of_Z 4).

(** One grid point, samples 1, 2, 3, no description, and a scale of zero
    for component 0. *)
Definition zero_scale_header : header :=
  mk_header 7 1 1 0 1 f32_one f32_one f32_one f32_one f32_one f32_one
    (f32_zero, f32_one, f32_one) (f32_zero, f32_zero, f32_zero) 0.

Definition zero_scale_file : list byte :=
  bts_file LittleEndian LittleEndian zero_scale_header EmptyString [1; 2; 3].

(** The offset [write] stores for a component whose samples are all [c]. *)
Definition constant_offset (c : f32) : f32 :=
  f32_sub (f32_of_Z intmin) (f32_mul (f32_of_Z 1) c).

(** Quantised codes on a grid of two z levels, one y position and one time
    step: the code at component [c] and level [i] is [c + 3 * i]. *)
Definition two_level_codes : ndarray Z :=
  mk_ndarray 2 1 1 (fun c i _ _ => Z.of_nat (c + 3 * i)).

(** ** The exact value of a float *)

(** A finite float is, up to its sign, the fraction [f32_num / f32_den]. *)
Definition f32_num (x : f32) : Z :=
  match x with
  | S754_finite _ m (Zneg _) => Z.pos m
  | S754_finite _ m e => Z.pos m * 2 ^ e
  | _ => 0
  end.

Definition f32_den (x : f32) : Z :=
  match x with
  | S754_finite _ _ (Zneg p) => 2 ^ Z.pos p
  | _ => 1
  end.

Definition f32_sign (x : f32) : bool :=
  match x with
  | S754_zero s | S754_infinity s | S754_finite s _ _ => s
  | S754_nan => false
  end.

(** ** Normal forms of float32 integers *)

(** [m] followed by [n] zero bits. *)
Fixpoint shl_pos (m : positive) (n : nat) : positive :=
  match n with
  | O => m
  | S n' => xO (shl_pos m n')
  end.

(** The float32 of a non-zero integer below 2^24 in absolute value: the
    digits of [p] moved up to fill 24 bits. *)
Definition norm (s : bool) (p : positive) : f32 :=
  S754_finite s (shl_pos p (Z.to_nat (24 - Z.pos (digits2_pos p))))
    (Z.pos (digits2_pos p) - 24).

(** ** When write goes through *)

(** [ts[ind]] has no element: one of the extents is zero. *)
Definition field_is_empty (ts : ndarray f32) : bool :=
  ((dim1 ts =? 0) || (dim2 ts =? 0) || (dim3 ts =? 0))%nat.

(** The four counts that [write] packs under ['l'] right after the tag fit
    an int32. *)
Definition header_counts_fit (tsdat : Tsdata.t) : bool :=
  in_int_range 4 (Grid.n_z (Tsdata.grid tsdat))
  && in_int_range 4 (Grid.n_y (Tsdata.grid tsdat))
  && in_int_range 4 (Grid.n_tower (Tsdata.grid tsdat))
  && in_int_range 4 (Z.of_nat (dim3 (Tsdata.utotal tsdat))).

(** [pack] takes the float under ['f']: it is no finite value beyond the
    binary32 range. *)
Definition float_fits (x : f64) : bool :=
  match pack_float x with
  | Ok _ => true
  | Err _ => false
  end.

(** The six float attributes that [write] packs after the counts, [z_0]
    being [grid.z[0]]. *)
Definition header_floats_fit (tsdat : Tsdata.t) (z_0 : f64) : bool :=
  float_fits (Grid.dz (Tsdata.grid tsdat))
  && float_fits (Grid.dy (Tsdata.grid tsdat))
  && float_fits (Tsdata.dt tsdat)
  && float_fits (Tsdata.UHUB tsdat)
  && float_fits (Grid.zhub (Tsdata.grid tsdat))
  && float_fits z_0.

(** 2^128, a binary64 value just beyond the binary32 range, and a field on
    one grid point whose spacing [dz] it is. *)
Definition f64_2_128 : f64 := S754_finite false 4503599627370496 76.

Definition wide_spacing_field : Tsdata.t :=
  Tsdata.mk
    (mk_ndarray 1 1 1 (fun c _ _ _ => f32_of_Z (Z.of_nat c + 1)))
    (Grid.mk 1 1 0 f64_2_128 f32_one f32_one [f32_one])
    f32_one f32_one.

(** ** What unpack gives for a packed value *)

(** A float that went through [pack] and [unpack]: converted to binary32
    and taken through its 32 bits.  For a binary32 value it is the value
    itself. *)
Definition float_read_back (x : f64) : f32 :=
  f32_of_bits (f32_bits (f32_of_f64 x) mod 2 ^ 32).

Definition field_read_back (v : field) : field :=
  match v with
  | F x => F (float_read_back x)
  | _ => v
  end.

Definition triple_map {A B : Type} (f : A -> B) (v : A * A * A) : B * B * B :=
  match v with
  | (a, b, c) => (f a, f b, f c)
  end.

Definition header_read_back (h : header) : header :=
  mk_header (junk h) (n_z h) (n_y h) (n_tower h) (n_t h)
    (float_read_back (dz h)) (float_read_back (dy h))
    (float_read_back (dt h)) (float_read_back (uhub h))
    (float_read_back (zhub h)) (float_read_back (z0 h))
    (triple_map float_read_back (u_scl h))
    (triple_map float_read_back (u_off h)) (strlen h).

(** A header for [two_level_codes]: two z levels, one y position, one time
    step, scale 1 and offset 0. *)
Definition two_level_header : header :=
  mk_header 7 2 1 0 1 f32_one f32_one f32_one f32_one f32_one f32_one
    (f32_one, f32_one, f32_one) (f32_zero, f32_zero, f32_zero) 0.

(** ** The order of floats *)

(** A key that orders the floats other than NaN as [<=] does: the class
    (negative infinity, negative, zero, positive, positive infinity), then
    exponent and mantissa, both negated for a negative float. *)
Definition f32_key (x : f32) : Z * Z * Z :=
  match x with
  | S754_infinity true => (-2, 0, 0)
  | S754_finite true m e => (-1, - e, - Z.pos m)
  | S754_zero _ => (0, 0, 0)
  | S754_finite false m e => (1, e, Z.pos m)
  | S754_infinity false => (2, 0, 0)
  | S754_nan => (0, 0, 0)
  end.

Definition key_le (a b : Z * Z * Z) : Prop :=
  match a, b with
  | (a1, a2, a3), (b1, b2, b3) =>
      a1 < b1 \/ (a1 = b1 /\ (a2 < b2 \/ (a2 = b2 /\ a3 <= b3)))
  end.

Definition no_nan (xs : list f32) : Prop :=
  Forall (fun x => f32_isnan x = false) xs.

(** Headers for one grid point with extents below zero: n_z = n_y = -1, and
    n_t = -1; each in a file with six samples and no description. *)
Definition two_negative_header : header :=
  mk_header 7 (-1) (-1) 0 1 f32_one f32_one f32_one f32_one f32_one f32_one
    (f32_one, f32_one, f32_one) (f32_zero, f32_zero, f32_zero) 0.

Definition two_negative_file : list byte :=
  bts_file LittleEndian LittleEndian two_negative_header EmptyString
    [1; 2; 3; 4; 5; 6].

Definition open_ended_header : header :=
  mk_header 7 1 1 0 (-1) f32_one f32_one f32_one f32_one f32_one f32_one
    (f32_one, f32_one, f32_one) (f32_zero, f32_zero, f32_zero) 0.

Definition open_ended_file : list byte :=
  bts_file LittleEndian LittleEndian open_ended_header EmptyString
    [1; 2; 3; 4; 5; 6].

(** ** The bytes of a packed value *)

(** The four bytes [pack] writes under ['f'] for a float that is no NaN. *)
Definition float_bytes (o : byte_order) (x : f64) : list byte :=
  int_bytes o 4 (f32_bits (f32_of_f64 x)).

Definition field_bytes (o : byte_order) (v : field) : list byte :=
  match v with
  | H z => int_bytes o 2 z
  | L z => int_bytes o 4 z
  | F x => float_bytes o x
  end.

(** The four bytes [b] hold the float [x] as [pack] stores it: they are read
    back as [x] converted to binary32, and unless that is a NaN they are its
    binary32 encoding in the byte order [o]. *)
Definition float_slot (o : byte_order) (x : f64) (b : list byte) : Prop :=
  length b = 4%nat /\
  f32_of_bits (bytes_uint o b) = float_read_back x /\
  (f32_isnan (f32_of_f64 x) = false -> b = float_bytes o x).

(** ** Division by zero *)

(** What IEEE 754 lays down for the quotient of [x] by a zero of sign [s]:
    a NaN for 0/0 and for a NaN, otherwise an infinity whose sign is the
    product of the two signs. *)
Definition quotient_by_zero (x : f32) (s : bool) : f32 :=
  match x with
  | S754_nan | S754_zero _ => S754_nan
  | S754_infinity sx | S754_finite sx _ _ => S754_infinity (xorb sx s)
  end.

(** ** A field with recognisable samples *)

(** Two z levels, two y positions, one time step.  In component [c] the
    samples are 10 c + 0, 1 on the lower level and 10 c + 2, 4 on the upper
    one. *)
Definition four_point_field : Tsdata.t :=
  Tsdata.mk
    (mk_ndarray 2 2 1
       (fun c z y _ =>
          f32_of_Z (10 * Z.of_nat c
                    + (if (z =? 1)%nat && (y =? 1)%nat then 4
                       else Z.of_nat (2 * z + y)))))
    (Grid.mk 2 2 0 f32_one f32_one f32_one [f32_one])
    f32_one f32_one.

(** ** Samples in a file *)

(** Sample number [i] of the bytes [fl]: the int16 in the two bytes at
    offset [2 * i]. *)
Definition sample_at (native : byte_order) (fl : list byte) (i : nat) : Z :=
  bytes_int native (firstn 2 (skipn (2 * i) fl)).

(** * Bytes and integers *)

Lemma Z_of_byte_range (b : byte) : 0 <= Z_of_byte b < 256.
Proof.
  unfold Z_of_byte. pose proof (Byte.to_N_bounded b) as Hb. lia.
Qed.

Lemma Z_of_byte_of_Z (z : Z) : Z_of_byte (byte_of_Z z) = z mod 256.
Proof.
  unfold Z_of_byte, byte_of_Z.
  pose proof (Z.mod_pos_bound z 256 ltac:(lia)) as Hm.
  destruct (Byte.of_N (Z.to_N (z mod 256))) as [b|] eqn:Hb.
  - apply Byte.to_of_N in Hb. rewrite Hb. apply Z2N.id. lia.
  - apply Byte.of_N_None_iff in Hb. lia.
Qed.

Lemma byte_of_Z_of_byte (b : byte) : byte_of_Z (Z_of_byte b) = b.
Proof.
  unfold byte_of_Z, Z_of_byte.
  rewrite Z.mod_small by (pose proof (Byte.to_N_bounded b); lia).
  rewrite N2Z.id, Byte.of_to_N. reflexivity.
Qed.

Lemma le_bytes_length (w : nat) (z : Z) : length (le_bytes w z) = w.
Proof.
  revert z. induction w as [|w IH]; intro z; simpl; [reflexivity|].
  now rewrite IH.
Qed.

Lemma int_bytes_length (o : byte_order) (w : nat) (z : Z) :
  length (int_bytes o w z) = w.
Proof.
  destruct o; simpl; [|rewrite length_rev]; apply le_bytes_length.
Qed.

Lemma le_int_le_bytes (w : nat) (z : Z) :
  le_int (le_bytes w z) = z mod 2 ^ (8 * Z.of_nat w).
Proof.
  revert z. induction w as [|w IH]; intro z.
  - simpl. now rewrite Z.mod_1_r.
  - cbn [le_bytes le_int]. rewrite IH, Z_of_byte_of_Z.
    replace (8 * Z.of_nat (S w)) with (8 + 8 * Z.of_nat w) by lia.
    rewrite Z.pow_add_r by lia. change (2 ^ 8) with 256.
    rewrite Z.rem_mul_r by lia. reflexivity.
Qed.

Lemma bytes_uint_int_bytes (o : byte_order) (w : nat) (z : Z) :
  bytes_uint o (int_bytes o w z) = z mod 2 ^ (8 * Z.of_nat w).
Proof.
  destruct o; simpl; [|rewrite rev_involutive]; apply le_int_le_bytes.
Qed.

Lemma bytes_int_int_bytes (o : byte_order) (w : nat) (z : Z) :
  (0 < w)%nat -> in_int_range w z = true ->
  bytes_int o (int_bytes o w z) = z.
Proof.
  intros Hw Hr. unfold bytes_int.
  rewrite int_bytes_length, bytes_uint_int_bytes.
  unfold in_int_range in Hr. apply andb_true_iff in Hr as [Hlo Hhi].
  apply Z.leb_le in Hlo. apply Z.ltb_lt in Hhi.
  unfold to_signed.
  set (n := 8 * Z.of_nat w) in *.
  assert (Hp : 2 ^ n = 2 * 2 ^ (n - 1)).
  { rewrite <- Z.pow_succ_r by lia. f_equal. lia. }
  assert (Hpos : 0 < 2 ^ (n - 1)) by (apply Z.pow_pos_nonneg; lia).
  destruct (Z_lt_le_dec z 0) as [Hneg|Hnn].
  - assert (Hm : z mod 2 ^ n = z + 2 ^ n).
    { symmetry. apply Z.mod_unique with (q := -1); lia. }
    rewrite Hm.
    destruct (z + 2 ^ n <? 2 ^ (n - 1)) eqn:Hc; [apply Z.ltb_lt in Hc|]; lia.
  - rewrite Z.mod_small by lia.
    destruct (z <? 2 ^ (n - 1)) eqn:Hc; [reflexivity|].
    apply Z.ltb_ge in Hc. lia.
Qed.

(** * The binary32 encoding *)

Lemma digits2_pos_bounds (m : positive) :
  2 ^ (Z.pos (digits2_pos m) - 1) <= Z.pos m < 2 ^ Z.pos (digits2_pos m).
Proof.
  induction m as [m IH|m IH|]; cbn [digits2_pos].
  - rewrite Pos2Z.inj_succ.
    replace (Z.succ (Z.pos (digits2_pos m)) - 1) with (Z.succ (Z.pos (digits2_pos m) - 1)) by lia.
    rewrite !Z.pow_succ_r by lia. lia.
  - rewrite Pos2Z.inj_succ.
    replace (Z.succ (Z.pos (digits2_pos m)) - 1) with (Z.succ (Z.pos (digits2_pos m) - 1)) by lia.
    rewrite !Z.pow_succ_r by lia. lia.
  - simpl. lia.
Qed.

(** A valid finite binary32 value is subnormal (exponent -149, fewer than 24
    digits) or normal (24 digits, exponent between -149 and 104). *)
Lemma f32_valid_finite (s : bool) (m : positive) (e : Z) :
  f32_valid (S754_finite s m e) = true ->
  (Z.pos m < 2 ^ 23 /\ e = -149) \/
  (2 ^ 23 <= Z.pos m < 2 ^ 24 /\ -149 <= e <= 104).
Proof.
  unfold f32_valid, valid_binary, bounded, canonical_mantissa, fexp, emin.
  intro H. apply andb_true_iff in H as [Hc He].
  apply Z.eqb_eq in Hc. apply Z.leb_le in He.
  pose proof (digits2_pos_bounds m) as Hd.
  set (d := Z.pos (digits2_pos m)) in *.
  assert (Hd1 : 1 <= d) by (unfold d; lia).
  destruct (Z_lt_le_dec d 24) as [Hlt|Hge].
  - left. split; [|lia].
    apply Z.lt_le_trans with (2 ^ d); [lia|].
    apply Z.pow_le_mono_r; lia.
  - right. assert (d = 24) by lia.
    replace (d - 1) with 23 in Hd by lia. replace d with 24 in Hd by lia.
    lia.
Qed.

Lemma f32_bits_range (x : f32) :
  f32_valid x = true -> 0 <= f32_bits x < 2 ^ 32.
Proof.
  destruct x as [s|s| |s m e]; intro Hv; cbn [f32_bits].
  - destruct s; lia.
  - destruct s; lia.
  - lia.
  - apply f32_valid_finite in Hv as [[Hm He]|[Hm He]].
    + destruct (Z.pos m <? 2 ^ 23) eqn:Hc; [|apply Z.ltb_ge in Hc; lia].
      destruct s; lia.
    + destruct (Z.pos m <? 2 ^ 23) eqn:Hc; [apply Z.ltb_lt in Hc; lia|].
      destruct s; lia.
Qed.

Lemma f32_of_bits_bits (x : f32) :
  f32_valid x = true -> f32_of_bits (f32_bits x) = x.
Proof.
  destruct x as [s|s| |s m e]; intro Hv.
  - destruct s; reflexivity.
  - destruct s; reflexivity.
  - reflexivity.
  - apply f32_valid_finite in Hv as [[Hm He]|[Hm He]]; cbn [f32_bits].
    + destruct (Z.pos m <? 2 ^ 23) eqn:Hc; [|apply Z.ltb_ge in Hc; lia].
      subst e. unfold f32_of_bits.
      set (u := (if s then 2 ^ 31 else 0) + Z.pos m).
      assert (Hq : u / 2 ^ 23 = if s then 256 else 0).
      { unfold u. destruct s.
        - symmetry. apply Z.div_unique with (r := Z.pos m); lia.
        - rewrite Z.div_small; lia. }
      assert (Hr : u mod 2 ^ 23 = Z.pos m).
      { unfold u. destruct s.
        - symmetry. apply Z.mod_unique with (q := 256); lia.
        - rewrite Z.mod_small; lia. }
      assert (Hs : (2 ^ 31 <=? u) = s).
      { unfold u. destruct s; [apply Z.leb_le|apply Z.leb_gt]; lia. }
      rewrite Hq, Hr, Hs. destruct s; reflexivity.
    + destruct (Z.pos m <? 2 ^ 23) eqn:Hc; [apply Z.ltb_lt in Hc; lia|].
      unfold f32_of_bits.
      set (u := (if s then 2 ^ 31 else 0) + ((e + 150) * 2 ^ 23 + (Z.pos m - 2 ^ 23))).
      assert (Hq : u / 2 ^ 23 = (if s then 256 else 0) + (e + 150)).
      { unfold u. symmetry.
        apply Z.div_unique with (r := Z.pos m - 2 ^ 23); destruct s; lia. }
      assert (Hr : u mod 2 ^ 23 = Z.pos m - 2 ^ 23).
      { unfold u. symmetry.
        apply Z.mod_unique with (q := (if s then 256 else 0) + (e + 150));
          destruct s; lia. }
      assert (He' : ((if s then 256 else 0) + (e + 150)) mod 256 = e + 150).
      { symmetry. apply Z.mod_unique with (q := if s then 1 else 0);
          destruct s; lia. }
      assert (Hs : (2 ^ 31 <=? u) = s).
      { unfold u. destruct s; [apply Z.leb_le|apply Z.leb_gt]; lia. }
      rewrite Hq, Hr, Hs, He'.
      destruct (e + 150 =? 0) eqn:E0; [apply Z.eqb_eq in E0; lia|].
      destruct (e + 150 =? 255) eqn:E1; [apply Z.eqb_eq in E1; lia|].
      replace (Z.pos m - 2 ^ 23 + 2 ^ 23) with (Z.pos m) by lia.
      f_equal. lia.
Qed.

(** Converting a binary32 value to binary32 changes nothing. *)
Lemma f32_of_f64_valid (x : f32) :
  f32_valid x = true -> f32_of_f64 x = x.
Proof.
  destruct x as [s|s| |s m e]; try reflexivity.
  unfold f32_valid, valid_binary, bounded, canonical_mantissa.
  intro H. apply andb_true_iff in H as [Hc He].
  apply Z.eqb_eq in Hc.
  cbn [f32_of_f64]. unfold binary_round.
  rewrite Hc. unfold shl_align. rewrite Z.sub_diag.
  unfold binary_round_aux, shr_fexp.
  cbn [Zdigits2 shr_record_of_loc]. rewrite Hc, Z.sub_diag.
  cbn [shr shr_m loc_of_shr_record round_nearest_even Zdigits2].
  rewrite Hc, Z.sub_diag. cbn [shr shr_m]. rewrite He. reflexivity.
Qed.

(** What [pack] stores for a float, when it stores one. *)
Lemma pack_float_value (x : f64) (y : f32) :
  pack_float x = Ok y -> y = f32_of_f64 x.
Proof.
  unfold pack_float.
  destruct x as [s|s| |s m e]; try (intro H; injection H as <-; reflexivity).
  destruct (f32_of_f64 (S754_finite s m e)); intro H;
    try discriminate H; injection H as <-; reflexivity.
Qed.

Lemma pack_float_valid (x : f32) :
  f32_valid x = true -> pack_float x = Ok x.
Proof.
  intro Hv. pose proof (f32_of_f64_valid x Hv) as E.
  unfold pack_float. destruct x as [s|s| |s m e]; try reflexivity.
  rewrite E. reflexivity.
Qed.

(** * Exact float32 arithmetic on small integers *)

Lemma pos_iter_nat {A : Type} (f : A -> A) (p : positive) (x : A) :
  Pos.iter f x p = Nat.iter (Pos.to_nat p) f x.
Proof. exact (Pos2Nat.inj_iter p f x). Qed.

Lemma iter_pos_nat {A : Type} (f : A -> A) (p : positive) (x : A) :
  iter_pos f p x = Nat.iter (Pos.to_nat p) f x.
Proof.
  rewrite <- pos_iter_nat. revert x.
  induction p as [p IH|p IH|]; intro x; cbn [iter_pos Pos.iter].
  - rewrite !IH. now rewrite <- !Pos.iter_swap.
  - now rewrite !IH.
  - reflexivity.
Qed.

Lemma shl_pos_val (m : positive) (n : nat) :
  Z.pos (shl_pos m n) = Z.pos m * 2 ^ Z.of_nat n.
Proof.
  induction n as [|n IH].
  - simpl. lia.
  - cbn [shl_pos]. rewrite Pos2Z.inj_xO, IH, Nat2Z.inj_succ, Z.pow_succ_r by lia.
    ring.
Qed.

Lemma shl_pos_digits (m : positive) (n : nat) :
  Z.pos (digits2_pos (shl_pos m n)) = Z.pos (digits2_pos m) + Z.of_nat n.
Proof.
  induction n as [|n IH].
  - simpl. lia.
  - cbn [shl_pos digits2_pos]. rewrite Pos2Z.inj_succ, IH. lia.
Qed.

Lemma shl_pos_add (m : positive) (a b : nat) :
  shl_pos (shl_pos m a) b = shl_pos m (a + b).
Proof.
  induction b as [|b IH].
  - now rewrite Nat.add_0_r.
  - rewrite Nat.add_succ_r. cbn [shl_pos]. now rewrite IH.
Qed.

Lemma pos_iter_xO (m p : positive) :
  Pos.iter xO m p = shl_pos m (Pos.to_nat p).
Proof.
  rewrite pos_iter_nat.
  induction (Pos.to_nat p) as [|n IH]; [reflexivity|].
  rewrite Nat.iter_succ, IH. reflexivity.
Qed.

Lemma shr_1_shl_pos (n : nat) (m : positive) :
  Nat.iter n shr_1 (Build_shr_record (Z.pos (shl_pos m n)) false false)
  = Build_shr_record (Z.pos m) false false.
Proof.
  revert m. induction n as [|n IH]; intro m; [reflexivity|].
  rewrite Nat.iter_succ_r. cbn [shl_pos shr_1 orb]. apply IH.
Qed.

Lemma digits_unique (m : positive) (d : Z) :
  2 ^ (d - 1) <= Z.pos m < 2 ^ d -> Z.pos (digits2_pos m) = d.
Proof.
  intros [Hlo Hhi].
  pose proof (digits2_pos_bounds m) as [Dlo Dhi].
  set (d' := Z.pos (digits2_pos m)) in *.
  assert (0 < d').
  { unfold d'. lia. }
  assert (0 < d).
  { destruct (Z_lt_le_dec 0 d) as [|Hd]; [assumption|].
    assert (2 ^ d <= 2 ^ 0) by (apply Z.pow_le_mono_r; lia).
    simpl in *. lia. }
  assert (d - 1 < d').
  { apply (Z.pow_lt_mono_r_iff 2); lia. }
  assert (d' - 1 < d).
  { apply (Z.pow_lt_mono_r_iff 2); lia. }
  lia.
Qed.

(** A mantissa of 24 digits followed by [j] zero bits is rounded to the
    mantissa itself. *)
Lemma shr_fexp_exact (m : positive) (j : nat) (e : Z) :
  Z.pos (digits2_pos m) = 24 -> -149 <= e + Z.of_nat j ->
  shr_fexp 24 128 (Z.pos (shl_pos m j)) e loc_Exact
  = (Build_shr_record (Z.pos m) false false, e + Z.of_nat j).
Proof.
  intros Hd He. unfold shr_fexp, fexp, emin. cbn [Zdigits2 shr_record_of_loc].
  rewrite shl_pos_digits, Hd.
  replace (Z.max (24 + Z.of_nat j + e - 24) (3 - 128 - 24) - e)
    with (Z.of_nat j) by lia.
  destruct j as [|j].
  - cbn [Z.of_nat shr]. now rewrite Z.add_0_r.
  - cbn [Z.of_nat shr]. rewrite iter_pos_nat, SuccNat2Pos.id_succ.
    now rewrite shr_1_shl_pos.
Qed.

Lemma binary_round_aux_exact (s : bool) (m : positive) (j : nat) (e : Z) :
  Z.pos (digits2_pos m) = 24 ->
  -149 <= e + Z.of_nat j <= 104 ->
  binary_round_aux 24 128 s (Z.pos (shl_pos m j)) e loc_Exact
  = S754_finite s m (e + Z.of_nat j).
Proof.
  intros Hd He. unfold binary_round_aux.
  rewrite shr_fexp_exact by (try assumption; lia).
  cbn [shr_m loc_of_shr_record round_nearest_even].
  pose proof (shr_fexp_exact m 0 (e + Z.of_nat j) Hd ltac:(simpl; lia)) as H0.
  cbn [shl_pos Z.of_nat] in H0. rewrite Z.add_0_r in H0.
  rewrite H0. cbn [shr_m].
  replace (e + Z.of_nat j <=? 128 - 24) with true
    by (symmetry; apply Z.leb_le; lia).
  reflexivity.
Qed.

Lemma digits_le_24 (p : positive) :
  Z.pos p < 2 ^ 24 -> Z.pos (digits2_pos p) <= 24.
Proof.
  intro Hp. pose proof (digits2_pos_bounds p) as [Dlo _].
  assert (Z.pos (digits2_pos p) - 1 < 24); [|lia].
  apply (Z.pow_lt_mono_r_iff 2); lia.
Qed.

Lemma binary_round_scaled (s : bool) (p : positive) (K : nat) :
  Z.pos p < 2 ^ 24 ->
  binary_round 24 128 s (shl_pos p K) (- Z.of_nat K) = norm s p.
Proof.
  intro Hp. pose proof (digits_le_24 p Hp) as Hd.
  set (d := Z.pos (digits2_pos p)) in *.
  assert (Hd1 : 1 <= d) by (unfold d; lia).
  assert (Hn : Z.pos (digits2_pos (shl_pos p (Z.to_nat (24 - d)))) = 24).
  { rewrite shl_pos_digits. fold d. lia. }
  unfold binary_round, fexp, emin. rewrite shl_pos_digits. fold d.
  replace (Z.max (d + Z.of_nat K + - Z.of_nat K - 24) (3 - 128 - 24))
    with (d - 24) by lia.
  unfold shl_align, norm. fold d.
  destruct (d - 24 - - Z.of_nat K) as [|t|k] eqn:Ht.
  - replace K with (Z.to_nat (24 - d) + 0)%nat by lia.
    rewrite <- shl_pos_add.
    rewrite binary_round_aux_exact by (try assumption; lia).
    f_equal. lia.
  - replace K with (Z.to_nat (24 - d) + Pos.to_nat t)%nat by lia.
    rewrite <- shl_pos_add.
    rewrite binary_round_aux_exact by (try assumption; lia).
    f_equal. lia.
  - rewrite pos_iter_xO, shl_pos_add.
    replace (K + Pos.to_nat k)%nat with (Z.to_nat (24 - d) + 0)%nat by lia.
    rewrite <- shl_pos_add.
    rewrite binary_round_aux_exact by (try assumption; lia).
    f_equal. lia.
Qed.

Lemma f32_of_Z_pos (p : positive) :
  Z.pos p < 2 ^ 24 -> f32_of_Z (Z.pos p) = norm false p.
Proof. intro Hp. exact (binary_round_scaled false p 0 Hp). Qed.

Lemma f32_of_Z_neg (p : positive) :
  Z.pos p < 2 ^ 24 -> f32_of_Z (Z.neg p) = norm true p.
Proof. intro Hp. exact (binary_round_scaled true p 0 Hp). Qed.

(** An integer given with [K] extra zero bits and the exponent [-K] is
    normalised to the float32 of the integer. *)
Lemma binary_normalize_scaled (r : Z) (K : nat) :
  Z.abs r < 2 ^ 24 ->
  binary_normalize 24 128 (r * 2 ^ Z.of_nat K) (- Z.of_nat K) false
  = f32_of_Z r.
Proof.
  intro Hr. destruct r as [|p|p].
  - reflexivity.
  - rewrite <- shl_pos_val. cbn [binary_normalize].
    rewrite binary_round_scaled by exact Hr.
    symmetry. now apply f32_of_Z_pos.
  - replace (Z.neg p * 2 ^ Z.of_nat K) with (Z.neg (shl_pos p K))
      by (rewrite <- Pos2Z.opp_pos, shl_pos_val; lia).
    cbn [binary_normalize].
    rewrite binary_round_scaled by exact Hr.
    symmetry. now apply f32_of_Z_neg.
Qed.

(** The float32 of a non-zero integer below 2^24: sign, a mantissa of 24
    digits, an exponent between -23 and 0, and the integer as its value. *)
Lemma f32_of_Z_finite (a : Z) :
  a <> 0 -> Z.abs a < 2 ^ 24 ->
  exists s m e,
    f32_of_Z a = S754_finite s m e /\
    Z.pos (digits2_pos m) = 24 /\ -23 <= e <= 0 /\
    cond_Zopp s (Z.pos m) = a * 2 ^ (- e).
Proof.
  intros Ha Hb. destruct a as [|p|p]; [contradiction| |].
  - pose proof (digits_le_24 p Hb) as Hd.
    exists false, (shl_pos p (Z.to_nat (24 - Z.pos (digits2_pos p)))),
      (Z.pos (digits2_pos p) - 24).
    split; [now apply f32_of_Z_pos|].
    split; [rewrite shl_pos_digits; lia|]. split; [lia|].
    cbn [cond_Zopp]. rewrite shl_pos_val. f_equal. f_equal. lia.
  - pose proof (digits_le_24 p Hb) as Hd.
    exists true, (shl_pos p (Z.to_nat (24 - Z.pos (digits2_pos p)))),
      (Z.pos (digits2_pos p) - 24).
    split; [now apply f32_of_Z_neg|].
    split; [rewrite shl_pos_digits; lia|]. split; [lia|].
    cbn [cond_Zopp]. rewrite shl_pos_val, <- Pos2Z.opp_pos.
    replace (Z.of_nat (Z.to_nat (24 - Z.pos (digits2_pos p))))
      with (- (Z.pos (digits2_pos p) - 24)) by lia.
    ring.
Qed.

Lemma f32_trunc_of_Z (z : Z) :
  Z.abs z < 2 ^ 24 -> f32_trunc (f32_of_Z z) = Some z.
Proof.
  intro Hz. destruct (Z.eq_dec z 0) as [->|Hnz]; [reflexivity|].
  destruct (f32_of_Z_finite z Hnz Hz) as (s & m & e & -> & _ & He & Hv).
  cbn [f32_trunc]. f_equal.
  assert (Ha : match e with
               | Z.neg p => Z.pos m / 2 ^ Z.pos p
               | _ => Z.pos m * 2 ^ e
               end = Z.abs z).
  { assert (Hm : Z.pos m = Z.abs z * 2 ^ (- e)).
    { destruct s; cbn [cond_Zopp] in Hv.
      - assert (z < 0) by (assert (0 < 2 ^ (- e)) by (apply Z.pow_pos_nonneg; lia); nia).
        rewrite Z.abs_neq by lia. lia.
      - assert (0 < z) by (assert (0 < 2 ^ (- e)) by (apply Z.pow_pos_nonneg; lia); nia).
        rewrite Z.abs_eq by lia. lia. }
    destruct e as [|q|q]; [|lia|].
    - rewrite Hm. simpl. lia.
    - rewrite Hm. change (- Z.neg q) with (Z.pos q).
      apply Z.div_mul. apply Z.pow_nonzero; lia. }
  rewrite Ha.
  assert (0 < 2 ^ (- e)) by (apply Z.pow_pos_nonneg; lia).
  destruct s; cbn [cond_Zopp] in Hv; nia.
Qed.

Lemma shl_align_val (mx : positive) (ex ez : Z) :
  ez <= ex ->
  Z.pos (fst (shl_align mx ex ez)) = Z.pos mx * 2 ^ (ex - ez).
Proof.
  intro Hle. unfold shl_align.
  destruct (ez - ex) as [|q|q] eqn:Hq; [|lia|].
  - replace (ex - ez) with 0 by lia. cbn [fst]. lia.
  - cbn [fst]. rewrite pos_iter_xO, shl_pos_val.
    f_equal. f_equal. lia.
Qed.

Lemma cond_Zopp_mul (s : bool) (x y : Z) :
  cond_Zopp s (x * y) = cond_Zopp s x * y.
Proof. destruct s; cbn [cond_Zopp]; ring. Qed.

(** The sum and the difference of two integers are exact when everything
    stays below 2^24. *)
Lemma f32_add_int (a b : Z) :
  Z.abs a < 2 ^ 24 -> Z.abs b < 2 ^ 24 -> Z.abs (a + b) < 2 ^ 24 ->
  f32_add (f32_of_Z a) (f32_of_Z b) = f32_of_Z (a + b).
Proof.
  intros Ha Hb Hab. unfold f32_add.
  destruct (Z.eq_dec a 0) as [->|Hna].
  - destruct (Z.eq_dec b 0) as [->|Hnb]; [reflexivity|].
    destruct (f32_of_Z_finite b Hnb Hb) as (s & m & e & E & _).
    cbn [Z.add]. rewrite E. reflexivity.
  - destruct (f32_of_Z_finite a Hna Ha) as (sa & ma & ea & Ea & _ & Hea & Va).
    destruct (Z.eq_dec b 0) as [->|Hnb].
    + rewrite Z.add_0_r, Ea. reflexivity.
    + destruct (f32_of_Z_finite b Hnb Hb) as (sb & mb & eb & Eb & _ & Heb & Vb).
      rewrite Ea, Eb. cbn [SFadd].
      set (ez := Z.min ea eb).
      rewrite !shl_align_val by (unfold ez; lia).
      rewrite !cond_Zopp_mul, Va, Vb.
      replace (a * 2 ^ (- ea) * 2 ^ (ea - ez) + b * 2 ^ (- eb) * 2 ^ (eb - ez))
        with ((a + b) * 2 ^ Z.of_nat (Z.to_nat (- ez))).
      * replace ez with (- Z.of_nat (Z.to_nat (- ez))) at 2 by (unfold ez; lia).
        now apply binary_normalize_scaled.
      * rewrite Z2Nat.id by (unfold ez; lia).
        rewrite <- !Z.mul_assoc, <- !Z.pow_add_r by (unfold ez; lia).
        replace (- ea + (ea - ez)) with (- ez) by lia.
        replace (- eb + (eb - ez)) with (- ez) by lia.
        ring.
Qed.

Lemma f32_of_Z_opp (b : Z) (s : bool) (m : positive) (e : Z) :
  Z.abs b < 2 ^ 24 -> f32_of_Z b = S754_finite s m e ->
  f32_of_Z (- b) = S754_finite (negb s) m e.
Proof.
  intros Hb E. destruct b as [|p|p].
  - discriminate E.
  - rewrite f32_of_Z_pos in E by exact Hb. injection E as <- <- <-.
    cbn [Z.opp]. now rewrite f32_of_Z_neg by exact Hb.
  - rewrite f32_of_Z_neg in E by exact Hb. injection E as <- <- <-.
    cbn [Z.opp]. now rewrite f32_of_Z_pos by exact Hb.
Qed.

Lemma f32_sub_int (a b : Z) :
  Z.abs a < 2 ^ 24 -> Z.abs b < 2 ^ 24 -> Z.abs (a - b) < 2 ^ 24 ->
  f32_sub (f32_of_Z a) (f32_of_Z b) = f32_of_Z (a - b).
Proof.
  intros Ha Hb Hab. unfold f32_sub.
  destruct (Z.eq_dec a 0) as [->|Hna].
  - destruct (Z.eq_dec b 0) as [->|Hnb]; [reflexivity|].
    destruct (f32_of_Z_finite b Hnb Hb) as (s & m & e & E & _).
    cbn [Z.sub Z.add]. rewrite (f32_of_Z_opp b s m e Hb E), E. reflexivity.
  - destruct (f32_of_Z_finite a Hna Ha) as (sa & ma & ea & Ea & _ & Hea & Va).
    destruct (Z.eq_dec b 0) as [->|Hnb].
    + rewrite Z.sub_0_r, Ea. reflexivity.
    + destruct (f32_of_Z_finite b Hnb Hb) as (sb & mb & eb & Eb & _ & Heb & Vb).
      rewrite Ea, Eb. cbn [SFsub].
      set (ez := Z.min ea eb).
      rewrite !shl_align_val by (unfold ez; lia).
      rewrite !cond_Zopp_mul, Va, Vb.
      replace (a * 2 ^ (- ea) * 2 ^ (ea - ez) - b * 2 ^ (- eb) * 2 ^ (eb - ez))
        with ((a - b) * 2 ^ Z.of_nat (Z.to_nat (- ez))).
      * replace ez with (- Z.of_nat (Z.to_nat (- ez))) at 2 by (unfold ez; lia).
        now apply binary_normalize_scaled.
      * rewrite Z2Nat.id by (unfold ez; lia).
        rewrite <- !Z.mul_assoc, <- !Z.pow_add_r by (unfold ez; lia).
        replace (- ea + (ea - ez)) with (- ez) by lia.
        replace (- eb + (eb - ez)) with (- ez) by lia.
        ring.
Qed.

Lemma mul_2_23 (m : positive) : (m * 8388608)%positive = shl_pos m 23.
Proof.
  apply Pos2Z.inj. rewrite shl_pos_val, Pos2Z.inj_mul. reflexivity.
Qed.

(** Multiplying and dividing by 1.0 changes nothing. *)
Lemma f32_mul_one_r (a : Z) :
  Z.abs a < 2 ^ 24 -> f32_mul (f32_of_Z a) (f32_of_Z 1) = f32_of_Z a.
Proof.
  intro Ha. unfold f32_mul.
  destruct (Z.eq_dec a 0) as [->|Hna]; [reflexivity|].
  destruct (f32_of_Z_finite a Hna Ha) as (s & m & e & E & Hd & He & _).
  rewrite E. change (f32_of_Z 1) with (S754_finite false 8388608 (-23)).
  cbn [SFmul]. rewrite mul_2_23.
  rewrite binary_round_aux_exact by (try assumption; lia).
  rewrite xorb_false_r. f_equal. lia.
Qed.

Lemma f32_mul_one_l (a : Z) :
  Z.abs a < 2 ^ 24 -> f32_mul (f32_of_Z 1) (f32_of_Z a) = f32_of_Z a.
Proof.
  intro Ha. unfold f32_mul.
  destruct (Z.eq_dec a 0) as [->|Hna]; [reflexivity|].
  destruct (f32_of_Z_finite a Hna Ha) as (s & m & e & E & Hd & He & _).
  rewrite E. change (f32_of_Z 1) with (S754_finite false 8388608 (-23)).
  cbn [SFmul]. rewrite Pos.mul_comm, mul_2_23.
  rewrite binary_round_aux_exact by (try assumption; lia).
  cbn [xorb]. f_equal. lia.
Qed.

Lemma f32_div_one (a : Z) :
  Z.abs a < 2 ^ 24 -> f32_div (f32_of_Z a) (f32_of_Z 1) = f32_of_Z a.
Proof.
  intro Ha. unfold f32_div.
  destruct (Z.eq_dec a 0) as [->|Hna]; [reflexivity|].
  destruct (f32_of_Z_finite a Hna Ha) as (s & m & e & E & Hd & He & _).
  rewrite E. change (f32_of_Z 1) with (S754_finite false 8388608 (-23)).
  cbn [SFdiv]. unfold SFdiv_core_binary.
  cbn [Zdigits2]. rewrite Hd.
  change (Z.pos (digits2_pos 8388608)) with 24.
  unfold fexp, emin.
  replace (Z.min (Z.max (24 + e - (24 + -23) - 24) (3 - 128 - 24)) (e - -23))
    with (e - 1) by lia.
  replace (e - -23 - (e - 1)) with 24 by lia.
  assert (Hq : Z.div_eucl (Z.shiftl (Z.pos m) 24) 8388608 = (Z.pos (xO m), 0)).
  { rewrite Z.shiftl_mul_pow2 by lia.
    pose proof (Z.div_eucl_eq (Z.pos m * 2 ^ 24) 8388608 ltac:(lia)) as Hdm.
    pose proof (Z.mod_pos_bound (Z.pos m * 2 ^ 24) 8388608 ltac:(lia)) as Hb.
    unfold Z.modulo in Hb.
    destruct (Z.div_eucl (Z.pos m * 2 ^ 24) 8388608) as [q r].
    cbn [fst snd] in *.
    change (2 ^ 24) with (2 * 8388608) in Hdm.
    assert (q = 2 * Z.pos m) by nia.
    f_equal; lia. }
  rewrite Hq.
  change (new_location 8388608 0) with loc_Exact.
  change (Z.pos (xO m)) with (Z.pos (shl_pos m 1)).
  rewrite binary_round_aux_exact by (try assumption; lia).
  rewrite xorb_false_r. f_equal. lia.
Qed.

Lemma int16_range (z : Z) :
  in_int_range 2 z = true <-> -32768 <= z <= 32767.
Proof.
  unfold in_int_range. change (2 ^ (8 * Z.of_nat 2 - 1)) with 32768.
  rewrite andb_true_iff, Z.leb_le, Z.ltb_lt. lia.
Qed.

Lemma int32_range (z : Z) :
  in_int_range 4 z = true <-> -2147483648 <= z <= 2147483647.
Proof.
  unfold in_int_range. change (2 ^ (8 * Z.of_nat 4 - 1)) with 2147483648.
  rewrite andb_true_iff, Z.leb_le, Z.ltb_lt. lia.
Qed.

Lemma wrap16_small (z : Z) : in_int_range 2 z = true -> wrap16 z = z.
Proof.
  intro H. apply int16_range in H.
  unfold wrap16. rewrite Z.mod_small by lia. lia.
Qed.

Lemma in_int_range_2_4 (z : Z) :
  in_int_range 2 z = true -> in_int_range 4 z = true.
Proof.
  intro H. apply int16_range in H. apply int32_range. lia.
Qed.

Lemma astype_int16_range (x : f32) : in_int_range 2 (astype_int16 x) = true.
Proof.
  assert (H0 : in_int_range 2 0 = true) by reflexivity.
  unfold astype_int16.
  destruct (f32_trunc x) as [z|]; [|exact H0].
  destruct (in_int_range 4 z); [|exact H0].
  apply int16_range. unfold wrap16.
  pose proof (Z.mod_pos_bound (z + 32768) 65536 ltac:(lia)) as Hm. lia.
Qed.

(** Every int16 is a float32, and converts back to itself. *)
Lemma astype_float32_exact (z : Z) :
  in_int_range 2 z = true ->
  f32_trunc (f32_of_Z z) = Some z /\ astype_int16 (f32_of_Z z) = z.
Proof.
  intro Hz.
  assert (Hb : Z.abs z < 2 ^ 24) by (apply int16_range in Hz; lia).
  pose proof (f32_trunc_of_Z z Hb) as Ht.
  split; [exact Ht|].
  unfold astype_int16. rewrite Ht, (in_int_range_2_4 _ Hz).
  apply wrap16_small, Hz.
Qed.

(** * pack and unpack *)

Lemma bind_ok {A B : Type} (r : result A) (k : A -> result B) (b : B) :
  bind r k = Ok b -> exists a, r = Ok a /\ k a = Ok b.
Proof.
  destruct r as [a|x]; simpl; intro H; [eauto|discriminate].
Qed.

Section Pack.

Variable o : byte_order.

Lemma pack_field_length (v : field) (b : list byte) :
  pack_field o v = Ok b -> length b = code_size (field_code v).
Proof.
  destruct v as [z|z|x]; cbn [pack_field field_code code_size].
  - destruct (in_int_range 2 z); [|discriminate].
    intro H; injection H as <-. apply int_bytes_length.
  - destruct (in_int_range 4 z); [|discriminate].
    intro H; injection H as <-. apply int_bytes_length.
  - intro H. apply bind_ok in H as (y & _ & H).
    injection H as <-. apply int_bytes_length.
Qed.

Lemma pack_length (vs : list field) :
  forall bs, pack o vs = Ok bs -> length bs = calcsize (map field_code vs).
Proof.
  induction vs as [|v vs IH]; intros bs H.
  - injection H as <-. reflexivity.
  - cbn [pack] in H.
    apply bind_ok in H as (b & Hb & H).
    apply bind_ok in H as (bs' & Hbs & H).
    injection H as <-.
    rewrite length_app, (pack_field_length _ _ Hb), (IH _ Hbs).
    reflexivity.
Qed.

Lemma unpack_pack_field (v : field) (b : list byte) :
  field_valid v = true -> pack_field o v = Ok b ->
  unpack_field o (field_code v) b = v.
Proof.
  destruct v as [z|z|x];
    cbn [pack_field field_code field_valid unpack_field]; intros Hv H.
  - destruct (in_int_range 2 z) eqn:Hr; [|discriminate].
    injection H as <-. f_equal. apply bytes_int_int_bytes; [lia|exact Hr].
  - destruct (in_int_range 4 z) eqn:Hr; [|discriminate].
    injection H as <-. f_equal. apply bytes_int_int_bytes; [lia|exact Hr].
  - rewrite (pack_float_valid x Hv) in H. cbn [bind] in H.
    injection H as <-. f_equal.
    rewrite bytes_uint_int_bytes.
    rewrite Z.mod_small by (apply f32_bits_range; exact Hv).
    apply f32_of_bits_bits; exact Hv.
Qed.

Lemma unpack_fields_pack (vs : list field) :
  forall bs, forallb field_valid vs = true -> pack o vs = Ok bs ->
  unpack_fields o (map field_code vs) bs = vs.
Proof.
  induction vs as [|v vs IH]; intros bs Hv H; [reflexivity|].
  cbn [pack] in H.
  apply bind_ok in H as (b & Hb & H).
  apply bind_ok in H as (bs' & Hbs & H).
  injection H as <-.
  cbn [forallb] in Hv. apply andb_true_iff in Hv as [Hv1 Hv2].
  cbn [map unpack_fields].
  pose proof (pack_field_length _ _ Hb) as Hl.
  rewrite <- Hl, firstn_app, Nat.sub_diag, firstn_all, firstn_O, app_nil_r.
  rewrite skipn_app, Nat.sub_diag, skipn_all, skipn_O. cbn [app].
  rewrite (unpack_pack_field _ _ Hv1 Hb), (IH _ Hv2 Hbs). reflexivity.
Qed.

Lemma unpack_pack (vs : list field) (bs : list byte) :
  forallb field_valid vs = true -> pack o vs = Ok bs ->
  unpack o (map field_code vs) bs = Ok vs.
Proof.
  intros Hv H. unfold unpack.
  rewrite (pack_length _ _ H), Nat.eqb_refl.
  now rewrite (unpack_fields_pack _ _ Hv H).
Qed.

End Pack.

(** * The header *)

Lemma header_fields_fmt (h : header) :
  map field_code (header_fields h) = header_fmt.
Proof. reflexivity. Qed.

Lemma header_of_header_fields (h : header) :
  header_of_fields (header_fields h) = Ok h.
Proof.
  destruct h as [tag nz ny ntw nt a b c d g z [[s0 s1] s2] [[o0 o1] o2] len].
  reflexivity.
Qed.

Lemma pack_header_length (e : byte_order) (h : header) (bs : list byte) :
  pack_header e h = Ok bs -> length bs = 70%nat.
Proof.
  intro H. apply pack_length in H. rewrite H, header_fields_fmt. reflexivity.
Qed.

Lemma unpack_pack_header (e : byte_order) (h : header) (bs : list byte) :
  header_valid h = true -> pack_header e h = Ok bs ->
  unpack_header e bs = Ok h.
Proof.
  intros Hv H. unfold unpack_header.
  rewrite <- (header_fields_fmt h), (unpack_pack _ _ _ Hv H).
  apply header_of_header_fields.
Qed.


Lemma unpack_header_short (e : byte_order) (bs : list byte) :
  length bs <> 70%nat -> unpack_header e bs = Err struct_error.
Proof.
  intro Hl. unfold unpack_header, unpack.
  change (calcsize header_fmt) with 70%nat.
  apply Nat.eqb_neq in Hl. rewrite Hl. reflexivity.
Qed.

Lemma fl_read_app (n : nat) (hd rest : list byte) :
  length hd = n -> fl_read (Z.of_nat n) (hd ++ rest) = (hd, rest).
Proof.
  intro Hl. unfold fl_read.
  destruct (Z.of_nat n <? 0) eqn:Hc; [apply Z.ltb_lt in Hc; lia|].
  rewrite Nat2Z.id, <- Hl.
  rewrite firstn_app, Nat.sub_diag, firstn_all, firstn_O, app_nil_r.
  rewrite skipn_app, Nat.sub_diag, skipn_all, skipn_O. reflexivity.
Qed.

(** [read] on a file that starts with 70 bytes [hd]: the header is unpacked
    from [hd] and the samples are taken from what comes next. *)
Lemma read_app (e native : byte_order) (hd rest : list byte) :
  length hd = 70%nat ->
  read e native (hd ++ rest) =
  bind (unpack_header e hd) (fun h => read_data native h rest).
Proof.
  intro Hl. unfold read.
  change 70 with (Z.of_nat 70). rewrite (fl_read_app _ _ _ Hl). reflexivity.
Qed.

(** * Array layout *)

Local Open Scope nat_scope.

Lemma flat_map_seq_length {B : Type} (f : nat -> list B) (m : nat) :
  (forall x, length (f x) = m) ->
  forall n s, length (flat_map f (seq s n)) = n * m.
Proof.
  intros Hf n. induction n as [|n IH]; intro s; simpl; [reflexivity|].
  now rewrite length_app, Hf, IH.
Qed.

(** In a concatenation of [n] chunks of [m] elements, element [r] of chunk
    [q] is at position [r + m * q]. *)
Lemma nth_flat_map_seq {B : Type} (f : nat -> list B) (m : nat) (d : B) :
  (forall x, length (f x) = m) ->
  forall n s q r, q < n -> r < m ->
  nth (r + m * q) (flat_map f (seq s n)) d = nth r (f (s + q)) d.
Proof.
  intros Hf n. induction n as [|n IH]; intros s q r Hq Hr; [lia|].
  simpl. destruct q as [|q].
  - rewrite Nat.mul_0_r, !Nat.add_0_r.
    rewrite app_nth1 by (rewrite Hf; exact Hr). reflexivity.
  - rewrite app_nth2 by (rewrite Hf; nia).
    rewrite Hf.
    replace (r + m * S q - m) with (r + m * q) by nia.
    rewrite IH by lia. f_equal. f_equal. lia.
Qed.

Lemma nth_map_seq {B : Type} (g : nat -> B) (d : B) (n s i : nat) :
  i < n -> nth i (map g (seq s n)) d = g (s + i).
Proof.
  intro Hi.
  rewrite (nth_indep _ d (g 0)) by (rewrite length_map, length_seq; exact Hi).
  rewrite map_nth, seq_nth by exact Hi. reflexivity.
Qed.

Lemma items_F_length {A : Type} (a : ndarray A) :
  length (items_F a) = dim3 a * (dim2 a * (dim1 a * 3)).
Proof.
  unfold items_F.
  apply flat_map_seq_length; intro k.
  apply flat_map_seq_length; intro j.
  apply flat_map_seq_length; intro i.
  now rewrite length_map, length_seq.
Qed.

(** Fortran order: the element at index [(c, i, j, k)] is at position
    [c + 3 * (i + dim1 * (j + dim2 * k))]. *)
Lemma nth_items_F {A : Type} (a : ndarray A) (d : A) (c i j k : nat) :
  c < 3 -> i < dim1 a -> j < dim2 a -> k < dim3 a ->
  nth (c + 3 * (i + dim1 a * (j + dim2 a * k))) (items_F a) d = item a c i j k.
Proof.
  intros Hc Hi Hj Hk. unfold items_F.
  set (f1 := fun k j i => map (fun c => item a c i j k) (seq 0 3)).
  set (f2 := fun k j => flat_map (f1 k j) (seq 0 (dim1 a))).
  set (f3 := fun k => flat_map (f2 k) (seq 0 (dim2 a))).
  assert (L1 : forall k j i, length (f1 k j i) = 3).
  { intros. unfold f1. now rewrite length_map, length_seq. }
  assert (L2 : forall k j, length (f2 k j) = dim1 a * 3).
  { intros. unfold f2. apply flat_map_seq_length. apply L1. }
  assert (L3 : forall k, length (f3 k) = dim2 a * (dim1 a * 3)).
  { intros. unfold f3. apply flat_map_seq_length. apply L2. }
  change (nth (c + 3 * (i + dim1 a * (j + dim2 a * k)))
            (flat_map f3 (seq 0 (dim3 a))) d = item a c i j k).
  replace (c + 3 * (i + dim1 a * (j + dim2 a * k)))
    with ((c + 3 * i + dim1 a * 3 * j) + dim2 a * (dim1 a * 3) * k) by nia.
  rewrite (nth_flat_map_seq f3 _ d L3) by (try assumption; nia).
  unfold f3. cbn [Nat.add].
  rewrite (nth_flat_map_seq (f2 k) _ d (L2 k)) by (try assumption; nia).
  unfold f2. cbn [Nat.add].
  rewrite (nth_flat_map_seq (f1 k j) _ d (L1 k j)) by (try assumption; lia).
  unfold f1. cbn [Nat.add].
  now rewrite nth_map_seq by exact Hc.
Qed.

Lemma int_bytes_2 (o : byte_order) (z : Z) :
  exists a b, int_bytes o 2 z = [a; b].
Proof.
  destruct o; simpl; eauto.
Qed.

Lemma chunk2_flat_map (o : byte_order) (l : list Z) :
  chunk2 (flat_map (int_bytes o 2) l) = map (int_bytes o 2) l.
Proof.
  induction l as [|z l IH]; [reflexivity|].
  cbn [flat_map map].
  destruct (int_bytes_2 o z) as (a & b & ->).
  cbn [app chunk2]. now rewrite IH.
Qed.

Lemma flat_map_int_bytes_length (o : byte_order) (l : list Z) :
  length (flat_map (int_bytes o 2) l) = 2 * length l.
Proof.
  induction l as [|z l IH]; [reflexivity|].
  cbn [flat_map]. rewrite length_app, int_bytes_length, IH. simpl. lia.
Qed.

Lemma samples_of_bytes (o : byte_order) (l : list Z) :
  int16_list l ->
  map (bytes_int o) (chunk2 (flat_map (int_bytes o 2) l)) = l.
Proof.
  intro Hl. rewrite chunk2_flat_map, map_map.
  induction Hl as [|z l Hz _ IH]; [reflexivity|].
  cbn [map]. rewrite IH, bytes_int_int_bytes by (try exact Hz; lia).
  reflexivity.
Qed.

Lemma fromstring_tostring (o : byte_order) (l : list Z) :
  int16_list l ->
  fromstring_int16 o (flat_map (int_bytes o 2) l) = Ok l.
Proof.
  intro Hl. unfold fromstring_int16.
  rewrite flat_map_int_bytes_length.
  replace (Nat.even (2 * length l)) with true
    by (symmetry; apply Nat.even_spec; now exists (length l)).
  now rewrite samples_of_bytes.
Qed.

Lemma in_items_F {A : Type} (a : ndarray A) (x : A) :
  In x (items_F a) ->
  exists c i j k,
    c < 3 /\ i < dim1 a /\ j < dim2 a /\ k < dim3 a /\ x = item a c i j k.
Proof.
  unfold items_F. intro H.
  apply in_flat_map in H as (k & Hk & H).
  apply in_flat_map in H as (j & Hj & H).
  apply in_flat_map in H as (i & Hi & H).
  apply in_map_iff in H as (c & Hx & Hc).
  apply in_seq in Hk, Hj, Hi, Hc.
  exists c, i, j, k. repeat split; try lia. now symmetry.
Qed.

Lemma int16_items_F (a : ndarray Z) :
  int16_array a -> int16_list (items_F a).
Proof.
  intro Ha. apply Forall_forall. intros x Hx.
  apply in_items_F in Hx as (c & i & j & k & Hc & Hi & Hj & Hk & ->).
  now apply Ha.
Qed.

Lemma int16_reordered (out : ndarray Z) :
  int16_array out -> int16_array (rollaxis_2_1 (rev_axis1 out)).
Proof.
  intros Ha c j i k Hc Hj Hi Hk. cbn in *. apply Ha; lia.
Qed.

Lemma data_block_length (native : byte_order) (out : ndarray Z) :
  length (data_block native out) = 2 * (3 * dim2 out * dim1 out * dim3 out).
Proof.
  unfold data_block, tostring_F.
  rewrite flat_map_int_bytes_length, items_F_length. cbn. lia.
Qed.

Local Open Scope Z_scope.

Lemma reshape_dims_nonneg (len d1 d2 d3 : Z) :
  0 <= d1 -> 0 <= d2 -> 0 <= d3 ->
  reshape_dims len [3; d1; d2; d3] =
  if len =? 3 * d1 * d2 * d3 then Ok [3; d1; d2; d3] else Err ValueError.
Proof.
  intros H1 H2 H3. unfold reshape_dims. cbn [filter].
  change (0 <=? 3) with true. change (3 <? 0) with false.
  apply Z.leb_le in H1 as L1. apply Z.leb_le in H2 as L2.
  apply Z.leb_le in H3 as L3. rewrite L1, L2, L3.
  replace (d1 <? 0) with false by (symmetry; apply Z.ltb_ge; lia).
  replace (d2 <? 0) with false by (symmetry; apply Z.ltb_ge; lia).
  replace (d3 <? 0) with false by (symmetry; apply Z.ltb_ge; lia).
  cbn [length fold_right].
  replace (3 * (d1 * (d2 * (d3 * 1)))) with (3 * d1 * d2 * d3) by ring.
  reflexivity.
Qed.

Lemma reshape_F_nonneg {A : Type} (d : A) (l : list A) (d1 d2 d3 : Z) :
  0 <= d1 -> 0 <= d2 -> 0 <= d3 ->
  reshape_F d l d1 d2 d3 =
  if Z.of_nat (length l) =? 3 * d1 * d2 * d3
  then Ok (view_F d l (Z.to_nat d1) (Z.to_nat d2) (Z.to_nat d3))
  else Err ValueError.
Proof.
  intros H1 H2 H3. unfold reshape_F.
  rewrite reshape_dims_nonneg by assumption.
  destruct (Z.of_nat (length l) =? 3 * d1 * d2 * d3); reflexivity.
Qed.

(** [read_block] on a block written by [data_block] (whatever follows it):
    the array it returns, before the index view is taken apart. *)
Lemma read_block_data_block (native : byte_order) (out : ndarray Z)
    (rest : list byte) :
  int16_array out ->
  read_block native (Z.of_nat (dim2 out)) (Z.of_nat (dim1 out))
    (Z.of_nat (dim3 out)) (data_block native out ++ rest) =
  Ok (rev_axis1 (rollaxis_2_1
        (view_F (S754_zero false)
           (map f32_of_Z (items_F (rollaxis_2_1 (rev_axis1 out))))
           (dim2 out) (dim1 out) (dim3 out)))).
Proof.
  intro Ha. unfold read_block.
  pose proof (data_block_length native out) as Hl.
  replace (2 * (3 * Z.of_nat (dim2 out) * Z.of_nat (dim1 out) * Z.of_nat (dim3 out)))
    with (Z.of_nat (length (data_block native out))) by (rewrite Hl; lia).
  rewrite fl_read_app by reflexivity.
  unfold data_block, tostring_F.
  rewrite fromstring_tostring by (apply int16_items_F, int16_reordered, Ha).
  cbn [bind].
  rewrite reshape_F_nonneg by lia.
  rewrite length_map, items_F_length. cbn [rollaxis_2_1 rev_axis1 dim1 dim2 dim3].
  replace (Z.of_nat (dim3 out * (dim1 out * (dim2 out * 3)))
           =? 3 * Z.of_nat (dim2 out) * Z.of_nat (dim1 out) * Z.of_nat (dim3 out))
    with true by (symmetry; apply Z.eqb_eq; lia).
  rewrite !Nat2Z.id. reflexivity.
Qed.

Lemma F_index_bound (c i j k d1 d2 d3 : nat) :
  (c < 3 -> i < d1 -> j < d2 -> k < d3 ->
   c + 3 * (i + d1 * (j + d2 * k)) < d3 * (d2 * (d1 * 3)))%nat.
Proof.
  intros Hc Hi Hj Hk.
  assert (i + d1 * (j + d2 * k) < d1 * d2 * d3)%nat; [|nia].
  assert (j + d2 * k < d2 * d3)%nat by nia.
  nia.
Qed.

(** * The data block *)

(** In the data block the sample with on-disk indices (component [c],
    y index [y], z index [z], time [t]) is sample number
    [c + 3 * (y + n_y * (z + n_z * t))], component fastest and time slowest,
    and it is the in-memory sample at z index [n_z - 1 - z].  Reading a block
    from its first byte with the extents of the array undoes the reshape, the
    axis swap and the reversal. *)
Lemma data_block_layout
    (native : byte_order) (out : ndarray Z) (rest : list byte) :
  int16_array out ->
  (forall c y z t : nat,
     (c < 3)%nat -> (y < dim2 out)%nat -> (z < dim1 out)%nat ->
     (t < dim3 out)%nat ->
     nth (c + 3 * (y + dim2 out * (z + dim1 out * t)))%nat
       (map (bytes_int native) (chunk2 (data_block native out))) 0
     = item out c (dim1 out - 1 - z)%nat y t) /\
  exists a : ndarray f32,
    read_block native (Z.of_nat (dim2 out)) (Z.of_nat (dim1 out))
      (Z.of_nat (dim3 out)) (data_block native out ++ rest) = Ok a /\
    dim1 a = dim1 out /\ dim2 a = dim2 out /\ dim3 a = dim3 out /\
    forall c z y t : nat,
      (c < 3)%nat -> (z < dim1 out)%nat -> (y < dim2 out)%nat ->
      (t < dim3 out)%nat ->
      item a c z y t = f32_of_Z (item out c z y t) /\
      astype_int16 (item a c z y t) = item out c z y t.
Proof.
  intro Ha. split.
  - intros c y z t Hc Hy Hz Ht.
    unfold data_block, tostring_F.
    rewrite samples_of_bytes by (apply int16_items_F, int16_reordered, Ha).
    pose proof (nth_items_F (rollaxis_2_1 (rev_axis1 out)) 0 c y z t
                  Hc Hy Hz Ht) as N.
    cbn [item rev_axis1 rollaxis_2_1 dim1 dim2 dim3] in N. exact N.
  - eexists. split; [apply read_block_data_block; exact Ha|].
    split; [reflexivity|]. split; [reflexivity|]. split; [reflexivity|].
    intros c z y t Hc Hz Hy Ht.
    assert (Hzz : (dim1 out - 1 - z < dim1 out)%nat) by lia.
    assert (E : item (rev_axis1 (rollaxis_2_1
                  (view_F (S754_zero false)
                     (map f32_of_Z (items_F (rollaxis_2_1 (rev_axis1 out))))
                     (dim2 out) (dim1 out) (dim3 out)))) c z y t
                = f32_of_Z (item out c z y t)).
    { cbn [item rev_axis1 rollaxis_2_1 view_F dim1 dim2 dim3].
      rewrite (nth_indep _ _ (f32_of_Z 0))
        by (rewrite length_map, items_F_length; now apply F_index_bound).
      rewrite map_nth.
      pose proof (nth_items_F (rollaxis_2_1 (rev_axis1 out)) 0 c y
                    (dim1 out - 1 - z)%nat t Hc Hy Hzz Ht) as N.
      cbn [item rev_axis1 rollaxis_2_1 dim1 dim2 dim3] in N. rewrite N.
      replace (dim1 out - 1 - (dim1 out - 1 - z))%nat with z by lia.
      reflexivity. }
    split; [exact E|].
    transitivity (astype_int16 (f32_of_Z (item out c z y t)));
      [exact (f_equal astype_int16 E)|].
    apply astype_float32_exact. now apply Ha.
Qed.


(** * What read does after the header *)

Lemma chunk2_length (l : list byte) :
  length (chunk2 l) = Nat.div2 (length l).
Proof.
  assert (H : forall l : list byte,
             length (chunk2 l) = Nat.div2 (length l) /\
             forall a, length (chunk2 (a :: l)) = Nat.div2 (S (length l))).
  { clear l. induction l as [|b l [IH1 IH2]].
    - split; [reflexivity|]. intro a. reflexivity.
    - split; [apply IH2|].
      intro a. cbn [chunk2 length Nat.div2]. now rewrite IH1. }
  apply H.
Qed.

Lemma even_double_div2 (n : nat) :
  Nat.even n = true -> n = (2 * Nat.div2 n)%nat.
Proof.
  intro He. pose proof (Nat.div2_odd n) as Hd.
  rewrite <- Nat.negb_even, He in Hd. simpl in Hd. lia.
Qed.

(** With non-negative extents in the header, [read_block] needs
    [2 * 3 * n_y * n_z * n_t] bytes at the file position.  When they are there
    it takes exactly these, two per sample; when they are not, the int16
    conversion or the reshape raises a [ValueError]. *)
Lemma read_block_nonneg (native : byte_order) (ny nz nt : Z) (fl : list byte) :
  0 <= ny -> 0 <= nz -> 0 <= nt ->
  read_block native ny nz nt fl =
  if 2 * (3 * ny * nz * nt) <=? Z.of_nat (length fl)
  then Ok (rev_axis1 (rollaxis_2_1
             (view_F (S754_zero false)
                (map f32_of_Z
                   (map (bytes_int native)
                      (chunk2 (firstn (Z.to_nat (2 * (3 * ny * nz * nt))) fl))))
                (Z.to_nat ny) (Z.to_nat nz) (Z.to_nat nt))))
  else Err ValueError.
Proof.
  intros Hy Hz Ht. unfold read_block, fl_read.
  assert (Hn : 0 <= 3 * ny * nz * nt).
  { apply Z.mul_nonneg_nonneg; [|exact Ht].
    apply Z.mul_nonneg_nonneg; [|exact Hz]. lia. }
  set (nbt := 3 * ny * nz * nt) in *.
  replace (2 * nbt <? 0) with false by (symmetry; apply Z.ltb_ge; lia).
  set (raw := firstn (Z.to_nat (2 * nbt)) fl).
  assert (Hraw : length raw = Nat.min (Z.to_nat (2 * nbt)) (length fl))
    by apply length_firstn.
  unfold fromstring_int16.
  destruct (2 * nbt <=? Z.of_nat (length fl)) eqn:Hc.
  - apply Z.leb_le in Hc.
    assert (Hlen : length raw = (2 * Z.to_nat nbt)%nat) by lia.
    rewrite Hlen.
    replace (Nat.even (2 * Z.to_nat nbt)) with true
      by (symmetry; apply Nat.even_spec; now exists (Z.to_nat nbt)).
    cbn [bind]. rewrite reshape_F_nonneg by assumption.
    rewrite !length_map, chunk2_length, Hlen.
    replace (Nat.div2 (2 * Z.to_nat nbt)) with (Z.to_nat nbt)
      by (symmetry; apply Nat.div2_double).
    rewrite Z2Nat.id by exact Hn. fold nbt. rewrite Z.eqb_refl.
    reflexivity.
  - apply Z.leb_gt in Hc.
    assert (Hlen : length raw = length fl) by lia.
    destruct (Nat.even (length raw)) eqn:He; [|reflexivity].
    cbn [bind]. rewrite reshape_F_nonneg by assumption.
    rewrite !length_map, chunk2_length.
    apply even_double_div2 in He. fold nbt.
    replace (Z.of_nat (Nat.div2 (length raw)) =? nbt) with false
      by (symmetry; apply Z.eqb_neq; lia).
    reflexivity.
Qed.

Lemma dequantize_item (scl off : f32 * f32 * f32) (a : ndarray f32)
    (c i j k : nat) :
  item (dequantize scl off a) c i j k =
  dequantize_sample (sel3 scl c) (sel3 off c) (item a c i j k).
Proof. reflexivity. Qed.

Lemma read_data_set_junk (native : byte_order) (tag : Z) (h : header)
    (fl : list byte) :
  read_data native (set_junk tag h) fl = read_data native h fl.
Proof. reflexivity. Qed.

(** * Malformed headers *)

(** C4, as the code has it.  A file of fewer than 70 bytes makes [unpack]
    raise [struct.error] and nothing is returned.  The format tag is unpacked
    into [junk] and never looked at: with 70 bytes or more, the outcome is
    that of the same header under any other tag. *)
Theorem read_checks_header_length_only
    (e native : byte_order) (file : list byte) (tag : Z) :
  read e native file =
  if (length file <? 70)%nat then Err struct_error
  else bind (unpack_header e (firstn 70 file))
         (fun h => read_data native (set_junk tag h) (skipn 70 file)).
Proof.
  unfold read, fl_read. change (70 <? 0) with false.
  change (Z.to_nat 70) with 70%nat.
  destruct (length file <? 70)%nat eqn:Hc.
  - apply Nat.ltb_lt in Hc.
    rewrite unpack_header_short; [reflexivity|].
    rewrite length_firstn. lia.
  - destruct (unpack_header e (firstn 70 file)) as [h|x]; reflexivity.
Qed.

(** C4, the counterexample: a file whose tag is 8 and not 7 is decoded
    without complaint. *)
Lemma wrong_tag_is_accepted :
  unpack_header LittleEndian (firstn 70 wrong_tag_file)
    = Ok (one_point_header 8 0) /\
  junk (one_point_header 8 0) <> 7 /\
  returns (read LittleEndian LittleEndian wrong_tag_file)
    (fun a => to_lists a =
              (1%nat, 1%nat, 1%nat,
               ([f32_of_Z 1], [f32_of_Z 2], [f32_of_Z 3]))).
Proof.
  split; [vm_compute; reflexivity|].
  split; [vm_compute; discriminate|].
  vm_compute. reflexivity.
Qed.

(** * Where the samples are *)

(** [read] makes no use of the description length [strlen]: with another
    value in its place the outcome is the same. *)
Lemma read_data_ignores_strlen (native : byte_order) (h : header) (len : Z)
    (fl : list byte) :
  read_data native
    (mk_header (junk h) (n_z h) (n_y h) (n_tower h) (n_t h)
       (dz h) (dy h) (dt h) (uhub h) (zhub h) (z0 h)
       (u_scl h) (u_off h) len) fl
  = read_data native h fl.
Proof. reflexivity. Qed.

(** The array [out] of [write] holds int16 codes and has the shape of the
    field. *)
Lemma quantize_all_int16 (ts : ndarray f32) (scl off : f32 * f32 * f32)
    (out : ndarray Z) :
  quantize_all ts = Ok (scl, off, out) ->
  int16_array out /\
  dim1 out = dim1 ts /\ dim2 out = dim2 ts /\ dim3 out = dim3 ts.
Proof.
  unfold quantize_all. intro Hq.
  apply bind_ok in Hq as (p0 & _ & Hq).
  apply bind_ok in Hq as (p1 & _ & Hq).
  apply bind_ok in Hq as (p2 & _ & Hq).
  injection Hq as _ _ <-.
  split; [|repeat split].
  intros c i j k _ _ _ _. apply astype_int16_range.
Qed.

(** The file [write] produces: the 70 bytes of the packed header with the
    tag 7, the extents of the grid, the number of time steps of the field and
    the length of the description; the description; then the data block of
    [2 * 3 * n_y * n_z * n_t] bytes. *)
Lemma write_layout (e native : byte_order) (prog_name version now : string)
    (tsdat : Tsdata.t) (file : list byte) :
  write e native prog_name version now tsdat = Ok file ->
  exists hd scl off out z_0,
    quantize_all (Tsdata.utotal tsdat) = Ok (scl, off, out) /\
    pack_header e
      (mk_header 7 (Grid.n_z (Tsdata.grid tsdat)) (Grid.n_y (Tsdata.grid tsdat))
         (Grid.n_tower (Tsdata.grid tsdat))
         (Z.of_nat (dim3 (Tsdata.utotal tsdat)))
         (Grid.dz (Tsdata.grid tsdat)) (Grid.dy (Tsdata.grid tsdat))
         (Tsdata.dt tsdat) (Tsdata.UHUB tsdat) (Grid.zhub (Tsdata.grid tsdat))
         z_0 scl off
         (Z.of_nat (String.length (desc_str prog_name version now))))
      = Ok hd /\
    length hd = 70%nat /\
    file = hd ++ list_byte_of_string (desc_str prog_name version now)
              ++ data_block native out /\
    length (data_block native out) =
      (2 * (3 * dim2 (Tsdata.utotal tsdat) * dim1 (Tsdata.utotal tsdat)
              * dim3 (Tsdata.utotal tsdat)))%nat.
Proof.
  unfold write. intro H.
  apply bind_ok in H as ([[scl off] out] & Hq & H).
  apply bind_ok in H as (z_0 & _ & H).
  apply bind_ok in H as (hd & Hp & H).
  injection H as <-.
  exists hd, scl, off, out, z_0.
  split; [exact Hq|]. split; [exact Hp|].
  split; [exact (pack_header_length _ _ _ Hp)|].
  split; [reflexivity|].
  rewrite data_block_length.
  apply quantize_all_int16 in Hq as (_ & -> & -> & ->). reflexivity.
Qed.

(** The description [write] puts into a file is never empty. *)
Lemma description_is_not_empty (prog_name version now : string) :
  (13 <= String.length (desc_str prog_name version now))%nat.
Proof.
  unfold desc_str. cbn [String.append String.length]. lia.
Qed.

(** [read] on a file that [write] produced: once the header is unpacked, the
    samples are taken from the description onwards. *)
Lemma read_of_written_file (e native : byte_order)
    (prog_name version now : string) (tsdat : Tsdata.t) (file : list byte) :
  write e native prog_name version now tsdat = Ok file ->
  exists hd out,
    length hd = 70%nat /\
    file = hd ++ list_byte_of_string (desc_str prog_name version now)
              ++ data_block native out /\
    read e native file =
    bind (unpack_header e hd)
      (fun h => read_data native h
                  (list_byte_of_string (desc_str prog_name version now)
                     ++ data_block native out)).
Proof.
  intro H.
  apply write_layout in H as (hd & scl & off & out & z_0 & _ & _ & Hl & -> & _).
  exists hd, out. split; [exact Hl|]. split; [reflexivity|].
  now apply read_app.
Qed.

(** C2, at the failing input.  [described_file] holds a header for one grid
    point that announces a description of 2 bytes, the description "ab", and
    the samples 1, 2, 3.  [read] takes its three samples from byte 70 on: the
    first is the text "ab" read as the int16 25185, the next two are 1 and 2,
    and the sample 3 is never read. *)
Theorem read_takes_description_as_samples :
  unpack_header LittleEndian (firstn 70 described_file)
    = Ok (one_point_header 7 2) /\
  skipn 70 described_file
    = list_byte_of_string "ab"
        ++ flat_map (int_bytes LittleEndian 2) [1; 2; 3] /\
  returns (read LittleEndian LittleEndian described_file)
    (fun a => to_lists a =
              (1%nat, 1%nat, 1%nat,
               ([f32_of_Z 25185], [f32_of_Z 1], [f32_of_Z 2]))).
Proof.
  split; [vm_compute; reflexivity|].
  split; vm_compute; reflexivity.
Qed.

(** * Truncated files *)

(** Without a description in the way, a data block that is too short is
    noticed: with non-negative extents and fewer than
    [2 * 3 * n_y * n_z * n_t] bytes after the header, [read] raises
    [ValueError]. *)
Lemma read_short_after_header (e native : byte_order) (hd rest : list byte)
    (h : header) :
  length hd = 70%nat -> unpack_header e hd = Ok h ->
  0 <= n_y h -> 0 <= n_z h -> 0 <= n_t h ->
  Z.of_nat (length rest) < 2 * (3 * n_y h * n_z h * n_t h) ->
  read e native (hd ++ rest) = Err ValueError.
Proof.
  intros Hl Hu Hy Hz Ht Hs.
  rewrite read_app by exact Hl. rewrite Hu. cbn [bind].
  unfold read_data. rewrite read_block_nonneg by assumption.
  apply Z.leb_gt in Hs. rewrite Hs. reflexivity.
Qed.

(** C7, at the failing input.  [truncated_file] has a valid header for one
    grid point and one time step, so three samples are due; after the 2 bytes
    of description only two samples (4 bytes) follow.  [read] returns an
    array all the same: the description fills the gap. *)
Theorem read_accepts_truncated_block :
  unpack_header LittleEndian (firstn 70 truncated_file)
    = Ok (one_point_header 7 2) /\
  skipn 72 truncated_file = flat_map (int_bytes LittleEndian 2) [1; 2] /\
  returns (read LittleEndian LittleEndian truncated_file)
    (fun a => to_lists a =
              (1%nat, 1%nat, 1%nat,
               ([f32_of_Z 25185], [f32_of_Z 1], [f32_of_Z 2]))).
Proof.
  split; [vm_compute; reflexivity|].
  split; vm_compute; reflexivity.
Qed.

(** * Round trip through a file *)

(** C1, at the failing input.  The field with one grid point and the
    constant components 1, 2, 3 is written and read back.  The array that
    comes back holds 58728, 58736 and 57717: the first six characters of the
    description, "genera", taken as three samples and dequantised. *)
Theorem round_trip_returns_description_text :
  to_lists (Tsdata.utotal one_point_field)
    = (1%nat, 1%nat, 1%nat, ([f32_of_Z 1], [f32_of_Z 2], [f32_of_Z 3])) /\
  returns
    (bind (write LittleEndian LittleEndian "pyTurbSim" "0.4"
             "Jan 01, 2020, 00:00 (UTC)" one_point_field)
          (read LittleEndian LittleEndian))
    (fun a => to_lists a =
              (1%nat, 1%nat, 1%nat,
               ([f32_of_Z 58728], [f32_of_Z 58736], [f32_of_Z 57717]))).
Proof.
  split; vm_compute; reflexivity.
Qed.

(** * The ends of the range *)

(** C3, at the failing input.  For a component with minimum 0 and maximum 1
    the scale is 65536 and the offset -32768.  The largest sample is mapped to
    32768.0, one more than an int16 holds, and the cast stores the code
    -32768, the code of the smallest sample. *)
Theorem largest_sample_gets_lowest_code :
  quant_params [f32_of_Z 0; f32_of_Z 1]
    = Ok (f32_of_Z 65536, f32_of_Z (-32768)) /\
  f32_add (f32_mul (f32_of_Z 1) (f32_of_Z 65536)) (f32_of_Z (-32768))
    = f32_of_Z 32768 /\
  quantize (f32_of_Z 65536) (f32_of_Z (-32768)) (f32_of_Z 1) = -32768 /\
  quantize (f32_of_Z 65536) (f32_of_Z (-32768)) (f32_of_Z 0) = -32768.
Proof.
  repeat split; vm_compute; reflexivity.
Qed.

(** * The cast to int16 *)

(** [f32_trunc] drops the fraction: the integer it gives has the sign of the
    float and is the largest one whose absolute value does not exceed that of
    the float. *)
Lemma f32_trunc_spec (x : f32) (z : Z) :
  f32_trunc x = Some z ->
  Z.abs z * f32_den x <= f32_num x < (Z.abs z + 1) * f32_den x /\
  (z < 0 -> f32_sign x = true) /\ (0 < z -> f32_sign x = false).
Proof.
  destruct x as [s|s| |s m e]; cbn [f32_trunc]; try discriminate.
  - intro H; injection H as <-. cbn. lia.
  - intro H. cbv zeta in H.
    assert (Hm : exists a, 0 <= a /\
               a * f32_den (S754_finite s m e) <= f32_num (S754_finite s m e)
                 < (a + 1) * f32_den (S754_finite s m e) /\
               match e with
               | Z.neg p => Z.pos m / 2 ^ Z.pos p
               | _ => Z.pos m * 2 ^ e
               end = a).
    { destruct e as [|q|q]; cbn [f32_num f32_den].
      - exists (Z.pos m * 2 ^ 0). simpl. lia.
      - exists (Z.pos m * 2 ^ Z.pos q).
        assert (0 < 2 ^ Z.pos q) by (apply Z.pow_pos_nonneg; lia). nia.
      - assert (Hp : 0 < 2 ^ Z.pos q) by (apply Z.pow_pos_nonneg; lia).
        exists (Z.pos m / 2 ^ Z.pos q).
        pose proof (Z.div_mod (Z.pos m) (2 ^ Z.pos q) ltac:(lia)) as Hdm.
        pose proof (Z.mod_pos_bound (Z.pos m) (2 ^ Z.pos q) Hp) as Hb.
        split; [apply Z.div_pos; lia|]. split; [nia|reflexivity]. }
    destruct Hm as (a & Ha & Hb & E). rewrite E in H. injection H as <-.
    cbn [f32_sign]. destruct s.
    + rewrite Z.abs_opp, Z.abs_eq by lia. repeat split; try exact (proj1 Hb);
        try exact (proj2 Hb); lia.
    + rewrite Z.abs_eq by lia. repeat split; try exact (proj1 Hb);
        try exact (proj2 Hb); lia.
Qed.

(** C5, as the code has it.  The stored code of a sample [x] is the float32
    value [v] of [x * scale + offset] with its fraction dropped, whenever that
    integer is an int16: the code has the sign of [v] and its absolute value
    is the integer part of the absolute value of [v].  The cast truncates
    toward zero, it does not round to the nearest integer. *)
Theorem quantize_truncates (scl off x : f32) (z : Z) :
  f32_trunc (f32_add (f32_mul x scl) off) = Some z ->
  in_int_range 2 z = true ->
  quantize scl off x = z /\
  Z.abs z * f32_den (f32_add (f32_mul x scl) off)
    <= f32_num (f32_add (f32_mul x scl) off)
    < (Z.abs z + 1) * f32_den (f32_add (f32_mul x scl) off) /\
  (z < 0 -> f32_sign (f32_add (f32_mul x scl) off) = true) /\
  (0 < z -> f32_sign (f32_add (f32_mul x scl) off) = false).
Proof.
  intros Ht Hr. split; [|now apply f32_trunc_spec].
  unfold quantize, astype_int16. rewrite Ht.
  rewrite (in_int_range_2_4 _ Hr). apply wrap16_small, Hr.
Qed.

(** C5 on the sample 32768.75 with scale 1 and offset -32768: the value
    0.75 is stored as 0. *)
Lemma quantize_truncates_witness :
  quantize (f32_of_Z 1) (f32_of_Z (-32768)) f32_32768_75 = 0.
Proof.
  apply (quantize_truncates (f32_of_Z 1) (f32_of_Z (-32768)) f32_32768_75 0).
  - vm_compute; reflexivity.
  - vm_compute; reflexivity.
Defined.

(** C5, the counterexample.  In a component with the samples 0, 65536 and
    32768.75 the scale is 1 and the offset -32768.  The sample 32768.75 is
    mapped to 0.75: the code stored is 0, where rounding gives 1. *)
Lemma truncation_is_not_rounding :
  quant_params [f32_of_Z 0; f32_of_Z 65536; f32_32768_75]
    = Ok (f32_of_Z 1, f32_of_Z (-32768)) /\
  f32_add (f32_mul f32_32768_75 (f32_of_Z 1)) (f32_of_Z (-32768))
    = f32_div (f32_of_Z 3) (f32_of_Z 4) /\
  quantize (f32_of_Z 1) (f32_of_Z (-32768)) f32_32768_75 = 0 /\
  spec_quantize (f32_of_Z 1) (f32_of_Z (-32768)) f32_32768_75 = Some 1.
Proof.
  repeat split; vm_compute; reflexivity.
Qed.

(** * Constant components *)

Lemma f32_eqb_refl (c : f32) : f32_isnan c = false -> f32_eqb c c = true.
Proof.
  unfold f32_eqb, SFeqb.
  destruct c as [s|s| |s m e]; simpl; try discriminate; intros _.
  - reflexivity.
  - destruct s; reflexivity.
  - destruct s; rewrite Z.compare_refl, Pos.compare_cont_refl; reflexivity.
Qed.

Lemma fold_min_constant (c : f32) (xs : list f32) :
  Forall (eq c) xs -> fold_left min_step xs c = c.
Proof.
  induction 1 as [|x xs <- _ IH]; [reflexivity|].
  cbn [fold_left]. replace (min_step c c) with c; [exact IH|].
  unfold min_step. destruct (f32_leb c c || f32_isnan c); reflexivity.
Qed.

Lemma fold_max_constant (c : f32) (xs : list f32) :
  Forall (eq c) xs -> fold_left max_step xs c = c.
Proof.
  induction 1 as [|x xs <- _ IH]; [reflexivity|].
  cbn [fold_left]. replace (max_step c c) with c; [exact IH|].
  unfold max_step. destruct (f32_leb c c || f32_isnan c); reflexivity.
Qed.

Lemma quant_params_constant (c : f32) (xs : list f32) :
  xs <> [] -> Forall (eq c) xs -> f32_isnan c = false ->
  quant_params xs = Ok (f32_of_Z 1, constant_offset c).
Proof.
  intros Hne Hall Hnan.
  destruct xs as [|x xs]; [contradiction|].
  inversion Hall as [|? ? Hx Hxs]; subst.
  unfold quant_params, np_min, np_max. cbn [bind].
  rewrite (fold_min_constant _ _ Hxs), (fold_max_constant _ _ Hxs).
  rewrite (f32_eqb_refl _ Hnan). reflexivity.
Qed.

(** A constant stored as an integer below 2^23 goes through quantisation
    with scale 1 and comes back unchanged. *)
Lemma integer_constant_exact (n : Z) :
  Z.abs n <= 2 ^ 23 ->
  quantize (f32_of_Z 1) (constant_offset (f32_of_Z n)) (f32_of_Z n) = -32768 /\
  dequantize_sample (f32_of_Z 1) (constant_offset (f32_of_Z n))
    (f32_of_Z (-32768))
  = f32_of_Z n.
Proof.
  intro Hn.
  assert (Hoff : constant_offset (f32_of_Z n) = f32_of_Z (-32768 - n)).
  { unfold constant_offset, intmin.
    rewrite f32_mul_one_l by lia. apply f32_sub_int; lia. }
  rewrite Hoff. split.
  - unfold quantize. rewrite f32_mul_one_r by lia.
    rewrite f32_add_int by lia.
    replace (n + (-32768 - n)) with (-32768) by lia. reflexivity.
  - unfold dequantize_sample.
    rewrite f32_sub_int by lia.
    replace (-32768 - (-32768 - n)) with n by lia.
    apply f32_div_one. lia.
Qed.

(** C8, as the code has it.  When all samples of a component are the same
    value [c], not a NaN, the scale is 1 and so not zero, the offset is
    [intmin - scale * c] rounded to float32, every sample gets the code of
    [c], and every code is dequantised to one and the same value.  That value
    is [c] itself when [c] is an integer of absolute value at most 2^23. *)
Theorem constant_component (xs : list f32) (c : f32) :
  xs <> [] -> Forall (eq c) xs -> f32_isnan c = false ->
  quant_params xs = Ok (f32_of_Z 1, constant_offset c) /\
  f32_eqb (f32_of_Z 1) f32_zero = false /\
  Forall (fun x =>
            quantize (f32_of_Z 1) (constant_offset c) x
            = quantize (f32_of_Z 1) (constant_offset c) c) xs /\
  Forall (fun x =>
            dequantize_sample (f32_of_Z 1) (constant_offset c)
              (f32_of_Z (quantize (f32_of_Z 1) (constant_offset c) x))
            = dequantize_sample (f32_of_Z 1) (constant_offset c)
                (f32_of_Z (quantize (f32_of_Z 1) (constant_offset c) c))) xs /\
  forall n : Z, Z.abs n <= 2 ^ 23 -> c = f32_of_Z n ->
    dequantize_sample (f32_of_Z 1) (constant_offset c)
      (f32_of_Z (quantize (f32_of_Z 1) (constant_offset c) c)) = c.
Proof.
  intros Hne Hall Hnan.
  split; [now apply quant_params_constant|].
  split; [reflexivity|].
  split; [|split].
  - eapply Forall_impl; [|exact Hall]. intros x <-. reflexivity.
  - eapply Forall_impl; [|exact Hall]. intros x <-. reflexivity.
  - intros n Hn ->. destruct (integer_constant_exact n Hn) as [Hq Hd].
    rewrite Hq. exact Hd.
Qed.

Lemma constant_component_witness :
  quant_params [f32_of_Z 5; f32_of_Z 5]
    = Ok (f32_of_Z 1, constant_offset (f32_of_Z 5)) /\
  dequantize_sample (f32_of_Z 1) (constant_offset (f32_of_Z 5))
    (f32_of_Z (quantize (f32_of_Z 1) (constant_offset (f32_of_Z 5)) (f32_of_Z 5)))
  = f32_of_Z 5.
Proof.
  destruct (constant_component [f32_of_Z 5; f32_of_Z 5] (f32_of_Z 5))
    as (Hq & _ & _ & _ & Hx).
  - discriminate.
  - repeat constructor.
  - reflexivity.
  - split; [exact Hq|]. apply (Hx 5); [vm_compute; discriminate|reflexivity].
Defined.

(** C8, the counterexample.  A component that is 0.1 everywhere gets the
    offset -32768.1015625 (the float32 nearest to -32768.1) and the code
    -32768, and is dequantised to 0.1015625 = 13/128, not to 0.1. *)
Lemma constant_tenth_is_not_recovered :
  quant_params [f32_tenth; f32_tenth]
    = Ok (f32_of_Z 1, constant_offset f32_tenth) /\
  constant_offset f32_tenth
    = f32_div (f32_of_Z (-8388634)) (f32_of_Z 256) /\
  quantize (f32_of_Z 1) (constant_offset f32_tenth) f32_tenth = -32768 /\
  dequantize_sample (f32_of_Z 1) (constant_offset f32_tenth) (f32_of_Z (-32768))
    = f32_div (f32_of_Z 13) (f32_of_Z 128) /\
  f32_eqb (f32_div (f32_of_Z 13) (f32_of_Z 128)) f32_tenth = false.
Proof.
  repeat split; vm_compute; reflexivity.
Qed.

(** * Further properties of write *)

Lemma comp_items_length {A : Type} (a : ndarray A) (ind : nat) :
  length (comp_items a ind) = (dim1 a * (dim2 a * dim3 a))%nat.
Proof.
  unfold comp_items.
  apply flat_map_seq_length; intro i.
  rewrite (flat_map_seq_length _ (dim3 a)); [reflexivity|].
  intro j. now rewrite length_map, length_seq.
Qed.

Lemma comp_items_nil {A : Type} (a : ndarray A) (ind : nat) :
  comp_items a ind = [] <->
  (dim1 a = 0 \/ dim2 a = 0 \/ dim3 a = 0)%nat.
Proof.
  rewrite <- length_zero_iff_nil, comp_items_length. nia.
Qed.

Lemma field_is_empty_true (ts : ndarray f32) :
  field_is_empty ts = true <->
  (dim1 ts = 0 \/ dim2 ts = 0 \/ dim3 ts = 0)%nat.
Proof.
  unfold field_is_empty. rewrite !orb_true_iff, !Nat.eqb_eq. tauto.
Qed.

Lemma quant_params_ok (xs : list f32) :
  xs <> [] -> exists p, quant_params xs = Ok p.
Proof.
  destruct xs as [|x xs]; [contradiction|]. intros _.
  unfold quant_params, np_min, np_max. cbn [bind]. eauto.
Qed.

(** The quantisation loop fails exactly on a field without samples, with the
    [ValueError] of [min] on an empty array. *)
Lemma quantize_all_outcome (ts : ndarray f32) :
  if field_is_empty ts then quantize_all ts = Err ValueError
  else exists q, quantize_all ts = Ok q.
Proof.
  destruct (field_is_empty ts) eqn:He.
  - apply field_is_empty_true in He.
    unfold quantize_all.
    now rewrite (proj2 (comp_items_nil ts 0) He).
  - assert (Hne : forall ind, comp_items ts ind <> []).
    { intros ind Hn. apply comp_items_nil in Hn.
      apply field_is_empty_true in Hn. congruence. }
    unfold quantize_all.
    destruct (quant_params_ok _ (Hne 0%nat)) as (p0 & ->).
    destruct (quant_params_ok _ (Hne 1%nat)) as (p1 & ->).
    destruct (quant_params_ok _ (Hne 2%nat)) as (p2 & ->).
    cbn [bind]. eauto.
Qed.

Lemma pack_float_error (x : f64) (ex : exn) :
  pack_float x = Err ex -> ex = OverflowError.
Proof.
  unfold pack_float.
  destruct x as [s|s| |s m e]; try discriminate.
  destruct (f32_of_f64 (S754_finite s m e)); intro H;
    try discriminate H; injection H as <-; reflexivity.
Qed.

Lemma float_fits_false (x : f64) :
  float_fits x = false -> pack_float x = Err OverflowError.
Proof.
  unfold float_fits. destruct (pack_float x) as [y|ex] eqn:E;
    [discriminate|].
  intros _. f_equal. exact (pack_float_error x ex E).
Qed.

Lemma float_fits_true (x : f64) :
  float_fits x = true -> pack_float x = Ok (f32_of_f64 x).
Proof.
  unfold float_fits. destruct (pack_float x) as [y|ex] eqn:E;
    [|discriminate].
  intros _. f_equal. exact (pack_float_value x y E).
Qed.

(** [pack] goes through its arguments from left to right and stops at the
    first it cannot store. *)
Lemma pack_cons_err (o : byte_order) (v : field) (vs : list field) (ex : exn) :
  pack_field o v = Err ex -> pack o (v :: vs) = Err ex.
Proof. intro H. cbn [pack]. rewrite H. reflexivity. Qed.

Lemma pack_cons_ok (o : byte_order) (v : field) (vs : list field)
    (b : list byte) (ex : exn) :
  pack_field o v = Ok b -> pack o vs = Err ex -> pack o (v :: vs) = Err ex.
Proof. intros H1 H2. cbn [pack]. rewrite H1, H2. reflexivity. Qed.

Lemma pack_int32_fits (o : byte_order) (z : Z) :
  in_int_range 4 z = true -> pack_field o (L z) = Ok (int_bytes o 4 z).
Proof. intro H. cbn [pack_field]. rewrite H. reflexivity. Qed.

Lemma pack_int32_err (o : byte_order) (z : Z) :
  in_int_range 4 z = false -> pack_field o (L z) = Err struct_error.
Proof. intro H. cbn [pack_field]. rewrite H. reflexivity. Qed.

Lemma pack_float_field_fits (o : byte_order) (x : f64) :
  float_fits x = true -> pack_field o (F x) = Ok (float_bytes o x).
Proof.
  intro H. cbn [pack_field]. rewrite (float_fits_true x H). reflexivity.
Qed.

Lemma pack_float_field_err (o : byte_order) (x : f64) :
  float_fits x = false -> pack_field o (F x) = Err OverflowError.
Proof.
  intro H. cbn [pack_field]. rewrite (float_fits_false x H). reflexivity.
Qed.

(** Whether [pack] stores a value. *)
Lemma pack_field_ok (o : byte_order) (v : field) (b : list byte) :
  pack_field o v = Ok b ->
  match v with
  | H z => in_int_range 2 z = true
  | L z => in_int_range 4 z = true
  | F x => float_fits x = true
  end.
Proof.
  destruct v as [z|z|x]; cbn [pack_field].
  - destruct (in_int_range 2 z); [reflexivity|discriminate].
  - destruct (in_int_range 4 z); [reflexivity|discriminate].
  - unfold float_fits. destruct (pack_float x); [reflexivity|discriminate].
Qed.

Lemma pack_cons_inv (o : byte_order) (v : field) (vs : list field)
    (bs : list byte) :
  pack o (v :: vs) = Ok bs ->
  exists b bs', pack_field o v = Ok b /\ pack o vs = Ok bs' /\ bs = b ++ bs'.
Proof.
  cbn [pack]. intro H.
  apply bind_ok in H as (b & Hb & H).
  apply bind_ok in H as (bs' & Hbs & H).
  injection H as <-. eauto.
Qed.

(** X1.  What [write] does is decided by checks in this order.  A field with
    a zero extent has no minimum: [ValueError].  Otherwise an empty [grid.z]
    has no element 0: [IndexError].  Otherwise one of the four counts (n_z,
    n_y, n_tower, the number of time steps) outside the int32 range makes
    [pack] raise [struct.error].  Otherwise one of the six float attributes
    (dz, dy, dt, UHUB, zhub, z[0]) that is finite and too large for a float32
    makes [pack] raise [OverflowError].  A file is written only when none of
    the four is the case. *)
Theorem write_outcome (e native : byte_order) (prog_name version now : string)
    (tsdat : Tsdata.t) :
  (forall file : list byte,
     write e native prog_name version now tsdat = Ok file ->
     field_is_empty (Tsdata.utotal tsdat) = false /\
     header_counts_fit tsdat = true /\
     exists z_0 zs,
       Grid.z (Tsdata.grid tsdat) = z_0 :: zs /\
       header_floats_fit tsdat z_0 = true) /\
  (field_is_empty (Tsdata.utotal tsdat) = true ->
   write e native prog_name version now tsdat = Err ValueError) /\
  (field_is_empty (Tsdata.utotal tsdat) = false ->
   Grid.z (Tsdata.grid tsdat) = [] ->
   write e native prog_name version now tsdat = Err IndexError) /\
  (field_is_empty (Tsdata.utotal tsdat) = false ->
   Grid.z (Tsdata.grid tsdat) <> [] ->
   header_counts_fit tsdat = false ->
   write e native prog_name version now tsdat = Err struct_error) /\
  (forall (z_0 : f64) (zs : list f64),
     field_is_empty (Tsdata.utotal tsdat) = false ->
     Grid.z (Tsdata.grid tsdat) = z_0 :: zs ->
     header_counts_fit tsdat = true ->
     header_floats_fit tsdat z_0 = false ->
     write e native prog_name version now tsdat = Err OverflowError).
Proof.
  unfold write, header_counts_fit, header_floats_fit.
  pose proof (quantize_all_outcome (Tsdata.utotal tsdat)) as Hq.
  destruct (field_is_empty (Tsdata.utotal tsdat)).
  - rewrite Hq. cbn [bind].
    split; [intros file H; discriminate H|].
    split; [reflexivity|].
    split; [discriminate|]. split; discriminate.
  - destruct Hq as ([[scl off] out] & ->). cbn [bind].
    destruct (Grid.z (Tsdata.grid tsdat)) as [|z_0 zs]; cbn [bind].
    + split; [intros file H; discriminate H|].
      split; [discriminate|]. split; [reflexivity|].
      split; [intros _ H; now contradiction H|]. intros ? ? _ H.
      discriminate H.
    + unfold pack_header, header_fields.
      cbn [junk n_z n_y n_tower n_t dz dy dt uhub zhub z0 strlen].
      set (rest := [F (sel3 (u_scl _) 0); _; _; _; _; _; _]).
      assert (Htag : forall vs, pack e (H 7 :: vs) =
                do bs <- pack e vs; Ok (int_bytes e 2 7 ++ bs))
        by reflexivity.
      rewrite Htag.
      split; [|split; [discriminate|]; split; [discriminate|]; split].
      * intros file Hw.
        apply bind_ok in Hw as (hd & Hp & _).
        apply bind_ok in Hp as (bs & Hp & _).
        split; [reflexivity|].
        repeat (apply pack_cons_inv in Hp as (? & ? & ?%pack_field_ok & Hp & _)).
        split.
        -- rewrite !andb_true_iff. repeat split; assumption.
        -- exists z_0, zs. split; [reflexivity|].
           rewrite !andb_true_iff. repeat split; assumption.
      * intros _ _ Hc.
        destruct (in_int_range 4 (Grid.n_z (Tsdata.grid tsdat))) eqn:E1;
          [|rewrite (pack_cons_err _ _ _ _ (pack_int32_err e _ E1));
            reflexivity].
        destruct (in_int_range 4 (Grid.n_y (Tsdata.grid tsdat))) eqn:E2;
          [|rewrite (pack_cons_ok _ _ _ _ _ (pack_int32_fits e _ E1)
                       (pack_cons_err _ _ _ _ (pack_int32_err e _ E2)));
            reflexivity].
        destruct (in_int_range 4 (Grid.n_tower (Tsdata.grid tsdat))) eqn:E3;
          [|rewrite (pack_cons_ok _ _ _ _ _ (pack_int32_fits e _ E1)
                       (pack_cons_ok _ _ _ _ _ (pack_int32_fits e _ E2)
                          (pack_cons_err _ _ _ _ (pack_int32_err e _ E3))));
            reflexivity].
        destruct (in_int_range 4 (Z.of_nat (dim3 (Tsdata.utotal tsdat))))
          eqn:E4; [discriminate Hc|].
        rewrite (pack_cons_ok _ _ _ _ _ (pack_int32_fits e _ E1)
                   (pack_cons_ok _ _ _ _ _ (pack_int32_fits e _ E2)
                      (pack_cons_ok _ _ _ _ _ (pack_int32_fits e _ E3)
                         (pack_cons_err _ _ _ _ (pack_int32_err e _ E4))))).
        reflexivity.
      * intros z zs' _ Hz Hc Hf. injection Hz as <- <-.
        apply andb_true_iff in Hc as [Hc E4].
        apply andb_true_iff in Hc as [Hc E3].
        apply andb_true_iff in Hc as [E1 E2].
        assert (Hints : forall vs ex, pack e vs = Err ex ->
                  pack e (L (Grid.n_z (Tsdata.grid tsdat))
                          :: L (Grid.n_y (Tsdata.grid tsdat))
                          :: L (Grid.n_tower (Tsdata.grid tsdat))
                          :: L (Z.of_nat (dim3 (Tsdata.utotal tsdat))) :: vs)
                  = Err ex).
        { intros vs ex Hv.
          exact (pack_cons_ok _ _ _ _ _ (pack_int32_fits e _ E1)
                   (pack_cons_ok _ _ _ _ _ (pack_int32_fits e _ E2)
                      (pack_cons_ok _ _ _ _ _ (pack_int32_fits e _ E3)
                         (pack_cons_ok _ _ _ _ _ (pack_int32_fits e _ E4)
                            Hv)))). }
        rewrite (Hints _ OverflowError); [reflexivity|].
        destruct (float_fits (Grid.dz (Tsdata.grid tsdat))) eqn:F1;
          [|exact (pack_cons_err _ _ _ _ (pack_float_field_err e _ F1))].
        apply (pack_cons_ok _ _ _ _ _ (pack_float_field_fits e _ F1)).
        destruct (float_fits (Grid.dy (Tsdata.grid tsdat))) eqn:F2;
          [|exact (pack_cons_err _ _ _ _ (pack_float_field_err e _ F2))].
        apply (pack_cons_ok _ _ _ _ _ (pack_float_field_fits e _ F2)).
        destruct (float_fits (Tsdata.dt tsdat)) eqn:F3;
          [|exact (pack_cons_err _ _ _ _ (pack_float_field_err e _ F3))].
        apply (pack_cons_ok _ _ _ _ _ (pack_float_field_fits e _ F3)).
        destruct (float_fits (Tsdata.UHUB tsdat)) eqn:F4;
          [|exact (pack_cons_err _ _ _ _ (pack_float_field_err e _ F4))].
        apply (pack_cons_ok _ _ _ _ _ (pack_float_field_fits e _ F4)).
        destruct (float_fits (Grid.zhub (Tsdata.grid tsdat))) eqn:F5;
          [|exact (pack_cons_err _ _ _ _ (pack_float_field_err e _ F5))].
        apply (pack_cons_ok _ _ _ _ _ (pack_float_field_fits e _ F5)).
        destruct (float_fits z_0) eqn:F6; [discriminate Hf|].
        exact (pack_cons_err _ _ _ _ (pack_float_field_err e _ F6)).
Qed.

Lemma write_outcome_witness :
  field_is_empty (Tsdata.utotal wide_spacing_field) = false /\
  header_counts_fit wide_spacing_field = true /\
  header_floats_fit wide_spacing_field f32_one = false /\
  write LittleEndian LittleEndian "pyTurbSim" "0.4"
    "Jan 01, 2020, 00:00 (UTC)" wide_spacing_field = Err OverflowError.
Proof.
  assert (H1 : field_is_empty (Tsdata.utotal wide_spacing_field) = false)
    by reflexivity.
  assert (H2 : header_counts_fit wide_spacing_field = true) by reflexivity.
  assert (H3 : header_floats_fit wide_spacing_field f32_one = false)
    by (vm_compute; reflexivity).
  split; [exact H1|]. split; [exact H2|]. split; [exact H3|].
  exact (proj2 (proj2 (proj2 (proj2
           (write_outcome LittleEndian LittleEndian "pyTurbSim" "0.4"
              "Jan 01, 2020, 00:00 (UTC)" wide_spacing_field))))
           f32_one [] H1 eq_refl H2 H3).
Defined.

Lemma unpack_pack_field_any (o : byte_order) (v : field) (b : list byte) :
  pack_field o v = Ok b ->
  unpack_field o (field_code v) b = field_read_back v.
Proof.
  destruct v as [z|z|x];
    cbn [pack_field field_code field_read_back unpack_field]; intro H.
  - destruct (in_int_range 2 z) eqn:Hr; [|discriminate].
    injection H as <-. f_equal. apply bytes_int_int_bytes; [lia|exact Hr].
  - destruct (in_int_range 4 z) eqn:Hr; [|discriminate].
    injection H as <-. f_equal. apply bytes_int_int_bytes; [lia|exact Hr].
  - apply bind_ok in H as (y & Hy & H). injection H as <-.
    apply pack_float_value in Hy. subst y.
    unfold float_read_back. f_equal. f_equal.
    apply bytes_uint_int_bytes.
Qed.

Lemma unpack_fields_pack_any (o : byte_order) (vs : list field) :
  forall bs, pack o vs = Ok bs ->
  unpack_fields o (map field_code vs) bs = map field_read_back vs.
Proof.
  induction vs as [|v vs IH]; intros bs H; [reflexivity|].
  cbn [pack] in H.
  apply bind_ok in H as (b & Hb & H).
  apply bind_ok in H as (bs' & Hbs & H).
  injection H as <-.
  cbn [map unpack_fields].
  pose proof (pack_field_length _ _ _ Hb) as Hl.
  rewrite <- Hl, firstn_app, Nat.sub_diag, firstn_all, firstn_O, app_nil_r.
  rewrite skipn_app, Nat.sub_diag, skipn_all, skipn_O. cbn [app].
  now rewrite (unpack_pack_field_any _ _ _ Hb), (IH _ Hbs).
Qed.

(** Whatever the floats are, a packed header unpacks to the same integers,
    and to the floats as their 32 bits give them back. *)
Lemma unpack_header_packed (e : byte_order) (h : header) (hd : list byte) :
  pack_header e h = Ok hd ->
  unpack_header e hd = Ok (header_read_back h).
Proof.
  intro H. unfold unpack_header, unpack.
  rewrite (pack_header_length _ _ _ H).
  change (calcsize header_fmt) with 70%nat. rewrite Nat.eqb_refl. cbn [bind].
  rewrite <- (header_fields_fmt h), (unpack_fields_pack_any _ _ _ H).
  destruct h as [tag nz ny ntw nt a b c d g z [[s0 s1] s2] [[o0 o1] o2] len].
  reflexivity.
Qed.

Lemma string_length_append (s1 s2 : string) :
  String.length (s1 ++ s2) = (String.length s1 + String.length s2)%nat.
Proof.
  induction s1 as [|c s1 IH]; [reflexivity|].
  cbn [String.append String.length]. now rewrite IH.
Qed.

Lemma list_byte_of_string_length (s : string) :
  length (list_byte_of_string s) = String.length s.
Proof.
  induction s as [|c s IH]; [reflexivity|].
  cbn. now rewrite <- IH.
Qed.

Lemma desc_str_length (prog_name version now : string) :
  String.length (desc_str prog_name version now) =
  (18 + String.length prog_name + String.length version
      + String.length now)%nat.
Proof.
  unfold desc_str. rewrite !string_length_append. cbn [String.length]. lia.
Qed.

Lemma skipn_app_length {A : Type} (l1 l2 : list A) (n : nat) :
  length l1 = n -> skipn n (l1 ++ l2) = l2.
Proof.
  intros <-. now rewrite skipn_app, Nat.sub_diag, skipn_all, skipn_O.
Qed.

Lemma firstn_app_length {A : Type} (l1 l2 : list A) (n : nat) :
  length l1 = n -> firstn n (l1 ++ l2) = l1.
Proof.
  intros <-.
  now rewrite firstn_app, Nat.sub_diag, firstn_all, firstn_O, app_nil_r.
Qed.

(** X2.  In the file [write] produces the first 70 bytes unpack to the tag
    7, the counts of the grid, the number of time steps of the field and a
    description length that is the number of description bytes that follow,
    18 more than the three strings together.  The description comes next, the
    data block starts at byte [70 + strlen], has 2 bytes for each of the
    [3 * n_z * n_y * n_t] samples of the field and ends the file. *)
Theorem written_file_layout (e native : byte_order)
    (prog_name version now : string) (tsdat : Tsdata.t) (file : list byte) :
  write e native prog_name version now tsdat = Ok file ->
  exists (h : header) (out : ndarray Z),
    unpack_header e (firstn 70 file) = Ok h /\
    junk h = 7 /\
    n_z h = Grid.n_z (Tsdata.grid tsdat) /\
    n_y h = Grid.n_y (Tsdata.grid tsdat) /\
    n_tower h = Grid.n_tower (Tsdata.grid tsdat) /\
    n_t h = Z.of_nat (dim3 (Tsdata.utotal tsdat)) /\
    strlen h = Z.of_nat (18 + String.length prog_name + String.length version
                           + String.length now) /\
    firstn (Z.to_nat (strlen h)) (skipn 70 file)
      = list_byte_of_string (desc_str prog_name version now) /\
    skipn (70 + Z.to_nat (strlen h)) file = data_block native out /\
    length (data_block native out)
      = (2 * (3 * dim1 (Tsdata.utotal tsdat) * dim2 (Tsdata.utotal tsdat)
                * dim3 (Tsdata.utotal tsdat)))%nat.
Proof.
  intro H.
  apply write_layout in H
    as (hd & scl & off & out & z_0 & Hq & Hp & Hl & -> & Hb).
  pose proof (unpack_header_packed _ _ _ Hp) as Hu.
  eexists. exists out.
  rewrite (firstn_app_length _ _ 70 Hl).
  split; [exact Hu|].
  cbn [header_read_back junk n_z n_y n_tower n_t strlen].
  rewrite desc_str_length, Nat2Z.id.
  repeat split.
  - rewrite (skipn_app_length _ _ 70 Hl).
    apply firstn_app_length.
    now rewrite list_byte_of_string_length, desc_str_length.
  - rewrite (Nat.add_comm 70), <- skipn_skipn, (skipn_app_length _ _ 70 Hl).
    apply skipn_app_length.
    now rewrite list_byte_of_string_length, desc_str_length.
  - rewrite Hb. lia.
Qed.

Lemma written_file_layout_witness :
  exists (file : list byte) (h : header),
    write LittleEndian LittleEndian "pyTurbSim" "0.4"
      "Jan 01, 2020, 00:00 (UTC)" one_point_field = Ok file /\
    unpack_header LittleEndian (firstn 70 file) = Ok h /\
    junk h = 7 /\ strlen h = 55 /\ length file = 131%nat.
Proof.
  destruct (write LittleEndian LittleEndian "pyTurbSim" "0.4"
              "Jan 01, 2020, 00:00 (UTC)" one_point_field)
    as [file|x] eqn:E; [|vm_compute in E; discriminate].
  destruct (written_file_layout _ _ _ _ _ _ _ E)
    as (h & out & Hu & Hj & _ & _ & _ & _ & Hs & _).
  exists file, h. split; [reflexivity|]. split; [exact Hu|].
  split; [exact Hj|]. split; [rewrite Hs; reflexivity|].
  vm_compute in E. injection E as <-. reflexivity.
Defined.

(** * Further properties of read *)

Lemma read_unfold (e native : byte_order) (file : list byte) :
  read e native file =
  bind (unpack_header e (firstn 70 file))
    (fun h => read_data native h (skipn 70 file)).
Proof. reflexivity. Qed.

Lemma nbt_nonneg (ny nz nt : Z) :
  0 <= ny -> 0 <= nz -> 0 <= nt -> 0 <= 3 * ny * nz * nt.
Proof.
  intros Hy Hz Ht. apply Z.mul_nonneg_nonneg; [|exact Ht].
  apply Z.mul_nonneg_nonneg; [|exact Hz]. lia.
Qed.

Lemma nth_chunk2 (i : nat) :
  forall l : list byte, (2 * i + 2 <= length l)%nat ->
  nth i (chunk2 l) [] = firstn 2 (skipn (2 * i) l).
Proof.
  induction i as [|i IH]; intros l Hl.
  - destruct l as [|a [|b l]]; cbn [length] in Hl; try lia. reflexivity.
  - destruct l as [|a [|b l]]; cbn [length] in Hl; try lia.
    replace (2 * S i)%nat with (S (S (2 * i))) by lia.
    cbn [chunk2 nth skipn]. apply IH. lia.
Qed.

Lemma le_int_range (bs : list byte) :
  0 <= le_int bs < 2 ^ (8 * Z.of_nat (length bs)).
Proof.
  induction bs as [|b bs IH]; [simpl; lia|].
  cbn [le_int length].
  replace (8 * Z.of_nat (S (length bs))) with (8 + 8 * Z.of_nat (length bs))
    by lia.
  rewrite Z.pow_add_r by lia. change (2 ^ 8) with 256.
  pose proof (Z_of_byte_range b). lia.
Qed.

(** Two bytes read as a sample are an int16. *)
Lemma bytes_int_2_range (o : byte_order) (bs : list byte) :
  length bs = 2%nat -> in_int_range 2 (bytes_int o bs) = true.
Proof.
  intro Hl. apply int16_range. unfold bytes_int, to_signed. rewrite Hl.
  assert (Hu : 0 <= bytes_uint o bs < 65536).
  { destruct o; cbn [bytes_uint].
    - pose proof (le_int_range bs) as H. rewrite Hl in H. exact H.
    - pose proof (le_int_range (rev bs)) as H.
      rewrite length_rev, Hl in H. exact H. }
  change (2 ^ (8 * Z.of_nat 2 - 1)) with 32768.
  change (2 ^ (8 * Z.of_nat 2)) with 65536.
  destruct (bytes_uint o bs <? 32768) eqn:Hc;
    [apply Z.ltb_lt in Hc|apply Z.ltb_ge in Hc]; lia.
Qed.

Lemma sample_of_chunks (native : byte_order) (fl : list byte) (n i : nat) :
  (2 * i + 2 <= n)%nat -> (n <= length fl)%nat ->
  nth i (map (bytes_int native) (chunk2 (firstn n fl))) 0
  = sample_at native fl i.
Proof.
  intros Hi Hn.
  rewrite (nth_indep _ 0 (bytes_int native [])).
  2:{ rewrite length_map, chunk2_length, length_firstn, Nat.min_l by exact Hn.
      pose proof (Nat.div2_odd n) as Hd.
      destruct (Nat.odd n); cbn [Nat.b2n] in Hd; lia. }
  rewrite map_nth.
  rewrite nth_chunk2 by (rewrite length_firstn; lia).
  unfold sample_at. f_equal.
  rewrite skipn_firstn_comm, firstn_firstn. f_equal. lia.
Qed.

Lemma sample_at_range (native : byte_order) (fl : list byte) (i : nat) :
  (2 * i + 2 <= length fl)%nat ->
  in_int_range 2 (sample_at native fl i) = true.
Proof.
  intro Hi. apply bytes_int_2_range.
  rewrite length_firstn, length_skipn. lia.
Qed.

(** What [read] returns once the header is unpacked, the extents are not
    negative and the bytes of the block are there. *)
Lemma read_data_formula (native : byte_order) (h : header) (fl : list byte) :
  0 <= n_y h -> 0 <= n_z h -> 0 <= n_t h ->
  2 * (3 * n_y h * n_z h * n_t h) <= Z.of_nat (length fl) ->
  exists a : ndarray f32,
    read_data native h fl = Ok a /\
    dim1 a = Z.to_nat (n_z h) /\ dim2 a = Z.to_nat (n_y h) /\
    dim3 a = Z.to_nat (n_t h) /\
    forall c z y t : nat,
      (c < 3)%nat -> (z < dim1 a)%nat -> (y < dim2 a)%nat ->
      (t < dim3 a)%nat ->
      (2 * (c + 3 * (y + dim2 a * (dim1 a - 1 - z + dim1 a * t))) + 2
         <= length fl)%nat /\
      item a c z y t =
      dequantize_sample (sel3 (u_scl h) c) (sel3 (u_off h) c)
        (f32_of_Z
           (sample_at native fl
              (c + 3 * (y + dim2 a * (dim1 a - 1 - z + dim1 a * t))))).
Proof.
  intros Hy Hz Ht Hlen.
  pose proof (nbt_nonneg _ _ _ Hy Hz Ht) as H0.
  unfold read_data. rewrite read_block_nonneg by assumption.
  apply Z.leb_le in Hlen as Hb. rewrite Hb. cbn [bind].
  eexists. split; [reflexivity|].
  split; [reflexivity|]. split; [reflexivity|]. split; [reflexivity|].
  intros c z y t Hc Hz' Hy' Ht'.
  cbn [dim1 dim2 dim3 item rev_axis1 rollaxis_2_1 view_F dequantize map_comp]
    in *.
  set (i := (c + 3 * (Z.to_nat (n_y h)
                      * (Z.to_nat (n_z h) - 1 - z + Z.to_nat (n_z h) * t)
                      + y))%nat).
  assert (Hi : (i < Z.to_nat (n_t h) * (Z.to_nat (n_z h) * (Z.to_nat (n_y h) * 3)))%nat).
  { unfold i.
    replace (Z.to_nat (n_y h)
             * (Z.to_nat (n_z h) - 1 - z + Z.to_nat (n_z h) * t) + y)%nat
      with (y + Z.to_nat (n_y h)
                * (Z.to_nat (n_z h) - 1 - z + Z.to_nat (n_z h) * t))%nat
      by lia.
    apply F_index_bound; lia. }
  assert (HN : Z.to_nat (2 * (3 * n_y h * n_z h * n_t h)) =
               (2 * (Z.to_nat (n_t h) * (Z.to_nat (n_z h) * (Z.to_nat (n_y h) * 3))))%nat).
  { rewrite !Z2Nat.inj_mul by lia. change (Z.to_nat 2) with 2%nat.
    change (Z.to_nat 3) with 3%nat. lia. }
  assert (Hidx : (c + 3 * (y + Z.to_nat (n_y h)
                              * (Z.to_nat (n_z h) - 1 - z + Z.to_nat (n_z h) * t)))%nat
                 = i) by (unfold i; lia).
  rewrite Hidx. split; [lia|].
  unfold dequantize_sample. f_equal. f_equal.
  rewrite (nth_indep _ _ (f32_of_Z 0)).
  - rewrite map_nth. f_equal. apply sample_of_chunks; lia.
  - rewrite !length_map, chunk2_length, length_firstn, Nat.min_l by lia.
    rewrite HN, Nat.div2_double. exact Hi.
Qed.

(** X3.  For a file whose header unpacks with non-negative extents and that
    has the [2 * 3 * n_y * n_z * n_t] bytes of the block after byte 70, [read]
    returns an array of shape (3, n_z, n_y, n_t).  Its entry (c, z, y, t) is
    [(q - u_off[c]) / u_scl[c]] in float32, where [q] is the int16 in the two
    bytes at offset [70 + 2 * (c + 3 * (y + n_y * (n_z - 1 - z + n_z * t)))]
    of the file; the conversion of [q] to float32 loses nothing. *)
Theorem read_formula (e native : byte_order) (file : list byte) (h : header) :
  unpack_header e (firstn 70 file) = Ok h ->
  0 <= n_y h -> 0 <= n_z h -> 0 <= n_t h ->
  2 * (3 * n_y h * n_z h * n_t h) <= Z.of_nat (length (skipn 70 file)) ->
  exists a : ndarray f32,
    read e native file = Ok a /\
    dim1 a = Z.to_nat (n_z h) /\ dim2 a = Z.to_nat (n_y h) /\
    dim3 a = Z.to_nat (n_t h) /\
    forall c z y t : nat,
      (c < 3)%nat -> (z < dim1 a)%nat -> (y < dim2 a)%nat ->
      (t < dim3 a)%nat ->
      exists q : Z,
        q = sample_at native (skipn 70 file)
              (c + 3 * (y + dim2 a * (dim1 a - 1 - z + dim1 a * t))) /\
        -32768 <= q <= 32767 /\
        f32_trunc (f32_of_Z q) = Some q /\
        item a c z y t =
        f32_div (f32_sub (f32_of_Z q) (sel3 (u_off h) c)) (sel3 (u_scl h) c).
Proof.
  intros Hu Hy Hz Ht Hlen.
  destruct (read_data_formula native h (skipn 70 file) Hy Hz Ht Hlen)
    as (a & Ha & H1 & H2 & H3 & Hi).
  exists a. rewrite read_unfold, Hu. cbn [bind].
  split; [exact Ha|]. split; [exact H1|]. split; [exact H2|].
  split; [exact H3|].
  intros c z y t Hc Hz' Hy' Ht'.
  destruct (Hi c z y t Hc Hz' Hy' Ht') as [Hb Hv].
  eexists. split; [reflexivity|].
  pose proof (sample_at_range native (skipn 70 file) _ Hb) as Hr.
  split; [apply int16_range, Hr|].
  split; [apply astype_float32_exact, Hr|exact Hv].
Qed.

Lemma read_formula_witness :
  exists a : ndarray f32,
    read LittleEndian LittleEndian described_file = Ok a /\
    item a 0 0 0 0 = f32_div (f32_sub (f32_of_Z 25185) f32_zero) f32_one.
Proof.
  destruct (read_formula LittleEndian LittleEndian described_file
              (one_point_header 7 2))
    as (a & Ha & H1 & H2 & H3 & Hi).
  - vm_compute; reflexivity.
  - vm_compute; discriminate.
  - vm_compute; discriminate.
  - vm_compute; discriminate.
  - vm_compute; discriminate.
  - exists a. split; [exact Ha|].
    destruct (Hi 0%nat 0%nat 0%nat 0%nat) as (q & Hq & _ & _ & Hv);
      try (rewrite ?H1, ?H2, ?H3; vm_compute; lia).
    rewrite Hv, Hq, H1, H2. vm_compute. reflexivity.
Defined.

(** With non-negative extents and every buffer granted, [read] fails exactly
    when fewer than [2 * 3 * n_y * n_z * n_t] bytes follow byte 70. *)
Lemma read_short_iff
    (e native : byte_order) (file : list byte) (h : header) :
  unpack_header e (firstn 70 file) = Ok h ->
  0 <= n_y h -> 0 <= n_z h -> 0 <= n_t h ->
  (Z.of_nat (length (skipn 70 file)) < 2 * (3 * n_y h * n_z h * n_t h)
   <-> read e native file = Err ValueError) /\
  (Z.of_nat (length (skipn 70 file)) < 2 * (3 * n_y h * n_z h * n_t h)
   <-> forall a, read e native file <> Ok a).
Proof.
  intros Hu Hy Hz Ht.
  rewrite read_unfold, Hu. cbn [bind]. unfold read_data.
  rewrite read_block_nonneg by assumption.
  destruct (2 * (3 * n_y h * n_z h * n_t h)
            <=? Z.of_nat (length (skipn 70 file))) eqn:Hc.
  - apply Z.leb_le in Hc. cbn [bind]. split; split; intro H; try lia.
    + discriminate H.
    + exfalso. eapply H. reflexivity.
  - apply Z.leb_gt in Hc. cbn [bind]. split; split; intro H; try exact Hc.
    + reflexivity.
    + intros a Ha. discriminate Ha.
Qed.

(** X5.  [read] never looks past the block: when the bytes after the header
    are enough (non-negative extents), whatever is appended to the file
    leaves the outcome as it is. *)
Theorem read_ignores_what_follows
    (e native : byte_order) (hd rest extra : list byte) (h : header) :
  length hd = 70%nat ->
  unpack_header e hd = Ok h ->
  0 <= n_y h -> 0 <= n_z h -> 0 <= n_t h ->
  2 * (3 * n_y h * n_z h * n_t h) <= Z.of_nat (length rest) ->
  read e native (hd ++ rest ++ extra) = read e native (hd ++ rest).
Proof.
  intros Hl Hu Hy Hz Ht Hlen.
  pose proof (nbt_nonneg _ _ _ Hy Hz Ht) as H0.
  rewrite !read_app by exact Hl. rewrite Hu. cbn [bind]. unfold read_data.
  rewrite !read_block_nonneg by assumption.
  rewrite length_app.
  replace (2 * (3 * n_y h * n_z h * n_t h)
           <=? Z.of_nat (length rest + length extra)) with true
    by (symmetry; apply Z.leb_le; lia).
  replace (2 * (3 * n_y h * n_z h * n_t h) <=? Z.of_nat (length rest))
    with true by (symmetry; apply Z.leb_le; lia).
  rewrite firstn_app.
  replace (Z.to_nat (2 * (3 * n_y h * n_z h * n_t h)) - length rest)%nat
    with 0%nat by lia.
  now rewrite firstn_O, app_nil_r.
Qed.

Lemma read_ignores_what_follows_witness :
  read LittleEndian LittleEndian
    (firstn 70 wrong_tag_file ++ skipn 70 wrong_tag_file
       ++ list_byte_of_string "trailer")
  = read LittleEndian LittleEndian
      (firstn 70 wrong_tag_file ++ skipn 70 wrong_tag_file).
Proof.
  apply (read_ignores_what_follows LittleEndian LittleEndian _ _ _
           (one_point_header 8 0)).
  - vm_compute; reflexivity.
  - vm_compute; reflexivity.
  - vm_compute; discriminate.
  - vm_compute; discriminate.
  - vm_compute; discriminate.
  - vm_compute; discriminate.
Defined.

(** * Header, block and read together *)

Lemma float_read_back_valid (x : f32) :
  f32_valid x = true -> float_read_back x = x.
Proof.
  intro Hv. unfold float_read_back. rewrite (f32_of_f64_valid x Hv).
  rewrite Z.mod_small by (apply f32_bits_range, Hv).
  apply f32_of_bits_bits, Hv.
Qed.

Lemma sel3_triple_map {A B : Type} (f : A -> B) (v : A * A * A) (ind : nat) :
  sel3 (triple_map f v) ind = f (sel3 v ind).
Proof.
  destruct v as [[a b] c]. destruct ind as [|[|ind]]; reflexivity.
Qed.

(** The block of [out] seen through the views of [read]: entry (c, z, y, t)
    is the code at (c, z, y, t). *)
Lemma reordered_view_item (out : ndarray Z) (c z y t : nat) :
  (c < 3)%nat -> (z < dim1 out)%nat -> (y < dim2 out)%nat ->
  (t < dim3 out)%nat ->
  item (rev_axis1 (rollaxis_2_1
          (view_F (S754_zero false)
             (map f32_of_Z (items_F (rollaxis_2_1 (rev_axis1 out))))
             (dim2 out) (dim1 out) (dim3 out)))) c z y t
  = f32_of_Z (item out c z y t).
Proof.
  intros Hc Hz Hy Ht.
  assert (Hzz : (dim1 out - 1 - z < dim1 out)%nat) by lia.
  cbn [item rev_axis1 rollaxis_2_1 view_F dim1 dim2 dim3].
  rewrite (nth_indep _ _ (f32_of_Z 0))
    by (rewrite length_map, items_F_length; now apply F_index_bound).
  rewrite map_nth.
  pose proof (nth_items_F (rollaxis_2_1 (rev_axis1 out)) 0 c y
                (dim1 out - 1 - z)%nat t Hc Hy Hzz Ht) as N.
  cbn [item rev_axis1 rollaxis_2_1 dim1 dim2 dim3] in N. rewrite N.
  replace (dim1 out - 1 - (dim1 out - 1 - z))%nat with z by lia.
  reflexivity.
Qed.

(** X6.  A file made of a packed header and, right after it, the data block
    of the codes [out], the extents of the header being the shape of [out],
    is read back to the shape of [out]; its entry (c, z, y, t) is
    [(out[c, z, y, t] - u_off[c]) / u_scl[c]] in float32, with the scale and
    offset as the header's 32 bits give them back (themselves, when they are
    binary32 values).  Bytes after the block do not matter. *)
Theorem read_header_and_block
    (e native : byte_order) (h : header) (hd : list byte) (out : ndarray Z)
    (rest : list byte) :
  pack_header e h = Ok hd ->
  int16_array out ->
  n_z h = Z.of_nat (dim1 out) -> n_y h = Z.of_nat (dim2 out) ->
  n_t h = Z.of_nat (dim3 out) ->
  exists a : ndarray f32,
    read e native (hd ++ data_block native out ++ rest) = Ok a /\
    dim1 a = dim1 out /\ dim2 a = dim2 out /\ dim3 a = dim3 out /\
    forall c z y t : nat,
      (c < 3)%nat -> (z < dim1 out)%nat -> (y < dim2 out)%nat ->
      (t < dim3 out)%nat ->
      item a c z y t =
      f32_div
        (f32_sub (f32_of_Z (item out c z y t))
           (float_read_back (sel3 (u_off h) c)))
        (float_read_back (sel3 (u_scl h) c)).
Proof.
  intros Hp Ho Hz Hy Ht.
  rewrite (read_app _ _ _ _ (pack_header_length _ _ _ Hp)).
  rewrite (unpack_header_packed _ _ _ Hp). cbn [bind].
  unfold read_data. cbn [header_read_back n_y n_z n_t u_scl u_off].
  rewrite Hz, Hy, Ht, (read_block_data_block native out rest Ho). cbn [bind].
  eexists. split; [reflexivity|].
  split; [reflexivity|]. split; [reflexivity|]. split; [reflexivity|].
  intros c z y t Hc Hz' Hy' Ht'.
  rewrite dequantize_item, !sel3_triple_map. unfold dequantize_sample.
  now rewrite reordered_view_item.
Qed.

Lemma read_header_and_block_witness :
  exists (hd : list byte) (a : ndarray f32),
    pack_header LittleEndian two_level_header = Ok hd /\
    read LittleEndian LittleEndian
      (hd ++ data_block LittleEndian two_level_codes ++ []) = Ok a /\
    dim1 a = 2%nat /\
    item a 2 1 0 0 = f32_div (f32_sub (f32_of_Z 5) f32_zero) f32_one.
Proof.
  assert (Hr : int16_array two_level_codes).
  { intros c i j k Hc Hi _ _. apply int16_range.
    cbn [two_level_codes item dim1] in *. lia. }
  destruct (pack_header LittleEndian two_level_header) as [hd|x] eqn:E;
    [|vm_compute in E; discriminate].
  destruct (read_header_and_block LittleEndian LittleEndian two_level_header
              hd two_level_codes [] E Hr eq_refl eq_refl eq_refl)
    as (a & Ha & H1 & _ & _ & Hi).
  exists hd, a. split; [reflexivity|]. split; [exact Ha|].
  split; [exact H1|].
  rewrite (Hi 2%nat 1%nat 0%nat 0%nat) by (cbn; lia). reflexivity.
Defined.

Lemma sample_at_app (native : byte_order) (l1 l2 : list byte) (i : nat) :
  (2 * i + 2 <= length l1)%nat ->
  sample_at native (l1 ++ l2) i = sample_at native l1 i.
Proof.
  intro Hi. unfold sample_at. f_equal.
  rewrite skipn_app.
  replace (2 * i - length l1)%nat with 0%nat by lia. rewrite skipn_O.
  rewrite firstn_app, length_skipn.
  replace (2 - (length l1 - 2 * i))%nat with 0%nat by lia.
  now rewrite firstn_O, app_nil_r.
Qed.

(** X7.  [read] applied to a file that [write] produced, for a field whose
    shape agrees with the counts of the grid, never fails: it returns an array
    with the shape of the field.  The entries are not those of the field:
    every entry whose sample number
    [c + 3 * (y + n_y * (n_z - 1 - z + n_z * t))] lies within the first
    [strlen / 2] samples is computed from two characters of the description,
    with the scale and offset of the header. *)
Theorem read_of_written_file_succeeds
    (e native : byte_order) (prog_name version now : string)
    (tsdat : Tsdata.t) (file : list byte) :
  write e native prog_name version now tsdat = Ok file ->
  Grid.n_z (Tsdata.grid tsdat) = Z.of_nat (dim1 (Tsdata.utotal tsdat)) ->
  Grid.n_y (Tsdata.grid tsdat) = Z.of_nat (dim2 (Tsdata.utotal tsdat)) ->
  exists (a : ndarray f32) (scl off : f32 * f32 * f32) (out : ndarray Z),
    read e native file = Ok a /\
    quantize_all (Tsdata.utotal tsdat) = Ok (scl, off, out) /\
    dim1 a = dim1 (Tsdata.utotal tsdat) /\
    dim2 a = dim2 (Tsdata.utotal tsdat) /\
    dim3 a = dim3 (Tsdata.utotal tsdat) /\
    forall c z y t : nat,
      (c < 3)%nat -> (z < dim1 a)%nat -> (y < dim2 a)%nat ->
      (t < dim3 a)%nat ->
      (2 * (c + 3 * (y + dim2 a * (dim1 a - 1 - z + dim1 a * t))) + 2
         <= String.length (desc_str prog_name version now))%nat ->
      item a c z y t =
      f32_div
        (f32_sub
           (f32_of_Z
              (sample_at native
                 (list_byte_of_string (desc_str prog_name version now))
                 (c + 3 * (y + dim2 a * (dim1 a - 1 - z + dim1 a * t)))))
           (float_read_back (sel3 off c)))
        (float_read_back (sel3 scl c)).
Proof.
  intros H Hnz Hny.
  apply write_layout in H
    as (hd & scl & off & out & z_0 & Hq & Hp & Hl & -> & Hb).
  rewrite (read_app _ _ _ _ Hl), (unpack_header_packed _ _ _ Hp). cbn [bind].
  set (ts := Tsdata.utotal tsdat) in *.
  set (h := header_read_back _).
  assert (Ey : n_y h = Z.of_nat (dim2 ts)) by exact Hny.
  assert (Ez : n_z h = Z.of_nat (dim1 ts)) by exact Hnz.
  assert (Et : n_t h = Z.of_nat (dim3 ts)) by reflexivity.
  destruct (read_data_formula native h
              (list_byte_of_string (desc_str prog_name version now)
                 ++ data_block native out))
    as (a & Ha & H1 & H2 & H3 & Hi).
  - rewrite Ey. lia.
  - rewrite Ez. lia.
  - rewrite Et. lia.
  - rewrite length_app, Hb, Ey, Ez, Et. lia.
  - rewrite Ey, Ez, Et, !Nat2Z.id in *.
    exists a, scl, off, out.
    split; [exact Ha|]. split; [exact Hq|]. split; [exact H1|].
    split; [exact H2|]. split; [exact H3|].
    intros c z y t Hc Hz Hy Ht Hd.
    destruct (Hi c z y t Hc Hz Hy Ht) as [_ Hv].
    rewrite Hv. unfold dequantize_sample.
    rewrite sample_at_app by (rewrite list_byte_of_string_length; exact Hd).
    unfold h. cbn [header_read_back u_scl u_off].
    now rewrite !sel3_triple_map.
Qed.

Lemma read_of_written_file_succeeds_witness :
  exists (file : list byte) (a : ndarray f32),
    write LittleEndian LittleEndian "pyTurbSim" "0.4"
      "Jan 01, 2020, 00:00 (UTC)" one_point_field = Ok file /\
    read LittleEndian LittleEndian file = Ok a /\
    dim1 a = 1%nat /\ dim2 a = 1%nat /\ dim3 a = 1%nat.
Proof.
  destruct (write LittleEndian LittleEndian "pyTurbSim" "0.4"
              "Jan 01, 2020, 00:00 (UTC)" one_point_field)
    as [file|x] eqn:E; [|vm_compute in E; discriminate].
  destruct (read_of_written_file_succeeds _ _ _ _ _ _ _ E eq_refl eq_refl)
    as (a & scl & off & out & Ha & _ & H1 & H2 & H3 & _).
  exists file, a. split; [reflexivity|]. split; [exact Ha|].
  split; [exact H1|]. split; [exact H2|exact H3].
Defined.

(** * Minimum and maximum of a component *)

Lemma f32_leb_key (x y : f32) :
  f32_isnan x = false -> f32_isnan y = false ->
  (f32_leb x y = true <-> key_le (f32_key x) (f32_key y)).
Proof.
  unfold f32_leb, SFleb, SFcompare.
  destruct x as [sx|sx| |sx mx ex], y as [sy|sy| |sy my ey];
    try discriminate; intros _ _;
    try (destruct sx); try (destruct sy); cbn [f32_key key_le];
    try (split; intro H; [lia|reflexivity]);
    try (split; intro H; [discriminate H|lia]).
  - change (Pos.compare_cont Eq mx my) with (Pos.compare mx my).
    destruct (Z.compare_spec ex ey), (Pos.compare_spec mx my); cbn [CompOpp];
      split; intro H; try reflexivity; try discriminate H; lia.
  - change (Pos.compare_cont Eq mx my) with (Pos.compare mx my).
    destruct (Z.compare_spec ex ey), (Pos.compare_spec mx my);
      split; intro H; try reflexivity; try discriminate H; lia.
Qed.

Lemma key_le_trans (a b c : Z * Z * Z) :
  key_le a b -> key_le b c -> key_le a c.
Proof.
  destruct a as [[a1 a2] a3], b as [[b1 b2] b3], c as [[c1 c2] c3].
  unfold key_le. lia.
Qed.

Lemma key_le_total (a b : Z * Z * Z) : key_le a b \/ key_le b a.
Proof.
  destruct a as [[a1 a2] a3], b as [[b1 b2] b3]. unfold key_le. lia.
Qed.

Lemma f32_leb_refl (x : f32) : f32_isnan x = false -> f32_leb x x = true.
Proof.
  intro Hx. apply f32_leb_key; try exact Hx.
  destruct (f32_key x) as [[a b] c]. unfold key_le. lia.
Qed.

Lemma f32_leb_trans (x y z : f32) :
  f32_isnan x = false -> f32_isnan y = false -> f32_isnan z = false ->
  f32_leb x y = true -> f32_leb y z = true -> f32_leb x z = true.
Proof.
  intros Hx Hy Hz Hxy Hyz.
  apply f32_leb_key in Hxy, Hyz; try assumption.
  apply f32_leb_key; try assumption. eapply key_le_trans; eassumption.
Qed.

Lemma f32_leb_total (x y : f32) :
  f32_isnan x = false -> f32_isnan y = false ->
  f32_leb x y = false -> f32_leb y x = true.
Proof.
  intros Hx Hy Hxy. apply f32_leb_key; try assumption.
  destruct (key_le_total (f32_key x) (f32_key y)) as [H|H]; [|exact H].
  apply f32_leb_key in H; try assumption. congruence.
Qed.

(** The running minimum is one of the values seen and is below each. *)
Lemma fold_min_bound (l : list f32) :
  forall x, no_nan (x :: l) ->
  In (fold_left min_step l x) (x :: l) /\
  f32_isnan (fold_left min_step l x) = false /\
  forall y, In y (x :: l) -> f32_leb (fold_left min_step l x) y = true.
Proof.
  induction l as [|y l IH]; intros x Hn.
  - inversion Hn as [|? ? Hx _]; subst. cbn [fold_left].
    split; [now left|]. split; [exact Hx|].
    intros z [<-|[]]. now apply f32_leb_refl.
  - inversion Hn as [|? ? Hx Hn']; subst.
    inversion Hn' as [|? ? Hy Hl]; subst.
    cbn [fold_left].
    assert (Hm : (min_step x y = x \/ min_step x y = y) /\
                 f32_isnan (min_step x y) = false /\
                 f32_leb (min_step x y) x = true /\
                 f32_leb (min_step x y) y = true).
    { unfold min_step. rewrite Hx, orb_false_r.
      destruct (f32_leb x y) eqn:Hc.
      - repeat split; auto. now apply f32_leb_refl.
      - repeat split; auto; [now apply f32_leb_total|now apply f32_leb_refl]. }
    destruct Hm as (Hin & Hnm & Hmx & Hmy).
    destruct (IH (min_step x y)) as (Ir & Nr & Br).
    { constructor; assumption. }
    split; [|split; [exact Nr|]].
    + destruct Ir as [Ir|Ir]; [|right; right; exact Ir].
      rewrite <- Ir. destruct Hin as [->| ->]; [now left|right; now left].
    + pose proof (Br _ (or_introl eq_refl)) as Hrm.
      intros z [<-|[<-|Hz]].
      * eapply f32_leb_trans; [exact Nr|exact Hnm|exact Hx|exact Hrm|exact Hmx].
      * eapply f32_leb_trans; [exact Nr|exact Hnm|exact Hy|exact Hrm|exact Hmy].
      * apply Br. now right.
Qed.

Lemma fold_max_bound (l : list f32) :
  forall x, no_nan (x :: l) ->
  In (fold_left max_step l x) (x :: l) /\
  f32_isnan (fold_left max_step l x) = false /\
  forall y, In y (x :: l) -> f32_leb y (fold_left max_step l x) = true.
Proof.
  induction l as [|y l IH]; intros x Hn.
  - inversion Hn as [|? ? Hx _]; subst. cbn [fold_left].
    split; [now left|]. split; [exact Hx|].
    intros z [<-|[]]. now apply f32_leb_refl.
  - inversion Hn as [|? ? Hx Hn']; subst.
    inversion Hn' as [|? ? Hy Hl]; subst.
    cbn [fold_left].
    assert (Hm : (max_step x y = x \/ max_step x y = y) /\
                 f32_isnan (max_step x y) = false /\
                 f32_leb x (max_step x y) = true /\
                 f32_leb y (max_step x y) = true).
    { unfold max_step. rewrite Hx, orb_false_r.
      destruct (f32_leb y x) eqn:Hc.
      - repeat split; auto. now apply f32_leb_refl.
      - repeat split; auto; [now apply f32_leb_total|now apply f32_leb_refl]. }
    destruct Hm as (Hin & Hnm & Hmx & Hmy).
    destruct (IH (max_step x y)) as (Ir & Nr & Br).
    { constructor; assumption. }
    split; [|split; [exact Nr|]].
    + destruct Ir as [Ir|Ir]; [|right; right; exact Ir].
      rewrite <- Ir. destruct Hin as [->| ->]; [now left|right; now left].
    + pose proof (Br _ (or_introl eq_refl)) as Hrm.
      intros z [<-|[<-|Hz]].
      * eapply f32_leb_trans; [exact Hx|exact Hnm|exact Nr|exact Hmx|exact Hrm].
      * eapply f32_leb_trans; [exact Hy|exact Hnm|exact Nr|exact Hmy|exact Hrm].
      * apply Br. now right.
Qed.

(** X8.  For a component that has samples and no NaN among them, the two
    values [write] takes as [u_minmax] are samples of the component, and every
    sample lies between them: they are its minimum and its maximum. *)
Theorem min_max_bound_the_samples (xs : list f32) :
  xs <> [] -> no_nan xs ->
  exists mn mx : f32,
    np_min xs = Ok mn /\ np_max xs = Ok mx /\
    In mn xs /\ In mx xs /\
    forall x, In x xs -> f32_leb mn x = true /\ f32_leb x mx = true.
Proof.
  intros Hne Hn. destruct xs as [|x l]; [contradiction|].
  destruct (fold_min_bound l x Hn) as (Imn & _ & Bmn).
  destruct (fold_max_bound l x Hn) as (Imx & _ & Bmx).
  exists (fold_left min_step l x), (fold_left max_step l x).
  repeat split; auto.
Qed.

Lemma min_max_bound_the_samples_witness :
  exists mn mx : f32,
    np_min [f32_of_Z 1; f32_of_Z (-3); f32_tenth] = Ok mn /\
    np_max [f32_of_Z 1; f32_of_Z (-3); f32_tenth] = Ok mx /\
    f32_leb mn f32_tenth = true /\ f32_leb f32_tenth mx = true.
Proof.
  destruct (min_max_bound_the_samples [f32_of_Z 1; f32_of_Z (-3); f32_tenth])
    as (mn & mx & Hmn & Hmx & _ & _ & B).
  - discriminate.
  - repeat constructor.
  - exists mn, mx. split; [exact Hmn|]. split; [exact Hmx|].
    apply B. right. right. now left.
Defined.

Lemma min_step_nan (x : f32) : min_step x S754_nan = S754_nan.
Proof. destruct x; reflexivity. Qed.

Lemma max_step_nan (x : f32) : max_step x S754_nan = S754_nan.
Proof. destruct x as [s|s| |s m e]; try destruct s; reflexivity. Qed.

Lemma fold_min_from_nan (l : list f32) :
  fold_left min_step l S754_nan = S754_nan.
Proof. induction l as [|y l IH]; [reflexivity|exact IH]. Qed.

Lemma max_step_from_nan (y : f32) : max_step S754_nan y = S754_nan.
Proof.
  unfold max_step. cbn [f32_isnan]. now rewrite orb_true_r.
Qed.

Lemma fold_max_from_nan (l : list f32) :
  fold_left max_step l S754_nan = S754_nan.
Proof.
  induction l as [|y l IH]; [reflexivity|].
  cbn [fold_left]. now rewrite max_step_from_nan.
Qed.

Lemma fold_min_nan (l : list f32) :
  forall x, In S754_nan (x :: l) -> fold_left min_step l x = S754_nan.
Proof.
  induction l as [|y l IH]; intros x Hin.
  - destruct Hin as [->|[]]. reflexivity.
  - cbn [fold_left]. destruct Hin as [->|[->|Hin]].
    + apply fold_min_from_nan.
    + rewrite min_step_nan. apply fold_min_from_nan.
    + apply IH. now right.
Qed.

Lemma fold_max_nan (l : list f32) :
  forall x, In S754_nan (x :: l) -> fold_left max_step l x = S754_nan.
Proof.
  induction l as [|y l IH]; intros x Hin.
  - destruct Hin as [->|[]]. reflexivity.
  - cbn [fold_left]. destruct Hin as [->|[->|Hin]].
    + rewrite max_step_from_nan. apply fold_max_from_nan.
    + rewrite max_step_nan. apply fold_max_from_nan.
    + apply IH. now right.
Qed.

(** X9.  One NaN among the samples of a component is enough: minimum and
    maximum are NaN, the component does not count as constant, and the scale
    and the offset that go into the header are both NaN.  Whatever code is
    stored, dequantising it with these gives NaN. *)
Theorem nan_sample_spoils_parameters (xs : list f32) :
  In S754_nan xs ->
  np_min xs = Ok S754_nan /\ np_max xs = Ok S754_nan /\
  quant_params xs = Ok (S754_nan, S754_nan) /\
  forall q : f32, dequantize_sample S754_nan S754_nan q = S754_nan.
Proof.
  intro Hin. destruct xs as [|x l]; [destruct Hin|].
  assert (Hmn : np_min (x :: l) = Ok S754_nan)
    by (cbn [np_min]; now rewrite fold_min_nan).
  assert (Hmx : np_max (x :: l) = Ok S754_nan)
    by (cbn [np_max]; now rewrite fold_max_nan).
  split; [exact Hmn|]. split; [exact Hmx|]. split.
  - unfold quant_params. rewrite Hmn, Hmx. reflexivity.
  - intro q. destruct q; reflexivity.
Qed.

Lemma nan_sample_spoils_parameters_witness :
  quant_params [f32_of_Z 1; S754_nan; f32_of_Z 2] = Ok (S754_nan, S754_nan).
Proof.
  apply (nan_sample_spoils_parameters [f32_of_Z 1; S754_nan; f32_of_Z 2]).
  right. now left.
Defined.

(** * Negative extents in a header *)

Lemma reshape_two_unknown (len d1 d2 d3 : Z) :
  (d1 < 0 /\ d2 < 0) \/ (d1 < 0 /\ d3 < 0) \/ (d2 < 0 /\ d3 < 0) ->
  reshape_dims len [3; d1; d2; d3] = Err ValueError.
Proof.
  intro H. unfold reshape_dims. cbn [filter].
  change (3 <? 0) with false. cbv iota.
  destruct (d1 <? 0) eqn:E1, (d2 <? 0) eqn:E2, (d3 <? 0) eqn:E3;
    try reflexivity;
    rewrite ?Z.ltb_lt, ?Z.ltb_ge in *; lia.
Qed.

(** Two or three negative extents: the bytes that were read are refused by
    [fromstring] or by [reshape]. *)
Lemma read_two_negative
    (e native : byte_order) (file : list byte) (h : header) :
  unpack_header e (firstn 70 file) = Ok h ->
  (n_y h < 0 /\ n_z h < 0) \/ (n_y h < 0 /\ n_t h < 0)
    \/ (n_z h < 0 /\ n_t h < 0) ->
  read e native file = Err ValueError.
Proof.
  intros Hu Hneg. rewrite read_unfold, Hu. cbn [bind].
  unfold read_data, read_block.
  destruct (fl_read (2 * (3 * n_y h * n_z h * n_t h)) (skipn 70 file))
    as [raw r].
  destruct (fromstring_int16 native raw) as [q|x] eqn:Eq.
  - cbn [bind]. unfold reshape_F.
    now rewrite (reshape_two_unknown _ _ _ _ Hneg).
  - unfold fromstring_int16 in Eq.
    destruct (Nat.even (length raw)); [discriminate Eq|].
    injection Eq as <-. reflexivity.
Qed.

Lemma reshape_last_unknown (len d1 d2 : Z) :
  0 < d1 -> 0 < d2 -> len mod (3 * d1 * d2) = 0 ->
  reshape_dims len [3; d1; d2; -1] = Ok [3; d1; d2; len / (3 * d1 * d2)].
Proof.
  intros H1 H2 Hm. unfold reshape_dims. cbn [filter].
  change (0 <=? 3) with true. change (3 <? 0) with false.
  change (0 <=? -1) with false. change (-1 <? 0) with true.
  replace (0 <=? d1) with true by (symmetry; apply Z.leb_le; lia).
  replace (0 <=? d2) with true by (symmetry; apply Z.leb_le; lia).
  replace (d1 <? 0) with false by (symmetry; apply Z.ltb_ge; lia).
  replace (d2 <? 0) with false by (symmetry; apply Z.ltb_ge; lia).
  cbn [length fold_right map].
  replace (3 * (d1 * (d2 * 1))) with (3 * d1 * d2) by ring.
  assert (Hk : 0 < 3 * d1 * d2) by nia.
  replace (3 * d1 * d2 =? 0) with false by (symmetry; apply Z.eqb_neq; lia).
  rewrite Hm. cbn [orb negb Z.eqb].
  change (3 <? 0) with false.
  replace (d1 <? 0) with false by (symmetry; apply Z.ltb_ge; lia).
  replace (d2 <? 0) with false by (symmetry; apply Z.ltb_ge; lia).
  reflexivity.
Qed.

(** n_t = -1 with every buffer granted: all bytes up to the end of the file
    are taken, and [k] whole time steps give [k] time steps. *)
Lemma read_open_ended
    (e native : byte_order) (file : list byte) (h : header) (k : nat) :
  unpack_header e (firstn 70 file) = Ok h ->
  0 < n_y h -> 0 < n_z h -> n_t h = -1 ->
  Z.of_nat (length (skipn 70 file)) = 2 * (3 * n_y h * n_z h * Z.of_nat k) ->
  exists a : ndarray f32,
    read e native file = Ok a /\
    dim1 a = Z.to_nat (n_z h) /\ dim2 a = Z.to_nat (n_y h) /\ dim3 a = k.
Proof.
  intros Hu Hy Hz Ht Hlen. rewrite read_unfold, Hu. cbn [bind].
  unfold read_data, read_block, fl_read. rewrite Ht.
  assert (Hk : 0 < 3 * n_y h * n_z h) by nia.
  replace (2 * (3 * n_y h * n_z h * -1) <? 0) with true
    by (symmetry; apply Z.ltb_lt; lia).
  unfold fromstring_int16.
  assert (Hl : length (skipn 70 file)
               = (2 * Z.to_nat (3 * n_y h * n_z h * Z.of_nat k))%nat) by lia.
  rewrite Hl.
  replace (Nat.even (2 * Z.to_nat (3 * n_y h * n_z h * Z.of_nat k))) with true
    by (symmetry; apply Nat.even_spec; eexists; reflexivity).
  cbn [bind]. unfold reshape_F.
  rewrite !length_map, chunk2_length, Hl, Nat.div2_double.
  rewrite Z2Nat.id by nia.
  rewrite reshape_last_unknown;
    [|exact Hy|exact Hz|rewrite Z.mul_comm; apply Z.mod_mul; lia].
  cbn [bind].
  rewrite (Z.mul_comm (3 * n_y h * n_z h)), Z.div_mul by lia.
  rewrite Nat2Z.id.
  eexists. split; [reflexivity|]. repeat split.
Qed.

(** * Integer samples on a power-of-two range *)

(** A 24-digit mantissa and an exponent that give a positive integer are the
    float32 of that integer. *)
Lemma f32_of_Z_repr (s : bool) (p m : positive) (e : Z) :
  Z.pos (digits2_pos m) = 24 -> e <= 0 ->
  Z.pos m = Z.pos p * 2 ^ (- e) ->
  f32_of_Z (cond_Zopp s (Z.pos p)) = S754_finite s m e.
Proof.
  intros Hd He Hv.
  assert (Hm : m = shl_pos p (Z.to_nat (- e))).
  { apply Pos2Z.inj. rewrite shl_pos_val, Z2Nat.id by lia. exact Hv. }
  assert (Hdp : Z.pos (digits2_pos p) = 24 + e).
  { rewrite Hm, shl_pos_digits in Hd. lia. }
  assert (Hp : Z.pos p < 2 ^ 24).
  { pose proof (digits2_pos_bounds p) as [_ Hhi].
    apply Z.lt_le_trans with (2 ^ Z.pos (digits2_pos p)); [exact Hhi|].
    apply Z.pow_le_mono_r; lia. }
  destruct s; cbn [cond_Zopp Z.opp].
  - rewrite f32_of_Z_neg by exact Hp. unfold norm. rewrite Hdp, Hm.
    f_equal; [f_equal|]; lia.
  - rewrite f32_of_Z_pos by exact Hp. unfold norm. rewrite Hdp, Hm.
    f_equal; [f_equal|]; lia.
Qed.

Lemma cond_Zopp_abs (s : bool) (m : positive) (a k : Z) :
  0 < k -> cond_Zopp s (Z.pos m) = a * k ->
  a = cond_Zopp s (Z.abs a) /\ Z.pos m = Z.abs a * k /\ a <> 0.
Proof.
  intros Hk Hv. destruct s; cbn [cond_Zopp] in *.
  - assert (a < 0) by nia. rewrite Z.abs_neq by lia. split; [lia|]. nia.
  - assert (0 < a) by nia. rewrite Z.abs_eq by lia. split; [lia|]. nia.
Qed.

Lemma Zabs_pos (a : Z) : a <> 0 -> exists p, Z.abs a = Z.pos p.
Proof.
  intro Ha. destruct a as [|p|p]; [contradiction| |]; exists p; reflexivity.
Qed.

Lemma f32_of_Z_pow2 (j : Z) :
  0 <= j <= 23 -> f32_of_Z (2 ^ j) = S754_finite false 8388608 (j - 23).
Proof.
  intro Hj.
  assert (Hpos : 0 < 2 ^ j) by (apply Z.pow_pos_nonneg; lia).
  destruct (2 ^ j) as [|p|p] eqn:Ep; try lia.
  apply (f32_of_Z_repr false p 8388608 (j - 23)); [reflexivity|lia|].
  rewrite <- Ep, <- Z.pow_add_r by lia.
  replace (j + - (j - 23)) with 23 by lia. reflexivity.
Qed.

Lemma digits_24_bounds (m : positive) :
  Z.pos (digits2_pos m) = 24 -> 2 ^ 23 <= Z.pos m < 2 ^ 24.
Proof.
  intro Hd. pose proof (digits2_pos_bounds m) as H. rewrite Hd in H.
  exact H.
Qed.

(** Multiplying an integer by a power of two, and dividing it back, are
    exact as long as the product stays below 2^24. *)
Lemma f32_mul_pow2 (a j : Z) :
  0 <= j <= 23 -> Z.abs (a * 2 ^ j) < 2 ^ 24 ->
  f32_mul (f32_of_Z a) (f32_of_Z (2 ^ j)) = f32_of_Z (a * 2 ^ j) /\
  f32_mul (f32_of_Z (2 ^ j)) (f32_of_Z a) = f32_of_Z (a * 2 ^ j).
Proof.
  intros Hj Hb.
  assert (Hpj : 1 <= 2 ^ j)
    by (assert (0 < 2 ^ j) by (apply Z.pow_pos_nonneg; lia); lia).
  rewrite (f32_of_Z_pow2 j Hj).
  destruct (Z.eq_dec a 0) as [->|Hna]; [split; reflexivity|].
  assert (Ha : Z.abs a < 2 ^ 24) by (rewrite Z.abs_mul in Hb; nia).
  destruct (f32_of_Z_finite a Hna Ha) as (s & m & e & E & Hd & He & Hv).
  assert (Hpe : 0 < 2 ^ (- e)) by (apply Z.pow_pos_nonneg; lia).
  destruct (cond_Zopp_abs s m a _ Hpe Hv) as (Hsa & Hm & _).
  destruct (Zabs_pos a Hna) as (p & Hp).
  pose proof (digits_24_bounds m Hd) as Hmb.
  assert (Hej : e + j <= 0).
  { destruct (Z_le_gt_dec (e + j) 0) as [|Hgt]; [assumption|exfalso].
    rewrite Z.abs_mul, (Z.abs_eq (2 ^ j)) in Hb by lia.
    assert (Hle : 2 ^ (- e) * 2 <= 2 ^ j).
    { rewrite <- (Z.pow_1_r 2) at 2. rewrite <- Z.pow_add_r by lia.
      apply Z.pow_le_mono_r; lia. }
    nia. }
  assert (R : f32_of_Z (a * 2 ^ j) = S754_finite s m (e + j)).
  { assert (Hap : exists q, Z.abs (a * 2 ^ j) = Z.pos q).
    { apply Zabs_pos. nia. }
    destruct Hap as (q & Hq).
    assert (Hs : a * 2 ^ j = cond_Zopp s (Z.pos q)).
    { rewrite <- Hq, Z.abs_mul, (Z.abs_eq (2 ^ j)) by lia.
      rewrite Hsa at 1. destruct s; cbn [cond_Zopp]; ring. }
    rewrite Hs. apply f32_of_Z_repr; [exact Hd|exact Hej|].
    rewrite <- Hq, Z.abs_mul, (Z.abs_eq (2 ^ j)), Hm by lia.
    rewrite <- !Z.mul_assoc, <- Z.pow_add_r by lia.
    f_equal. f_equal. lia. }
  rewrite R, E. unfold f32_mul. cbn [SFmul]. split.
  - rewrite mul_2_23.
    rewrite binary_round_aux_exact by (try assumption; lia).
    rewrite xorb_false_r. f_equal. lia.
  - rewrite Pos.mul_comm, mul_2_23.
    rewrite binary_round_aux_exact by (try assumption; lia).
    cbn [xorb]. f_equal. lia.
Qed.

Lemma f32_div_pow2 (a j : Z) :
  0 <= j <= 23 -> Z.abs (a * 2 ^ j) < 2 ^ 24 ->
  f32_div (f32_of_Z (a * 2 ^ j)) (f32_of_Z (2 ^ j)) = f32_of_Z a.
Proof.
  intros Hj Hb.
  assert (Hpj : 1 <= 2 ^ j)
    by (assert (0 < 2 ^ j) by (apply Z.pow_pos_nonneg; lia); lia).
  rewrite (f32_of_Z_pow2 j Hj).
  destruct (Z.eq_dec a 0) as [->|Hna]; [reflexivity|].
  assert (Hnz : a * 2 ^ j <> 0) by nia.
  destruct (f32_of_Z_finite _ Hnz Hb) as (s & m & e & E & Hd & He & Hv).
  assert (Hpe : 0 < 2 ^ (- e)) by (apply Z.pow_pos_nonneg; lia).
  destruct (cond_Zopp_abs s m _ _ Hpe Hv) as (Hsa & Hm & _).
  destruct (Zabs_pos a Hna) as (p & Hp).
  assert (R : f32_of_Z a = S754_finite s m (e - j)).
  { assert (Hs : a = cond_Zopp s (Z.pos p)).
    { rewrite <- Hp. rewrite Z.abs_mul, (Z.abs_eq (2 ^ j)) in Hsa by lia.
      destruct s; cbn [cond_Zopp] in *; nia. }
    rewrite Hs at 1. apply f32_of_Z_repr; [exact Hd|lia|].
    rewrite Hm, Z.abs_mul, (Z.abs_eq (2 ^ j)), Hp by lia.
    rewrite <- Z.mul_assoc, <- Z.pow_add_r by lia.
    f_equal. f_equal. lia. }
  rewrite R, E. unfold f32_div. cbn [SFdiv]. unfold SFdiv_core_binary.
  cbn [Zdigits2]. rewrite Hd.
  change (Z.pos (digits2_pos 8388608)) with 24.
  unfold fexp, emin.
  replace (Z.min (Z.max (24 + e - (24 + (j - 23)) - 24) (3 - 128 - 24))
             (e - (j - 23)))
    with (e - j - 1) by lia.
  replace (e - (j - 23) - (e - j - 1)) with 24 by lia.
  assert (Hq : Z.div_eucl (Z.shiftl (Z.pos m) 24) 8388608 = (Z.pos (xO m), 0)).
  { rewrite Z.shiftl_mul_pow2 by lia.
    pose proof (Z.div_eucl_eq (Z.pos m * 2 ^ 24) 8388608 ltac:(lia)) as Hdm.
    pose proof (Z.mod_pos_bound (Z.pos m * 2 ^ 24) 8388608 ltac:(lia)) as Hbd.
    unfold Z.modulo in Hbd.
    destruct (Z.div_eucl (Z.pos m * 2 ^ 24) 8388608) as [q r].
    cbn [fst snd] in *.
    change (2 ^ 24) with (2 * 8388608) in Hdm.
    assert (q = 2 * Z.pos m) by nia.
    f_equal; lia. }
  rewrite Hq.
  change (new_location 8388608 0) with loc_Exact.
  change (Z.pos (xO m)) with (Z.pos (shl_pos m 1)).
  rewrite binary_round_aux_exact by (try assumption; lia).
  rewrite xorb_false_r. f_equal. lia.
Qed.

Lemma SFeqb_finite (s1 s2 : bool) (m1 m2 : positive) (e1 e2 : Z) :
  SFeqb (S754_finite s1 m1 e1) (S754_finite s2 m2 e2) = true ->
  S754_finite s1 m1 e1 = S754_finite s2 m2 e2.
Proof.
  unfold SFeqb, SFcompare.
  change (Pos.compare_cont Eq m1 m2) with (Pos.compare m1 m2).
  destruct s1, s2, (Z.compare_spec e1 e2), (Pos.compare_spec m1 m2);
    cbn [CompOpp]; try discriminate; intros _; subst; reflexivity.
Qed.

(** [==] tells two different integers apart. *)
Lemma f32_eqb_of_Z (a b : Z) :
  Z.abs a < 2 ^ 24 -> Z.abs b < 2 ^ 24 ->
  f32_eqb (f32_of_Z a) (f32_of_Z b) = true -> a = b.
Proof.
  intros Ha Hb H.
  assert (E : f32_of_Z a = f32_of_Z b).
  { destruct (Z.eq_dec a 0) as [->|Hna], (Z.eq_dec b 0) as [->|Hnb].
    - reflexivity.
    - destruct (f32_of_Z_finite b Hnb Hb) as (s & m & e & E & _).
      rewrite E in H. destruct s; discriminate H.
    - destruct (f32_of_Z_finite a Hna Ha) as (s & m & e & E & _).
      rewrite E in H. destruct s; discriminate H.
    - destruct (f32_of_Z_finite a Hna Ha) as (s & m & e & E & _).
      destruct (f32_of_Z_finite b Hnb Hb) as (s' & m' & e' & E' & _).
      rewrite E, E' in *. now apply SFeqb_finite. }
  pose proof (f32_trunc_of_Z a Ha) as Ta.
  pose proof (f32_trunc_of_Z b Hb) as Tb.
  rewrite E in Ta. congruence.
Qed.

(** A component of integer samples whose minimum is [a] and whose maximum
    is [a + 2^r]: parameters, codes and dequantised values. *)
Lemma integer_samples_quantisation (xs : list f32) (a r : Z) :
  0 <= r <= 16 -> Z.abs a * 2 ^ (16 - r) <= 2 ^ 22 ->
  np_min xs = Ok (f32_of_Z a) ->
  np_max xs = Ok (f32_of_Z (a + 2 ^ r)) ->
  quant_params xs
    = Ok (f32_of_Z (2 ^ (16 - r)), f32_of_Z (-32768 - 2 ^ (16 - r) * a)) /\
  (forall x : Z, a <= x < a + 2 ^ r ->
     quantize (f32_of_Z (2 ^ (16 - r))) (f32_of_Z (-32768 - 2 ^ (16 - r) * a))
       (f32_of_Z x) = 2 ^ (16 - r) * (x - a) - 32768 /\
     dequantize_sample (f32_of_Z (2 ^ (16 - r)))
       (f32_of_Z (-32768 - 2 ^ (16 - r) * a))
       (f32_of_Z (2 ^ (16 - r) * (x - a) - 32768)) = f32_of_Z x) /\
  quantize (f32_of_Z (2 ^ (16 - r))) (f32_of_Z (-32768 - 2 ^ (16 - r) * a))
    (f32_of_Z (a + 2 ^ r)) = -32768 /\
  f32_add (f32_mul (f32_of_Z (a + 2 ^ r)) (f32_of_Z (2 ^ (16 - r))))
    (f32_of_Z (-32768 - 2 ^ (16 - r) * a)) = f32_of_Z 32768 /\
  dequantize_sample (f32_of_Z (2 ^ (16 - r)))
    (f32_of_Z (-32768 - 2 ^ (16 - r) * a)) (f32_of_Z (-32768)) = f32_of_Z a.
Proof.
  intros Hr Ha Hmin Hmax.
  set (j := 16 - r) in *.
  assert (Hj : 0 <= j <= 23) by (unfold j; lia).
  assert (Hjr : 2 ^ j * 2 ^ r = 65536).
  { rewrite <- Z.pow_add_r by lia. unfold j.
    replace (16 - r + r) with 16 by lia. reflexivity. }
  assert (Hpj : 1 <= 2 ^ j)
    by (assert (0 < 2 ^ j) by (apply Z.pow_pos_nonneg; lia); lia).
  assert (Hpr : 1 <= 2 ^ r)
    by (assert (0 < 2 ^ r) by (apply Z.pow_pos_nonneg; lia); lia).
  assert (Hr16 : 2 ^ r <= 65536) by nia.
  assert (Hj16 : 2 ^ j <= 65536) by nia.
  change (2 ^ 22) with 4194304 in Ha.
  assert (Hx : forall x, a <= x <= a + 2 ^ r ->
               Z.abs x < 2 ^ 24 /\ Z.abs (x * 2 ^ j) < 2 ^ 24 /\
               Z.abs (x * 2 ^ j - a * 2 ^ j) <= 65536).
  { intros x Hxr. change (2 ^ 24) with 16777216.
    assert (Z.abs x <= Z.abs a + 2 ^ r) by lia.
    rewrite Z.abs_mul, (Z.abs_eq (2 ^ j)) by lia.
    assert (0 <= (x - a) * 2 ^ j <= 65536) by nia.
    split; [nia|]. split; [nia|].
    replace (x * 2 ^ j - a * 2 ^ j) with ((x - a) * 2 ^ j) by ring. lia. }
  destruct (Hx a ltac:(lia)) as (Ba & Baj & _).
  destruct (Hx (a + 2 ^ r) ltac:(lia)) as (Bm & Bmj & _).
  change (2 ^ 24) with 16777216 in *.
  replace (-32768 - 2 ^ j * a) with (-32768 - a * 2 ^ j) by ring.
  set (scl := f32_of_Z (2 ^ j)).
  set (off := f32_of_Z (-32768 - a * 2 ^ j)).
  assert (Hscl : f32_div (f32_of_Z intrng)
                   (f32_sub (f32_of_Z (a + 2 ^ r)) (f32_of_Z a)) = scl).
  { rewrite f32_sub_int by (change (2 ^ 24) with 16777216; lia).
    replace (a + 2 ^ r - a) with (2 ^ r) by lia.
    unfold intrng. rewrite <- Hjr.
    apply f32_div_pow2; [lia|]. rewrite Hjr. reflexivity. }
  assert (Hoff : f32_sub (f32_of_Z intmin) (f32_mul scl (f32_of_Z a)) = off).
  { unfold scl. rewrite (proj2 (f32_mul_pow2 a j Hj Baj)).
    unfold intmin. apply f32_sub_int; change (2 ^ 24) with 16777216; lia. }
  assert (Hq : forall x, a <= x <= a + 2 ^ r ->
               f32_add (f32_mul (f32_of_Z x) scl) off
               = f32_of_Z (2 ^ j * (x - a) - 32768)).
  { intros x Hxr. destruct (Hx x Hxr) as (Bx & Bxj & Bd).
    unfold scl, off. rewrite (proj1 (f32_mul_pow2 x j Hj Bxj)).
    rewrite f32_add_int by (change (2 ^ 24) with 16777216; lia).
    f_equal. ring. }
  assert (Hd : forall x, a <= x <= a + 2 ^ r ->
               dequantize_sample scl off (f32_of_Z (2 ^ j * (x - a) - 32768))
               = f32_of_Z x).
  { intros x Hxr. destruct (Hx x Hxr) as (Bx & Bxj & Bd).
    unfold dequantize_sample, off.
    rewrite f32_sub_int by (change (2 ^ 24) with 16777216; lia).
    replace (2 ^ j * (x - a) - 32768 - (-32768 - a * 2 ^ j))
      with (x * 2 ^ j) by ring.
    now apply f32_div_pow2. }
  split; [|split; [|split; [|split]]].
  - unfold quant_params. rewrite Hmin, Hmax. cbn [bind].
    destruct (f32_eqb (f32_of_Z a) (f32_of_Z (a + 2 ^ r))) eqn:Eq.
    + apply f32_eqb_of_Z in Eq; change (2 ^ 24) with 16777216; lia.
    + now rewrite Hscl, Hoff.
  - intros x Hxr. split; [|apply Hd; lia].
    unfold quantize. rewrite Hq by lia.
    apply astype_float32_exact, int16_range. nia.
  - unfold quantize. rewrite Hq by lia.
    replace (2 ^ j * (a + 2 ^ r - a) - 32768) with 32768 by nia.
    reflexivity.
  - rewrite Hq by lia. f_equal. nia.
  - pose proof (Hd a ltac:(lia)) as Hda.
    rewrite Z.sub_diag, Z.mul_0_r in Hda. exact Hda.
Qed.

(** X12.  A component of integer samples whose minimum is [a] and whose
    maximum is [a + 2^r] (r at most 16, [a] not too large): the scale is
    [2^(16-r)] and the offset [-32768 - 2^(16-r) * a], both exact, and every
    integer sample [x] below the maximum gets the code
    [2^(16-r) * (x - a) - 32768], an int16, and is dequantised to [x]
    itself. *)
Theorem integer_samples_round_trip (xs : list f32) (a r x : Z) :
  0 <= r <= 16 -> Z.abs a * 2 ^ (16 - r) <= 2 ^ 22 ->
  np_min xs = Ok (f32_of_Z a) ->
  np_max xs = Ok (f32_of_Z (a + 2 ^ r)) ->
  a <= x < a + 2 ^ r ->
  exists scl off : f32,
    quant_params xs = Ok (scl, off) /\
    scl = f32_of_Z (2 ^ (16 - r)) /\
    off = f32_of_Z (-32768 - 2 ^ (16 - r) * a) /\
    quantize scl off (f32_of_Z x) = 2 ^ (16 - r) * (x - a) - 32768 /\
    -32768 <= quantize scl off (f32_of_Z x) <= 32767 /\
    dequantize_sample scl off (f32_of_Z (quantize scl off (f32_of_Z x)))
      = f32_of_Z x.
Proof.
  intros Hr Ha Hmin Hmax Hx.
  destruct (integer_samples_quantisation xs a r Hr Ha Hmin Hmax)
    as (Hp & Hq & _).
  destruct (Hq x Hx) as [Hc Hd].
  eexists. eexists. split; [exact Hp|].
  split; [reflexivity|]. split; [reflexivity|].
  split; [exact Hc|]. split; [|rewrite Hc; exact Hd].
  apply int16_range. unfold quantize. apply astype_int16_range.
Qed.

Lemma integer_samples_round_trip_witness :
  exists scl off : f32,
    quant_params [f32_of_Z 3; f32_of_Z 7; f32_of_Z 4] = Ok (scl, off) /\
    quantize scl off (f32_of_Z 4) = -16384 /\
    dequantize_sample scl off (f32_of_Z (quantize scl off (f32_of_Z 4)))
      = f32_of_Z 4.
Proof.
  destruct (integer_samples_round_trip
              [f32_of_Z 3; f32_of_Z 7; f32_of_Z 4] 3 2 4)
    as (scl & off & Hp & _ & _ & Hc & _ & Hd).
  - lia.
  - vm_compute; discriminate.
  - vm_compute; reflexivity.
  - vm_compute; reflexivity.
  - vm_compute. split; [discriminate|reflexivity].
  - exists scl, off. split; [exact Hp|]. split; [exact Hc|exact Hd].
Defined.

(** X13.  In the same setting the largest sample does not come back: it is
    mapped to 32768.0, which no int16 holds, the cast stores -32768, and that
    code is dequantised to the minimum [a]. *)
Theorem integer_maximum_comes_back_as_minimum (xs : list f32) (a r : Z) :
  0 <= r <= 16 -> Z.abs a * 2 ^ (16 - r) <= 2 ^ 22 ->
  np_min xs = Ok (f32_of_Z a) ->
  np_max xs = Ok (f32_of_Z (a + 2 ^ r)) ->
  exists scl off : f32,
    quant_params xs = Ok (scl, off) /\
    f32_add (f32_mul (f32_of_Z (a + 2 ^ r)) scl) off = f32_of_Z 32768 /\
    quantize scl off (f32_of_Z (a + 2 ^ r)) = -32768 /\
    dequantize_sample scl off
      (f32_of_Z (quantize scl off (f32_of_Z (a + 2 ^ r)))) = f32_of_Z a.
Proof.
  intros Hr Ha Hmin Hmax.
  destruct (integer_samples_quantisation xs a r Hr Ha Hmin Hmax)
    as (Hp & _ & Hm & Hv & Hd).
  eexists. eexists. split; [exact Hp|].
  split; [exact Hv|]. split; [exact Hm|]. rewrite Hm. exact Hd.
Qed.

Lemma integer_maximum_comes_back_as_minimum_witness :
  exists scl off : f32,
    quant_params [f32_of_Z 3; f32_of_Z 7; f32_of_Z 4] = Ok (scl, off) /\
    dequantize_sample scl off (f32_of_Z (quantize scl off (f32_of_Z 7)))
      = f32_of_Z 3.
Proof.
  destruct (integer_maximum_comes_back_as_minimum
              [f32_of_Z 3; f32_of_Z 7; f32_of_Z 4] 3 2)
    as (scl & off & Hp & _ & _ & Hd).
  - lia.
  - vm_compute; discriminate.
  - vm_compute; reflexivity.
  - vm_compute; reflexivity.
  - exists scl, off. split; [exact Hp|exact Hd].
Defined.


(** * The exceptions of reshape *)

Lemma reshape_dims_error (len : Z) (dims : list Z) (x : exn) :
  reshape_dims len dims = Err x -> x = ValueError.
Proof.
  unfold reshape_dims.
  destruct (length (filter (fun d => d <? 0) dims)) as [|[|n]].
  - destruct (len =? _); congruence.
  - destruct (_ || _); congruence.
  - congruence.
Qed.

Lemma reshape_F_error {A : Type} (d : A) (l : list A) (d1 d2 d3 : Z)
    (x : exn) :
  reshape_F d l d1 d2 d3 = Err x -> x = ValueError.
Proof.
  unfold reshape_F.
  destruct (reshape_dims (Z.of_nat (length l)) [3; d1; d2; d3])
    as [s|y] eqn:Hs; cbn [bind].
  - destruct s as [|? [|? [|? [|? [|? ?]]]]]; congruence.
  - intro H. injection H as <-. exact (reshape_dims_error _ _ _ Hs).
Qed.

Lemma read_data_error (native : byte_order) (h : header) (fl : list byte)
    (x : exn) :
  read_data native h fl = Err x -> x = ValueError.
Proof.
  unfold read_data, read_block.
  destruct (fl_read (2 * (3 * n_y h * n_z h * n_t h)) fl) as [raw rest].
  unfold fromstring_int16.
  destruct (Nat.even (length raw)); cbn [bind]; [|congruence].
  destruct (reshape_F (S754_zero false)
              (map f32_of_Z (map (bytes_int native) (chunk2 raw)))
              (n_y h) (n_z h) (n_t h)) as [a|y] eqn:Hr; cbn [bind].
  - discriminate.
  - intro H. injection H as <-. exact (reshape_F_error _ _ _ _ _ _ Hr).
Qed.


(** * read on a machine with limits *)

Lemma file_read_granted (p : platform) (n : Z) (fl : list byte) :
  granted p n fl = true -> file_read p n fl = Ok (fl_read n fl).
Proof.
  unfold granted, file_read. rewrite !andb_true_iff, !Z.leb_le.
  intros [[[H1 H2] H3] _].
  replace (n <? - long_max p - 1) with false
    by (symmetry; apply Z.ltb_ge; lia).
  replace (long_max p <? n) with false by (symmetry; apply Z.ltb_ge; lia).
  cbn [orb].
  replace (avail p <? (if n <? 0 then Z.of_nat (length fl) else n))
    with false by (symmetry; apply Z.ltb_ge; lia).
  reflexivity.
Qed.

Lemma fromstring_length (native : byte_order) (raw : list byte) (q : list Z) :
  fromstring_int16 native raw = Ok q ->
  (2 * length q = length raw)%nat.
Proof.
  unfold fromstring_int16. destruct (Nat.even (length raw)) eqn:He;
    [|discriminate].
  intro H. injection H as <-.
  rewrite length_map, chunk2_length.
  symmetry. now apply even_double_div2.
Qed.

(** Within the limits of the machine the block is read as [read_block] has
    it. *)
Lemma read_block_on_granted (p : platform) (native : byte_order)
    (ny nz nt : Z) (fl : list byte) :
  granted p (2 * (3 * ny * nz * nt)) fl = true ->
  read_block_on p native ny nz nt fl = read_block native ny nz nt fl.
Proof.
  intro Hg. unfold read_block_on, read_block.
  rewrite (file_read_granted _ _ _ Hg). cbn [bind].
  unfold granted in Hg. apply andb_true_iff in Hg as [_ Hg].
  apply Z.leb_le in Hg.
  destruct (fl_read (2 * (3 * ny * nz * nt)) fl) as [raw rest].
  cbn [fst] in *.
  destruct (fromstring_int16 native raw) as [q|x] eqn:Eq; [|reflexivity].
  cbn [bind]. apply fromstring_length in Eq.
  unfold astype_float32.
  replace (avail p <? 4 * Z.of_nat (length q)) with false
    by (symmetry; apply Z.ltb_ge; lia).
  reflexivity.
Qed.

Lemma file_read_70 (p : platform) (file : list byte) :
  70 <= avail p -> 70 <= long_max p ->
  file_read p 70 file = Ok (firstn 70 file, skipn 70 file).
Proof.
  intros Ha Hl. unfold file_read, fl_read.
  replace (70 <? - long_max p - 1) with false
    by (symmetry; apply Z.ltb_ge; lia).
  replace (long_max p <? 70) with false by (symmetry; apply Z.ltb_ge; lia).
  change (70 <? 0) with false. cbn [orb].
  replace (avail p <? 70) with false by (symmetry; apply Z.ltb_ge; lia).
  reflexivity.
Qed.

Lemma read_on_unfold (p : platform) (e native : byte_order)
    (file : list byte) :
  70 <= avail p -> 70 <= long_max p ->
  read_on p e native file =
  bind (unpack_header e (firstn 70 file))
    (fun h =>
       bind (read_block_on p native (n_y h) (n_z h) (n_t h) (skipn 70 file))
         (fun out => Ok (dequantize (u_scl h) (u_off h) out))).
Proof.
  intros Ha Hl. unfold read_on. rewrite (file_read_70 p file Ha Hl).
  reflexivity.
Qed.

(** On a machine that grants the reads, [read_on] is [read]. *)
Lemma read_on_granted (p : platform) (e native : byte_order)
    (file : list byte) (h : header) :
  70 <= avail p -> 70 <= long_max p ->
  unpack_header e (firstn 70 file) = Ok h ->
  granted p (2 * (3 * n_y h * n_z h * n_t h)) (skipn 70 file) = true ->
  read_on p e native file = read e native file.
Proof.
  intros Ha Hl Hu Hg.
  rewrite (read_on_unfold p e native file Ha Hl), read_unfold, Hu.
  cbn [bind]. unfold read_data.
  now rewrite (read_block_on_granted _ _ _ _ _ _ Hg).
Qed.

(** A count that the block needs and the machine can hold twice over is
    granted. *)
Lemma granted_nonneg (p : platform) (nbt : Z) (fl : list byte) :
  70 <= avail p -> avail p <= long_max p ->
  0 <= nbt -> 4 * nbt <= avail p ->
  granted p (2 * nbt) fl = true.
Proof.
  intros Ha Hl H0 Hn. unfold granted, fl_read.
  replace (2 * nbt <? 0) with false by (symmetry; apply Z.ltb_ge; lia).
  cbn [fst]. rewrite length_firstn.
  rewrite !andb_true_iff, !Z.leb_le. repeat split; lia.
Qed.


(** With two or three negative extents no array comes out of the block. *)
Lemma read_block_on_two_negative (p : platform) (native : byte_order)
    (ny nz nt : Z) (fl : list byte) (a : ndarray f32) :
  (ny < 0 /\ nz < 0) \/ (ny < 0 /\ nt < 0) \/ (nz < 0 /\ nt < 0) ->
  read_block_on p native ny nz nt fl <> Ok a.
Proof.
  intros Hneg H. unfold read_block_on in H.
  apply bind_ok in H as (r & _ & H).
  apply bind_ok in H as (q & _ & H).
  apply bind_ok in H as (x & _ & H).
  apply bind_ok in H as (b & H & _).
  unfold reshape_F in H.
  rewrite (reshape_two_unknown _ _ _ _ Hneg) in H. discriminate H.
Qed.

(** X4.  On a machine that grants the buffers (the count is a C long, and
    four bytes for each of the [3 * n_y * n_z * n_t] samples are to be had),
    with a header that unpacks and non-negative extents, [read] fails exactly
    when fewer than [2 * 3 * n_y * n_z * n_t] bytes follow byte 70, and then
    with the [ValueError] of [fromstring] or [reshape]: no array is returned
    from a part of the block. *)
Theorem read_fails_iff_block_short
    (p : platform) (e native : byte_order) (file : list byte) (h : header) :
  70 <= avail p -> avail p <= long_max p ->
  unpack_header e (firstn 70 file) = Ok h ->
  0 <= n_y h -> 0 <= n_z h -> 0 <= n_t h ->
  4 * (3 * n_y h * n_z h * n_t h) <= avail p ->
  (Z.of_nat (length (skipn 70 file)) < 2 * (3 * n_y h * n_z h * n_t h)
   <-> read_on p e native file = Err ValueError) /\
  (Z.of_nat (length (skipn 70 file)) < 2 * (3 * n_y h * n_z h * n_t h)
   <-> forall a, read_on p e native file <> Ok a).
Proof.
  intros Ha Hl Hu Hy Hz Ht Hn.
  pose proof (nbt_nonneg _ _ _ Hy Hz Ht) as H0.
  rewrite (read_on_granted p e native file h) by
    (try assumption; try lia; now apply granted_nonneg).
  now apply read_short_iff.
Qed.

Lemma read_fails_iff_block_short_witness :
  read_on sample_machine LittleEndian LittleEndian (firstn 74 described_file)
    = Err ValueError.
Proof.
  apply (read_fails_iff_block_short sample_machine LittleEndian LittleEndian
           (firstn 74 described_file) (one_point_header 7 2)).
  - vm_compute; discriminate.
  - vm_compute; discriminate.
  - vm_compute; reflexivity.
  - vm_compute; discriminate.
  - vm_compute; discriminate.
  - vm_compute; discriminate.
  - vm_compute; discriminate.
  - vm_compute; reflexivity.
Defined.

(** X10.  [read] does not look at the signs of the three extents it unpacks,
    but a header with two or three negative extents is never decoded.  No
    array is returned on any machine; where the machine grants the read, the
    bytes are refused by [fromstring] or by [reshape], both with a
    [ValueError]. *)
Theorem read_two_negative_extents
    (p : platform) (e native : byte_order) (file : list byte) (h : header) :
  70 <= avail p -> 70 <= long_max p ->
  unpack_header e (firstn 70 file) = Ok h ->
  (n_y h < 0 /\ n_z h < 0) \/ (n_y h < 0 /\ n_t h < 0)
    \/ (n_z h < 0 /\ n_t h < 0) ->
  (forall a, read_on p e native file <> Ok a) /\
  (granted p (2 * (3 * n_y h * n_z h * n_t h)) (skipn 70 file) = true ->
   read_on p e native file = Err ValueError).
Proof.
  intros Ha Hl Hu Hneg. split.
  - intros a H. rewrite (read_on_unfold p e native file Ha Hl), Hu in H.
    cbn [bind] in H. apply bind_ok in H as (out & H & _).
    exact (read_block_on_two_negative _ _ _ _ _ _ _ Hneg H).
  - intro Hg. rewrite (read_on_granted p e native file h Ha Hl Hu Hg).
    now apply (read_two_negative e native file h).
Qed.

Lemma read_two_negative_extents_witness :
  read_on sample_machine LittleEndian LittleEndian two_negative_file
    = Err ValueError.
Proof.
  apply (read_two_negative_extents sample_machine LittleEndian LittleEndian
           two_negative_file two_negative_header).
  - vm_compute; discriminate.
  - vm_compute; discriminate.
  - vm_compute; reflexivity.
  - left. split; vm_compute; reflexivity.
  - vm_compute; reflexivity.
Defined.

(** X11.  A header with n_t = -1 (and positive n_y, n_z) is accepted where
    the count [-2 * 3 * n_y * n_z] is a C long and the machine holds the rest
    of the file twice over: [read] then takes all the bytes up to the end of
    the file, and when they are [k] whole time steps of [2 * 3 * n_y * n_z]
    bytes the array returned has [k] time steps. *)
Theorem read_infers_time_steps
    (p : platform) (e native : byte_order) (file : list byte) (h : header)
    (k : nat) :
  70 <= avail p -> 70 <= long_max p ->
  unpack_header e (firstn 70 file) = Ok h ->
  0 < n_y h -> 0 < n_z h -> n_t h = -1 ->
  Z.of_nat (length (skipn 70 file)) = 2 * (3 * n_y h * n_z h * Z.of_nat k) ->
  2 * (3 * n_y h * n_z h) <= long_max p + 1 ->
  2 * Z.of_nat (length (skipn 70 file)) <= avail p ->
  exists a : ndarray f32,
    read_on p e native file = Ok a /\
    dim1 a = Z.to_nat (n_z h) /\ dim2 a = Z.to_nat (n_y h) /\ dim3 a = k.
Proof.
  intros Ha Hl Hu Hy Hz Ht Hlen Hc Hm.
  rewrite (read_on_granted p e native file h Ha Hl Hu).
  - now apply read_open_ended.
  - rewrite Ht. unfold granted, fl_read.
    assert (Hk : 0 < 3 * n_y h * n_z h) by nia.
    replace (2 * (3 * n_y h * n_z h * -1) <? 0) with true
      by (symmetry; apply Z.ltb_lt; lia).
    cbn [fst]. rewrite !andb_true_iff, !Z.leb_le. repeat split; lia.
Qed.

Lemma read_infers_time_steps_witness :
  exists a : ndarray f32,
    read_on sample_machine LittleEndian LittleEndian open_ended_file = Ok a /\
    dim3 a = 2%nat.
Proof.
  destruct (read_infers_time_steps sample_machine LittleEndian LittleEndian
              open_ended_file open_ended_header 2)
    as (a & Ha & _ & _ & H3).
  - vm_compute; discriminate.
  - vm_compute; discriminate.
  - vm_compute; reflexivity.
  - vm_compute; reflexivity.
  - vm_compute; reflexivity.
  - reflexivity.
  - vm_compute; reflexivity.
  - vm_compute; discriminate.
  - vm_compute; discriminate.
  - exists a. split; [exact Ha|exact H3].
Defined.



(** * The header of a written file *)

Lemma pack_bytes (o : byte_order) (vs : list field) :
  forall bs, pack o vs = Ok bs -> bs = concat (map (field_bytes o) vs).
Proof.
  induction vs as [|v vs IH]; intros bs H.
  - injection H as <-. reflexivity.
  - apply pack_cons_inv in H as (b & bs' & Hb & Hbs & ->).
    cbn [map concat]. rewrite <- (IH _ Hbs). f_equal.
    destruct v as [z|z|x]; cbn [pack_field field_bytes] in *.
    + destruct (in_int_range 2 z); [|discriminate]. now injection Hb as <-.
    + destruct (in_int_range 4 z); [|discriminate]. now injection Hb as <-.
    + apply bind_ok in Hb as (y & Hy & Hb). injection Hb as <-.
      apply pack_float_value in Hy. now subst y.
Qed.

Lemma float_slot_bytes (o : byte_order) (x : f64) :
  float_slot o x (float_bytes o x).
Proof.
  unfold float_slot, float_bytes.
  split; [apply int_bytes_length|]. split; [|reflexivity].
  now rewrite bytes_uint_int_bytes.
Qed.

(** The parts of the file [write] produces. *)
Lemma write_parts (e native : byte_order) (prog_name version now : string)
    (tsdat : Tsdata.t) (file : list byte) :
  write e native prog_name version now tsdat = Ok file ->
  exists hd scl off out z_0 zs,
    quantize_all (Tsdata.utotal tsdat) = Ok (scl, off, out) /\
    Grid.z (Tsdata.grid tsdat) = z_0 :: zs /\
    pack_header e
      (mk_header 7 (Grid.n_z (Tsdata.grid tsdat)) (Grid.n_y (Tsdata.grid tsdat))
         (Grid.n_tower (Tsdata.grid tsdat))
         (Z.of_nat (dim3 (Tsdata.utotal tsdat)))
         (Grid.dz (Tsdata.grid tsdat)) (Grid.dy (Tsdata.grid tsdat))
         (Tsdata.dt tsdat) (Tsdata.UHUB tsdat) (Grid.zhub (Tsdata.grid tsdat))
         z_0 scl off
         (Z.of_nat (String.length (desc_str prog_name version now))))
      = Ok hd /\
    length hd = 70%nat /\
    file = hd ++ list_byte_of_string (desc_str prog_name version now)
              ++ data_block native out.
Proof.
  unfold write. intro H.
  apply bind_ok in H as ([[scl off] out] & Hq & H).
  destruct (Grid.z (Tsdata.grid tsdat)) as [|z_0 zs]; [discriminate H|].
  cbn [bind] in H.
  apply bind_ok in H as (hd & Hp & H).
  injection H as <-.
  exists hd, scl, off, out, z_0, zs.
  split; [exact Hq|]. split; [reflexivity|]. split; [exact Hp|].
  split; [exact (pack_header_length _ _ _ Hp)|reflexivity].
Qed.

(** C9.  The file [write] produces starts with one packed record of 70 bytes
    in the byte order [e], with nothing in between its fields: the int16 tag
    7, the int32 counts n_z, n_y, n_tower and the number of time steps, the
    float32 slots of dz, dy, dt, UHUB, zhub and z[0], the float32 slots of the
    scale and the offset of components 0, 1 and 2, and the int32 length of the
    description.  [read] unpacks the first 70 bytes of the file into these
    very values, in this order, the floats as binary32 values, before it
    turns to the bytes that follow. *)
Theorem header_is_70_packed_bytes
    (e native : byte_order) (prog_name version now : string)
    (tsdat : Tsdata.t) (file : list byte) :
  write e native prog_name version now tsdat = Ok file ->
  exists (scl off : f32 * f32 * f32) (out : ndarray Z) (z_0 : f64)
         (zs : list f64) (fb : list (list byte)) (h : header),
    quantize_all (Tsdata.utotal tsdat) = Ok (scl, off, out) /\
    Grid.z (Tsdata.grid tsdat) = z_0 :: zs /\
    length (firstn 70 file) = 70%nat /\
    Forall2 (float_slot e)
      [ Grid.dz (Tsdata.grid tsdat); Grid.dy (Tsdata.grid tsdat);
        Tsdata.dt tsdat; Tsdata.UHUB tsdat; Grid.zhub (Tsdata.grid tsdat);
        z_0;
        sel3 scl 0; sel3 off 0; sel3 scl 1; sel3 off 1;
        sel3 scl 2; sel3 off 2 ] fb /\
    firstn 70 file =
      int_bytes e 2 7 ++
      int_bytes e 4 (Grid.n_z (Tsdata.grid tsdat)) ++
      int_bytes e 4 (Grid.n_y (Tsdata.grid tsdat)) ++
      int_bytes e 4 (Grid.n_tower (Tsdata.grid tsdat)) ++
      int_bytes e 4 (Z.of_nat (dim3 (Tsdata.utotal tsdat))) ++
      concat fb ++
      int_bytes e 4 (Z.of_nat (String.length (desc_str prog_name version now)))
    /\
    unpack_header e (firstn 70 file) = Ok h /\
    h = mk_header 7
          (Grid.n_z (Tsdata.grid tsdat)) (Grid.n_y (Tsdata.grid tsdat))
          (Grid.n_tower (Tsdata.grid tsdat))
          (Z.of_nat (dim3 (Tsdata.utotal tsdat)))
          (float_read_back (Grid.dz (Tsdata.grid tsdat)))
          (float_read_back (Grid.dy (Tsdata.grid tsdat)))
          (float_read_back (Tsdata.dt tsdat))
          (float_read_back (Tsdata.UHUB tsdat))
          (float_read_back (Grid.zhub (Tsdata.grid tsdat)))
          (float_read_back z_0)
          (triple_map float_read_back scl) (triple_map float_read_back off)
          (Z.of_nat (String.length (desc_str prog_name version now))) /\
    read e native file = read_data native h (skipn 70 file).
Proof.
  intro H.
  apply write_parts in H
    as (hd & scl & off & out & z_0 & zs & Hq & Hz & Hp & Hl & ->).
  pose proof (unpack_header_packed _ _ _ Hp) as Hu.
  pose proof (pack_bytes _ _ _ Hp) as Hb.
  rewrite (firstn_app_length _ _ 70 Hl).
  exists scl, off, out, z_0, zs.
  exists (map (float_bytes e)
            [ Grid.dz (Tsdata.grid tsdat); Grid.dy (Tsdata.grid tsdat);
              Tsdata.dt tsdat; Tsdata.UHUB tsdat;
              Grid.zhub (Tsdata.grid tsdat); z_0;
              sel3 scl 0; sel3 off 0; sel3 scl 1; sel3 off 1;
              sel3 scl 2; sel3 off 2 ]).
  eexists.
  split; [exact Hq|]. split; [exact Hz|]. split; [exact Hl|].
  split; [cbn [map]; repeat constructor; apply float_slot_bytes|].
  split.
  { rewrite Hb.
    cbn [header_fields map concat field_bytes junk n_z n_y n_tower n_t
         dz dy dt uhub zhub z0 u_scl u_off strlen].
    rewrite <- !app_assoc. cbn [app]. now rewrite app_nil_r. }
  split; [exact Hu|].
  split.
  - destruct scl as [[s0 s1] s2], off as [[o0 o1] o2]. reflexivity.
  - rewrite (read_app _ _ _ _ Hl), Hu. cbn [bind].
    now rewrite (skipn_app_length _ _ 70 Hl).
Qed.

(** C9 on the field of one grid point, little-endian. *)
Lemma header_is_70_packed_bytes_witness :
  exists (file : list byte) (h : header),
    write LittleEndian LittleEndian "pyTurbSim" "0.4"
      "Jan 01, 2020, 00:00 (UTC)" one_point_field = Ok file /\
    unpack_header LittleEndian (firstn 70 file) = Ok h /\
    junk h = 7 /\ n_z h = 1 /\ dz h = f32_one /\ strlen h = 55 /\
    firstn 6 file = int_bytes LittleEndian 2 7 ++ int_bytes LittleEndian 4 1.
Proof.
  destruct (write LittleEndian LittleEndian "pyTurbSim" "0.4"
              "Jan 01, 2020, 00:00 (UTC)" one_point_field)
    as [file|x] eqn:E; [|vm_compute in E; discriminate].
  destruct (header_is_70_packed_bytes _ _ _ _ _ _ _ E)
    as (scl & off & out & z_0 & zs & fb & h & _ & _ & _ & _ & Hf & Hu & Hh & _).
  exists file, h. split; [reflexivity|]. split; [exact Hu|].
  rewrite Hh. cbn [junk n_z dz strlen].
  split; [reflexivity|]. split; [reflexivity|].
  split; [vm_compute; reflexivity|]. split; [reflexivity|].
  replace (firstn 6 file) with (firstn 6 (firstn 70 file))
    by (rewrite firstn_firstn; reflexivity).
  rewrite Hf. reflexivity.
Defined.

(** * Quantisation parameters are not checked *)

(** C10, as the code has it.  [read] looks at no scale or offset before it
    uses them.  When the header unpacks, the extents are non-negative and the
    bytes of the data block are there, a scale of (plus or minus) zero for
    component [ind] changes nothing: the array is returned, and every entry of
    that component is the quotient of (sample - offset) by the zero scale as
    IEEE 754 has it, an infinity or a NaN. *)
Theorem read_divides_by_zero_scale
    (e native : byte_order) (file : list byte) (h : header)
    (ind : nat) (s : bool) :
  unpack_header e (firstn 70 file) = Ok h ->
  0 <= n_y h -> 0 <= n_z h -> 0 <= n_t h ->
  2 * (3 * n_y h * n_z h * n_t h) <= Z.of_nat (length (skipn 70 file)) ->
  (ind < 3)%nat ->
  sel3 (u_scl h) ind = S754_zero s ->
  exists a : ndarray f32,
    read e native file = Ok a /\
    dim1 a = Z.to_nat (n_z h) /\ dim2 a = Z.to_nat (n_y h) /\
    dim3 a = Z.to_nat (n_t h) /\
    forall z y t : nat,
      (z < dim1 a)%nat -> (y < dim2 a)%nat -> (t < dim3 a)%nat ->
      item a ind z y t =
      quotient_by_zero
        (f32_sub
           (f32_of_Z
              (sample_at native (skipn 70 file)
                 (ind + 3 * (y + dim2 a * (dim1 a - 1 - z + dim1 a * t)))))
           (sel3 (u_off h) ind))
        s /\
      (item a ind z y t = S754_nan \/
       exists sq : bool, item a ind z y t = S754_infinity sq).
Proof.
  intros Hu Hy Hz Ht Hlen Hind Hs.
  destruct (read_data_formula native h (skipn 70 file) Hy Hz Ht Hlen)
    as (a & Ha & H1 & H2 & H3 & Hi).
  exists a. rewrite read_unfold, Hu. cbn [bind].
  split; [exact Ha|]. split; [exact H1|]. split; [exact H2|].
  split; [exact H3|].
  intros z y t Hz' Hy' Ht'.
  destruct (Hi ind z y t Hind Hz' Hy' Ht') as [_ Hv].
  rewrite Hv, Hs. unfold dequantize_sample, f32_div.
  destruct (f32_sub _ _) as [sx|sx| |sx mx ex]; cbn [SFdiv quotient_by_zero];
    (split; [reflexivity|]); eauto.
Qed.

(** C10 at a file: one grid point, the samples 1, 2, 3 and a zero scale for
    component 0; the first entry is 1 / 0, plus infinity. *)
Lemma read_divides_by_zero_scale_witness :
  exists a : ndarray f32,
    read LittleEndian LittleEndian zero_scale_file = Ok a /\
    item a 0 0 0 0 = S754_infinity false.
Proof.
  destruct (read_divides_by_zero_scale LittleEndian LittleEndian
              zero_scale_file zero_scale_header 0 false)
    as (a & Ha & H1 & H2 & H3 & Hi).
  - vm_compute; reflexivity.
  - vm_compute; discriminate.
  - vm_compute; discriminate.
  - vm_compute; discriminate.
  - vm_compute; discriminate.
  - lia.
  - reflexivity.
  - exists a. split; [exact Ha|].
    destruct (Hi 0%nat 0%nat 0%nat) as [Hv _];
      try (rewrite ?H1, ?H2, ?H3; vm_compute; lia).
    rewrite Hv, H1, H2. vm_compute. reflexivity.
Defined.

(** C10, the counterexample.  The same file cut after its first two samples:
    the header still has the zero scale, but [reshape] finds two samples where
    three are due and raises [ValueError]; no array is returned. *)
Lemma zero_scale_file_cut_short :
  unpack_header LittleEndian (firstn 70 (firstn 74 zero_scale_file))
    = Ok zero_scale_header /\
  sel3 (u_scl zero_scale_header) 0 = S754_zero false /\
  read LittleEndian LittleEndian (firstn 74 zero_scale_file) = Err ValueError.
Proof.
  split; [vm_compute; reflexivity|].
  split; vm_compute; reflexivity.
Qed.

(** * The data block of a written file *)

(** C6, as the code has it.  For a field whose shape agrees with the counts
    of the grid, and the file [write] makes of it.  The code of the entry
    (c, z, y, t) is written as sample number
    [i = c + 3 * (y + n_y * (n_z - 1 - z + n_z * t))] of the data block,
    component fastest, then y, then z the other way round, time slowest; the
    block starts after the header and the description, at byte [70 + strlen].
    [read] undoes exactly this order: its entry (c, z, y, t) is computed from
    sample number [i], dequantised with the scale and offset of the header.
    But it counts its samples from byte 70, where the description starts, and
    the description is never empty: sample [i] of [read] is not sample [i] of
    the block. *)
Theorem written_block_is_read_from_byte_70
    (e native : byte_order) (prog_name version now : string)
    (tsdat : Tsdata.t) (file : list byte) :
  write e native prog_name version now tsdat = Ok file ->
  Grid.n_z (Tsdata.grid tsdat) = Z.of_nat (dim1 (Tsdata.utotal tsdat)) ->
  Grid.n_y (Tsdata.grid tsdat) = Z.of_nat (dim2 (Tsdata.utotal tsdat)) ->
  exists (scl off : f32 * f32 * f32) (out : ndarray Z) (a : ndarray f32),
    quantize_all (Tsdata.utotal tsdat) = Ok (scl, off, out) /\
    read e native file = Ok a /\
    dim1 a = dim1 (Tsdata.utotal tsdat) /\
    dim2 a = dim2 (Tsdata.utotal tsdat) /\
    dim3 a = dim3 (Tsdata.utotal tsdat) /\
    (18 <= String.length (desc_str prog_name version now))%nat /\
    forall c z y t : nat,
      (c < 3)%nat -> (z < dim1 (Tsdata.utotal tsdat))%nat ->
      (y < dim2 (Tsdata.utotal tsdat))%nat ->
      (t < dim3 (Tsdata.utotal tsdat))%nat ->
      sample_at native
        (skipn (70 + String.length (desc_str prog_name version now)) file)
        (c + 3 * (y + dim2 (Tsdata.utotal tsdat)
                      * (dim1 (Tsdata.utotal tsdat) - 1 - z
                         + dim1 (Tsdata.utotal tsdat) * t)))
      = item out c z y t /\
      item a c z y t =
      f32_div
        (f32_sub
           (f32_of_Z
              (sample_at native (skipn 70 file)
                 (c + 3 * (y + dim2 (Tsdata.utotal tsdat)
                               * (dim1 (Tsdata.utotal tsdat) - 1 - z
                                  + dim1 (Tsdata.utotal tsdat) * t)))))
           (float_read_back (sel3 off c)))
        (float_read_back (sel3 scl c)).
Proof.
  intros H Hnz Hny.
  apply write_parts in H
    as (hd & scl & off & out & z_0 & zs & Hq & _ & Hp & Hl & ->).
  pose proof (quantize_all_int16 _ _ _ _ Hq) as (Hi16 & D1 & D2 & D3).
  pose proof (data_block_length native out) as Hb.
  rewrite (read_app _ _ _ _ Hl), (unpack_header_packed _ _ _ Hp). cbn [bind].
  set (ts := Tsdata.utotal tsdat) in *.
  set (desc := desc_str prog_name version now) in *.
  set (h := header_read_back _).
  assert (Ey : n_y h = Z.of_nat (dim2 ts)) by exact Hny.
  assert (Ez : n_z h = Z.of_nat (dim1 ts)) by exact Hnz.
  assert (Et : n_t h = Z.of_nat (dim3 ts)) by reflexivity.
  destruct (read_data_formula native h
              (list_byte_of_string desc ++ data_block native out))
    as (a & Ha & H1 & H2 & H3 & Hi).
  - rewrite Ey. lia.
  - rewrite Ez. lia.
  - rewrite Et. lia.
  - rewrite length_app, Hb, Ey, Ez, Et, D1, D2, D3. lia.
  - rewrite Ey, Ez, Et, !Nat2Z.id in *.
    exists scl, off, out, a.
    split; [exact Hq|]. split; [exact Ha|]. split; [exact H1|].
    split; [exact H2|]. split; [exact H3|].
    split; [unfold desc; rewrite desc_str_length; lia|].
    intros c z y t Hc Hz Hy Ht. split.
    + rewrite (Nat.add_comm 70), <- skipn_skipn, (skipn_app_length _ _ 70 Hl).
      rewrite skipn_app_length by apply list_byte_of_string_length.
      destruct (data_block_layout native out [] Hi16) as [Hord _].
      assert (Hzz : (dim1 ts - 1 - z < dim1 ts)%nat) by lia.
      pose proof (F_index_bound c y (dim1 ts - 1 - z) t (dim2 ts) (dim1 ts)
                    (dim3 ts) Hc Hy Hzz Ht) as Hidx.
      rewrite <- (sample_of_chunks native (data_block native out)
                    (length (data_block native out)))
        by (rewrite ?Hb, ?D1, ?D2, ?D3; lia).
      rewrite firstn_all.
      rewrite <- D1, <- D2 in *.
      rewrite (Hord c y (dim1 out - 1 - z)%nat t) by (rewrite ?D3; lia).
      f_equal. lia.
    + destruct (Hi c z y t) as [_ Hv]; try (rewrite ?H1, ?H2, ?H3; lia).
      rewrite Hv, H1, H2. unfold dequantize_sample.
      rewrite (skipn_app_length _ _ 70 Hl).
      unfold h. cbn [header_read_back u_scl u_off].
      now rewrite !sel3_triple_map.
Qed.

(** C6 at the failing input: the field of two z levels and two y positions
    whose component 0 holds 0, 1 on the lower level and 2, 4 on the upper one,
    under a description of 55 characters.  The block in the file has the
    upper level first; what [read] returns for component 0 is between 3 and 4
    at all four places, made of description text. *)
Lemma written_block_is_read_from_byte_70_witness :
  exists (file : list byte) (a : ndarray f32),
    write LittleEndian LittleEndian "pyTurbSim" "0.4"
      "Jan 01, 2020, 00:00 (UTC)" four_point_field = Ok file /\
    read LittleEndian LittleEndian file = Ok a /\
    map (bytes_int LittleEndian) (chunk2 (skipn 125 file))
      = [0; 0; 0; -32768; -32768; -32768;
         -32768; -32768; -32768; -16384; -16384; -16384] /\
    map f32_trunc (comp_items (Tsdata.utotal four_point_field) 0)
      = [Some 0; Some 1; Some 2; Some 4] /\
    map f32_trunc (comp_items a 0) = [Some 3; Some 3; Some 3; Some 3].
Proof.
  destruct (write LittleEndian LittleEndian "pyTurbSim" "0.4"
              "Jan 01, 2020, 00:00 (UTC)" four_point_field)
    as [file|x] eqn:E; [|vm_compute in E; discriminate].
  destruct (written_block_is_read_from_byte_70 _ _ _ _ _ _ _ E
              eq_refl eq_refl)
    as (scl & off & out & a & _ & Ha & _).
  exists file, a. split; [reflexivity|]. split; [exact Ha|].
  assert (R : returns
                (bind (write LittleEndian LittleEndian "pyTurbSim" "0.4"
                         "Jan 01, 2020, 00:00 (UTC)" four_point_field)
                      (read LittleEndian LittleEndian))
                (fun a => map f32_trunc (comp_items a 0)
                          = [Some 3; Some 3; Some 3; Some 3]))
    by (vm_compute; reflexivity).
  rewrite E in R. cbn [bind] in R. rewrite Ha in R.
  split; [|split; [vm_compute; reflexivity|exact R]].
  vm_compute in E. injection E as <-. vm_compute. reflexivity.
Defined.
